(** * Rollup aggregation server: a shallow embedding and its properties

    The development follows the TypeScript sources:
    - [falafel/src/server.ts] : the [Server] class (admission, batching,
      rollup construction, block handling) and the [FeeCalculator] class;
    - the [Contracts] class of the blockchain adapter;
    - [appFactory], the HTTP application in front of the server.

    Part I holds the embedding (one module per source class or external
    collaborator), Parts II and III the lemmas and theorems. *)

From Stdlib Require Import ZArith List String Ascii Strings.Byte QArith Qcanon Qround Lia Lqa Bool.
From stdpp Require Import base option list gmap.

Open Scope Z_scope.

(* ===================================================================== *)
(** * Part I: the embedding                                              *)
(* ===================================================================== *)

(** ** Node.js [Buffer] and the [bigint-buffer] helpers *)

Module Buf.

Definition Buffer := list byte.

#[global] Instance byte_eq_decision : EqDecision byte := Byte.byte_eq_dec.

Definition byteOfZ (v : Z) : byte :=
  match Byte.of_N (Z.to_N (v mod 256)) with
  | Some b => b
  | None => x00
  end.

Definition byteToZ (b : byte) : Z := Z.of_N (Byte.to_N b).

(** [Buffer.alloc(n)] and [Buffer.alloc(n, 0)]. *)
Definition alloc (n : nat) : Buffer := replicate n x00.

(** Index normalisation of [Buffer.prototype.slice]: a negative index
    counts from the end, and both ends are clamped to the buffer. *)
Definition relIndex (len i : Z) : Z :=
  if i <? 0 then Z.max 0 (len + i) else Z.min i len.

(** [buf.slice(start, end)]; [None] for an omitted [end]. *)
Definition slice (b : Buffer) (start : Z) (end_ : option Z) : Buffer :=
  let len := Z.of_nat (length b) in
  let s := relIndex len start in
  let e := relIndex len (default len end_) in
  take (Z.to_nat (e - s)) (drop (Z.to_nat s) b).

(** [Buffer.concat(list)]. *)
Definition concat (bs : list Buffer) : Buffer := List.concat bs.

(** [buf.equals(other)]. *)
Definition equals (a b : Buffer) : bool :=
  bool_decide (a = b).

(** [buf.writeUInt8(v, offset)] for an offset inside the buffer (Node
    raises a RangeError otherwise; the one call writes byte 63 of 64). *)
Definition writeUInt8 (b : Buffer) (v : byte) (offset : nat) : Buffer :=
  <[offset := v]> b.

(** [toBigIntBE(buf)] of bigint-buffer. *)
Definition toBigIntBE (b : Buffer) : Z :=
  fold_left (fun acc x => acc * 256 + byteToZ x) b 0.

(** [toBufferBE(v, width)] of bigint-buffer: the [width] low bytes of
    [v], most significant first. *)
Fixpoint toBufferBE_acc (v : Z) (width : nat) (acc : Buffer) : Buffer :=
  match width with
  | O => acc
  | S w => toBufferBE_acc (v / 256) w (byteOfZ v :: acc)
  end.

Definition toBufferBE (v : Z) (width : nat) : Buffer := toBufferBE_acc v width [].

End Buf.

Import Buf.

(** ** Exceptions and the two small monads used by the embedding *)

Inductive Exn : Type :=
| Error (message : string)      (* [throw new Error(message)] *)
| TypeError (message : string)  (* property access on [undefined], [BigInt(undefined)] *)
| RangeError (message : string) (* [BigInt] of a non-integral number *)
| Fatal (message : string).     (* world-state failure: the pipeline halts *)

Inductive Result (A : Type) : Type :=
| Ok (a : A)
| Throw (e : Exn).
Arguments Ok {A} a.
Arguments Throw {A} e.

Definition rbind {A B} (m : Result A) (k : A -> Result B) : Result B :=
  match m with
  | Ok a => k a
  | Throw e => Throw e
  end.

(** State and exceptions: a thrown exception keeps the state reached so
    far, as a rejected promise does. *)
Definition M (S A : Type) : Type := S -> Result A * S.

Definition ret {S A} (a : A) : M S A := fun s => (Ok a, s).
Definition throw {S A} (e : Exn) : M S A := fun s => (Throw e, s).
Definition bind {S A B} (m : M S A) (k : A -> M S B) : M S B :=
  fun s => match m s with
           | (Ok a, s') => k a s'
           | (Throw e, s') => (Throw e, s')
           end.
Definition gets {S A} (f : S -> A) : M S A := fun s => (Ok (f s), s).
Definition modify {S} (f : S -> S) : M S unit := fun s => (Ok tt, f s).

Declare Scope js_scope.
Delimit Scope js_scope with js.
Notation "x <- m ;; k" := (bind m (fun x => k))
  (at level 100, m at next level, right associativity) : js_scope.
Notation "m ;;; k" := (bind m (fun _ => k))
  (at level 100, right associativity) : js_scope.
Notation "x <-? m ;; k" := (rbind m (fun x => k))
  (at level 100, m at next level, right associativity) : js_scope.

(** [for (const x of xs) body(x)]. *)
Fixpoint forEach {S A} (xs : list A) (body : A -> M S unit) : M S unit :=
  match xs with
  | [] => ret tt
  | x :: rest => bind (body x) (fun _ => forEach rest body)
  end.

(** ** The blockchain adapter: class [Contracts] *)

Module Contracts.

(** [solidityFormatSignatures]: each signature becomes
    [sig.slice(0, 64) ++ Buffer.alloc(31) ++ sig.slice(-1)]. *)
Definition padSignature (currentSignature : Buffer) : Buffer :=
  let v := slice currentSignature (-1) None in
  Buf.concat [slice currentSignature 0 (Some 64); alloc 31; v].

Definition solidityFormatSignatures (signatures : list Buffer) : Buffer :=
  let paddedSignatures := map padSignature signatures in
  Buf.concat paddedSignatures.

(** The part of an ethers [TransactionResponse] that the adapter reads. *)
Record TransactionResponse := {
  hash : Buffer;
  confirmations : Z;
  timestamp : Z;
  data : Buffer
}.

(** Entries of the contract's event log, in chain order. *)
Inductive EventName := RollupProcessed | OtherEvent.

Record Event := {
  eventName : EventName;
  eventRollupId : Z;          (* the indexed [rollupId] topic *)
  blockNumber : Z;
  getTransaction : TransactionResponse
}.

(** [filters.RollupProcessed(rollupId?)]: the event name and, when given,
    the indexed topic. *)
Definition matchesFilter (topic : option Z) (e : Event) : bool :=
  match eventName e with
  | RollupProcessed =>
      match topic with
      | Some rid => eventRollupId e =? rid
      | None => true
      end
  | OtherEvent => false
  end.

(** [contract.queryFilter(filter, fromBlock?)] over the log: the matching
    events, from [fromBlock] on when it is given, in chain order. *)
Definition queryFilter (log : list Event) (topic : option Z) (fromBlock : option Z)
  : list Event :=
  List.filter
    (fun e => matchesFilter topic e &&
              match fromBlock with
              | Some b => b <=? blockNumber e
              | None => true
              end) log.

Record Block := {
  created : Z;
  txHash : Buffer;
  rollupProofData : Buffer;
  viewingKeysData : Buffer;
  rollupId : Z;
  rollupSize : Z
}.

(** Decoders owned by other packages: the ABI parser of ethers applied to
    the [processRollup] call data, and the header readers of
    [RollupProofData]. *)
Class Decoders := {
  parseProofData : TransactionResponse -> Buffer;
  parseViewingKeys : TransactionResponse -> Buffer;
  getRollupIdFromBuffer : Buffer -> Z;
  getRollupSizeFromBuffer : Buffer -> Z
}.

Section WithDecoders.
Context `{Decoders}.

Definition decodeBlock (tx : TransactionResponse) : Block :=
  let rollupProofData := parseProofData tx in
  let viewingKeysData := parseViewingKeys tx in
  {| created := timestamp tx * 1000;
     txHash := hash tx;
     rollupProofData := rollupProofData;
     viewingKeysData := viewingKeysData;
     rollupId := getRollupIdFromBuffer rollupProofData;
     rollupSize := getRollupSizeFromBuffer rollupProofData |}.

Definition getRollupBlocksFrom (log : list Event) (rollupId minConfirmations : Z)
  : list Block :=
  match queryFilter log (Some rollupId) None with
  | [] => []
  | rollupEvent :: _ =>
      let rollupEvents := queryFilter log None (Some (blockNumber rollupEvent)) in
      let txs := map getTransaction rollupEvents in
      map decodeBlock
          (List.filter (fun tx => minConfirmations <=? confirmations tx) txs)
  end.
End WithDecoders.

End Contracts.

(** ** JavaScript numbers

    A [number] is modelled by an exact rational extended with the two
    infinities and NaN.  Sums, differences, products and quotients are the
    exact ones: the rounding of IEEE doubles is not modelled (it is absent
    whenever the exact result is a double, as for integers below 2^53 and
    for quotients by a power of two), and the sign of zero is ignored. *)

Module JsNumber.

Inductive Number : Type :=
| Finite (q : Qc)
| PosInfinity
| NegInfinity
| NaN.

(** [Number(b)] for a bigint, and integer literals. *)
Definition ofZ (z : Z) : Number := Finite (Q2Qc (inject_Z z)).

Definition isZero (q : Qc) : bool := Qnum (this q) =? 0.
Definition isNeg (q : Qc) : bool := Qnum (this q) <? 0.

Definition neg (a : Number) : Number :=
  match a with
  | Finite q => Finite (- q)%Qc
  | PosInfinity => NegInfinity
  | NegInfinity => PosInfinity
  | NaN => NaN
  end.

(** [a - b]. *)
Definition sub (a b : Number) : Number :=
  match a, b with
  | NaN, _ | _, NaN => NaN
  | Finite x, Finite y => Finite (x - y)%Qc
  | PosInfinity, PosInfinity | NegInfinity, NegInfinity => NaN
  | PosInfinity, _ => PosInfinity
  | NegInfinity, _ => NegInfinity
  | Finite _, PosInfinity => NegInfinity
  | Finite _, NegInfinity => PosInfinity
  end.

(** [a * b]. *)
Definition mul (a b : Number) : Number :=
  match a, b with
  | NaN, _ | _, NaN => NaN
  | Finite x, Finite y => Finite (x * y)%Qc
  | Finite x, inf | inf, Finite x =>
      if isZero x then NaN else if isNeg x then neg inf else inf
  | PosInfinity, PosInfinity | NegInfinity, NegInfinity => PosInfinity
  | _, _ => NegInfinity
  end.

(** [a / b]: a finite quotient by zero is an infinity, or NaN for 0/0. *)
Definition div (a b : Number) : Number :=
  match a, b with
  | NaN, _ | _, NaN => NaN
  | Finite x, Finite y =>
      if isZero y then
        (if isZero x then NaN else if isNeg x then NegInfinity else PosInfinity)
      else Finite (x / y)%Qc
  | Finite _, _ => Finite 0%Qc
  | inf, Finite y => if isNeg y then neg inf else inf
  | _, _ => NaN
  end.

(** Truncation of a rational towards zero. *)
Definition truncQ (q : Qc) : Z := Z.quot (Qnum (this q)) (Zpos (Qden (this q))).

(** [a % b]: the remainder has the sign of the dividend. *)
Definition rem (a b : Number) : Number :=
  match a, b with
  | Finite x, Finite y =>
      if isZero y then NaN
      else Finite (x - y * Q2Qc (inject_Z (truncQ (x / y))))%Qc
  | Finite x, PosInfinity | Finite x, NegInfinity => Finite x
  | _, _ => NaN
  end.

Definition leb (x y : Qc) : bool :=
  match (x ?= y)%Qc with
  | Gt => false
  | _ => true
  end.

(** [Math.max(a, b)] and [Math.min(a, b)]: NaN if either argument is. *)
Definition max (a b : Number) : Number :=
  match a, b with
  | NaN, _ | _, NaN => NaN
  | PosInfinity, _ | _, PosInfinity => PosInfinity
  | NegInfinity, x | x, NegInfinity => x
  | Finite x, Finite y => if leb x y then Finite y else Finite x
  end.

Definition min (a b : Number) : Number :=
  match a, b with
  | NaN, _ | _, NaN => NaN
  | NegInfinity, _ | _, NegInfinity => NegInfinity
  | PosInfinity, x | x, PosInfinity => x
  | Finite x, Finite y => if leb x y then Finite x else Finite y
  end.

Definition isInteger (q : Qc) : bool := Pos.eqb (Qden (this q)) 1.

(** [BigInt(a)]: a RangeError unless [a] is an integer. *)
Definition toBigInt (a : Number) : Result Z :=
  match a with
  | Finite q =>
      if isInteger q then Ok (Qnum (this q))
      else Throw (RangeError "The number cannot be converted to a BigInt because it is not an integer")
  | _ => Throw (RangeError "The number cannot be converted to a BigInt because it is not an integer")
  end.

(** The array index that [a] denotes as a property key, if any: an array
    read at any other key is [undefined]. *)
Definition arrayIndex (a : Number) : option nat :=
  match a with
  | Finite q =>
      if isInteger q && (0 <=? Qnum (this q)) then Some (Z.to_nat (Qnum (this q)))
      else None
  | _ => None
  end.

(** [Math.log2(n)] as an array index: the logarithm of an integer is an
    integer exactly when [n] is a power of two; every other result (a
    fraction, -Infinity for 0, NaN for a negative [n]) is no index. *)
Definition log2Index (n : Z) : option nat :=
  if n =? 2 ^ Z.log2 n then Some (Z.to_nat (Z.log2 n)) else None.

(** [Math.round(a)]: the nearest integer, a tie going up. *)
Definition round (a : Number) : Number :=
  match a with
  | Finite q => ofZ (Qfloor (this q + (1 # 2)))
  | _ => a
  end.


End JsNumber.

(** ** The world state store: class [WorldStateDb]

    The class lives in [world_state_db.ts], which is not part of the sources
    at hand; the server only calls it.  Its operations are modelled from the
    specification of the WorldStateStore component. *)

Module WorldState.

(** The hash functions of the Merkle trees (owned by the store's backend). *)
Class Hasher := {
  hashLeaf : Buffer -> Buffer;
  compress : Buffer -> Buffer -> Buffer
}.

(** One tree: its fixed depth, the leaves written so far, and its size. *)
Record Tree := {
  depth : nat;
  leaves : gmap Z Buffer;
  size : Z
}.

(** Trees 0 (data), 1 (nullifier) and 2 (root). *)
Record Trees := {
  dataTree : Tree;
  nullTree : Tree;
  rootTree : Tree
}.

(** The committed trees and the overlay of staged puts, latest first. *)
Record WorldStateDb := {
  committed : Trees;
  overlay : list (Z * Z * Buffer)
}.

Definition getTree (treeId : Z) (ts : Trees) : option Tree :=
  if treeId =? 0 then Some (dataTree ts)
  else if treeId =? 1 then Some (nullTree ts)
  else if treeId =? 2 then Some (rootTree ts)
  else None.

Definition setTree (treeId : Z) (t : Tree) (ts : Trees) : Trees :=
  if treeId =? 0 then {| dataTree := t; nullTree := nullTree ts; rootTree := rootTree ts |}
  else if treeId =? 1 then {| dataTree := dataTree ts; nullTree := t; rootTree := rootTree ts |}
  else if treeId =? 2 then {| dataTree := dataTree ts; nullTree := nullTree ts; rootTree := t |}
  else ts.

(** Modelled from the spec: the leaf of [world_state_db.ts] at a key; a
    missing leaf reads as all zeros (64 bytes). *)
Definition leafAt (t : Tree) (key : Z) : Buffer :=
  default (alloc 64) (leaves t !! key).

(** Modelled from the spec: the effect of a put of [world_state_db.ts] on
    one tree; the leaf is replaced and a put past the end grows the size up
    to the written index (this is how a zero leaf pads the tree size). *)
Definition writeLeaf (key : Z) (value : Buffer) (t : Tree) : Tree :=
  {| depth := depth t;
     leaves := <[key := value]> (leaves t);
     size := Z.max (size t) (key + 1) |}.

Definition applyPut (p : Z * Z * Buffer) (ts : Trees) : Trees :=
  let '(treeId, key, value) := p in
  match getTree treeId ts with
  | Some t => setTree treeId (writeLeaf key value t) ts
  | None => ts
  end.

(** Modelled from the spec: the staged state of [world_state_db.ts], the
    committed trees with the overlay applied, oldest put first. *)
Definition staged (db : WorldStateDb) : Trees :=
  foldr applyPut (committed db) (overlay db).

(** Keys of a tree of depth [d] are the leaf indices below [2^d]. *)
Definition inRange (t : Tree) (key : Z) : bool :=
  (0 <=? key) && (key <? 2 ^ Z.of_nat (depth t)).

Definition badTreeId {A} : Result A := Throw (Fatal "bad tree id").
Definition keyOutOfRange {A} : Result A := Throw (Fatal "key out of range").

Section WithHasher.
Context `{Hasher}.

(** Modelled from the spec: the Merkle nodes of a tree of
    [world_state_db.ts]: level 0 hashes the leaves, and each higher
    node compresses its two children. *)
Fixpoint node (t : Tree) (level : nat) (index : Z) : Buffer :=
  match level with
  | O => hashLeaf (leafAt t index)
  | S l => compress (node t l (2 * index)) (node t l (2 * index + 1))
  end.

Definition treeRoot (t : Tree) : Buffer := node t (depth t) 0.

(** Modelled from the spec: one entry of a hash path of
    [world_state_db.ts], the pair of sibling nodes [left, right] of a
    level that holds the node on the path of [index]. *)
Definition pathEntry (t : Tree) (index : Z) (level : nat) : list Buffer :=
  let parent := index / 2 ^ Z.of_nat (S level) in
  [node t level (2 * parent); node t level (2 * parent + 1)].

(** Modelled from the spec: a hash path of [world_state_db.ts], ordered
    from the leaf level up, with depth+1 entries. *)
Definition hashPathOf (t : Tree) (index : Z) : list (list Buffer) :=
  map (pathEntry t index) (seq 0 (S (depth t))).

(** Modelled from the spec: [getSize(treeId)] of [world_state_db.ts]. *)
Definition getSize (treeId : Z) : M WorldStateDb Z :=
  fun db =>
    match getTree treeId (staged db) with
    | Some t => (Ok (size t), db)
    | None => (badTreeId, db)
    end.

(** Modelled from the spec: [getRoot(treeId)] of [world_state_db.ts],
    the root of the staged tree. *)
Definition getRoot (treeId : Z) : M WorldStateDb Buffer :=
  fun db =>
    match getTree treeId (staged db) with
    | Some t => (Ok (treeRoot t), db)
    | None => (badTreeId, db)
    end.

(** Modelled from the spec: [get(treeId, key)] of [world_state_db.ts];
    reads return the last committed snapshot. *)
Definition get (treeId : Z) (key : Z) : M WorldStateDb Buffer :=
  fun db =>
    match getTree treeId (committed db) with
    | Some t => if inRange t key then (Ok (leafAt t key), db) else (keyOutOfRange, db)
    | None => (badTreeId, db)
    end.

(** Modelled from the spec: [put(treeId, key, value)] of
    [world_state_db.ts] stages a mutation in the overlay; a bad tree id
    or an out-of-range key is fatal. *)
Definition put (treeId : Z) (key : Z) (value : Buffer) : M WorldStateDb unit :=
  fun db =>
    match getTree treeId (staged db) with
    | Some t =>
        if inRange t key
        then (Ok tt, {| committed := committed db;
                        overlay := (treeId, key, value) :: overlay db |})
        else (keyOutOfRange, db)
    | None => (badTreeId, db)
    end.

(** Modelled from the spec: [getHashPath(treeId, key)] of
    [world_state_db.ts] always reflects the staged state. *)
Definition getHashPath (treeId : Z) (key : Z) : M WorldStateDb (list (list Buffer)) :=
  fun db =>
    match getTree treeId (staged db) with
    | Some t => if inRange t key then (Ok (hashPathOf t key), db) else (keyOutOfRange, db)
    | None => (badTreeId, db)
    end.

(** Modelled from the spec: [commit()] of [world_state_db.ts] promotes
    the overlay. *)
Definition commit : M WorldStateDb unit :=
  fun db => (Ok tt, {| committed := staged db; overlay := [] |}).

(** Modelled from the spec: [rollback()] of [world_state_db.ts] discards
    the overlay. *)
Definition rollback : M WorldStateDb unit :=
  fun db => (Ok tt, {| committed := committed db; overlay := [] |}).

End WithHasher.

End WorldState.

(** ** The aggregation server: class [Server] of [server.ts] *)

Module Server.
Import WorldState JsNumber.

(** [buf.toString('hex')]. *)
Definition hexDigit (n : Z) : string :=
  String.substring (Z.to_nat n) 1 "0123456789abcdef".

Definition toHex (b : Buffer) : string :=
  fold_right (fun x acc => hexDigit (byteToZ x / 16) ++ hexDigit (byteToZ x mod 16) ++ acc)%string
             ""%string b.

(** A parsed client proof (class [JoinSplitProof] of barretenberg). *)
Record JoinSplitProof := {
  proofData : Buffer;
  viewingKeys : list Buffer;
  nullifier1 : Z;
  nullifier2 : Z;
  newNote1 : Buffer;
  newNote2 : Buffer;
  noteTreeRoot : Buffer
}.

(** The field readers of the [JoinSplitProof] constructor, and the
    join-split verifier; both belong to barretenberg. *)
Class JoinSplit := {
  readNullifier1 : Buffer -> Z;
  readNullifier2 : Buffer -> Z;
  readNewNote1 : Buffer -> Buffer;
  readNewNote2 : Buffer -> Buffer;
  readNoteTreeRoot : Buffer -> Buffer;
  verifyProof : Buffer -> bool
}.

(** A confirmed block as delivered by the blockchain adapter. *)
Record Block := {
  blockNum : Z;
  dataStartIndex : Z;
  numDataEntries : Z;
  dataEntries : list Buffer;
  nullifiers : list Buffer
}.

(** The witness built by [createRollup] (class [Rollup]); [rollupRoot] is
    [None] when the array read that produces it yields [undefined]. *)
Record Rollup := {
  rollupId : Z;
  rollupDataStartIndex : Z;
  proofs : list Buffer;
  rollupRoot : option Buffer;
  oldDataRoot : Buffer;
  newDataRoot : Buffer;
  oldDataPath : list (list Buffer);
  newDataPath : list (list Buffer);
  oldNullRoot : Buffer;
  newNullRoots : list Buffer;
  oldNullPaths : list (list (list Buffer));
  newNullPaths : list (list (list Buffer));
  oldRootRoot : Buffer;
  oldRootPaths : list (list (list Buffer))
}.

(** The answer of [status()]. *)
Record Status := {
  dataSize : Number;
  dataRoot : string;
  nullRoot : string;
  rootRoot : string
}.

(** The closures put on the state queue. *)
Inductive StateJob :=
| RollupJob (rollupTxs : list JoinSplitProof)   (* [() => this.rollup(rollupTxs)] *)
| BlockJob (b : Block).                          (* [() => this.handleNewBlock(b)] *)

(** The fields of a [Server]; [nextRollupId] is what
    [rollupDb.getNextRollupId()] answers and [proofRequests] collects the
    calls of [createProof]. *)
Record ServerState := {
  worldStateDb : WorldStateDb;
  stateQueue : list StateJob;
  txQueue : list (option JoinSplitProof);
  rollupSize : Z;
  nextRollupId : Z;
  proofRequests : list (Rollup * list Buffer)
}.

Definition withDb (db : WorldStateDb) (s : ServerState) : ServerState :=
  {| worldStateDb := db; stateQueue := stateQueue s; txQueue := txQueue s;
     rollupSize := rollupSize s; nextRollupId := nextRollupId s;
     proofRequests := proofRequests s |}.

Definition withStateQueue (q : list StateJob) (s : ServerState) : ServerState :=
  {| worldStateDb := worldStateDb s; stateQueue := q; txQueue := txQueue s;
     rollupSize := rollupSize s; nextRollupId := nextRollupId s;
     proofRequests := proofRequests s |}.

Definition withTxQueue (q : list (option JoinSplitProof)) (s : ServerState) : ServerState :=
  {| worldStateDb := worldStateDb s; stateQueue := stateQueue s; txQueue := q;
     rollupSize := rollupSize s; nextRollupId := nextRollupId s;
     proofRequests := proofRequests s |}.

Definition withProofRequests (l : list (Rollup * list Buffer)) (s : ServerState) : ServerState :=
  {| worldStateDb := worldStateDb s; stateQueue := stateQueue s; txQueue := txQueue s;
     rollupSize := rollupSize s; nextRollupId := nextRollupId s;
     proofRequests := l |}.

(** A call on [this.worldStateDb]. *)
Definition onDb {A} (m : M WorldStateDb A) : M ServerState A :=
  fun s => let '(r, db) := m (worldStateDb s) in (r, withDb db s).

(** [for (let i = 0; i < xs.length; ++i) body(start + i, xs[i])]. *)
Fixpoint forIndexed {S A} (i : Z) (xs : list A) (body : Z -> A -> M S unit) : M S unit :=
  match xs with
  | [] => ret tt
  | x :: rest => bind (body i x) (fun _ => forIndexed (i + 1) rest body)
  end.

(** [Buffer.alloc(64, 0)] with [writeUInt8(1, 63)]. *)
Definition nonEmptyValue : Buffer := writeUInt8 (alloc 64) x01 63.

Section WithBackends.
Context `{Hasher} `{JoinSplit}.

Local Open Scope js_scope.

Definition newJoinSplitProof (proofData : Buffer) (viewingKeys : list Buffer)
  : JoinSplitProof :=
  {| proofData := proofData;
     viewingKeys := viewingKeys;
     nullifier1 := readNullifier1 proofData;
     nullifier2 := readNullifier2 proofData;
     newNote1 := readNewNote1 proofData;
     newNote2 := readNewNote2 proofData;
     noteTreeRoot := readNoteTreeRoot proofData |}.

(** [handleNewBlock(block)]. *)
Definition handleNewBlock (block : Block) : M ServerState unit :=
  forIndexed 0 (dataEntries block)
    (fun i entry => onDb (put 0 (dataStartIndex block + i) entry)) ;;;
  (if Z.of_nat (length (dataEntries block)) <? numDataEntries block
   then onDb (put 0 (dataStartIndex block + numDataEntries block - 1) (alloc 64))
   else ret tt) ;;;
  dataRoot <- onDb (getRoot 0) ;;
  onDb (put 2 (toBigIntBE (slice dataRoot 16 None)) nonEmptyValue) ;;;
  forEach (nullifiers block)
    (fun nullifier => onDb (put 1 (toBigIntBE nullifier) nonEmptyValue)) ;;;
  onDb commit.

(** [receiveTx({ proofData, encViewingKey1, encViewingKey2 })]. *)
Definition receiveTx (proofData encViewingKey1 encViewingKey2 : Buffer)
  : M ServerState unit :=
  let proof := newJoinSplitProof proofData [encViewingKey1; encViewingKey2] in
  let emptyValue := alloc 64 in
  nullifierVal1 <- onDb (get 1 (nullifier1 proof)) ;;
  if negb (equals nullifierVal1 emptyValue)
  then throw (Error "Nullifier 1 already exists.")
  else
    nullifierVal2 <- onDb (get 1 (nullifier2 proof)) ;;
    if negb (equals nullifierVal2 emptyValue)
    then throw (Error "Nullifier 2 already exists.")
    else
      rootVal <- onDb (get 2 (toBigIntBE (slice (noteTreeRoot proof) 16 None))) ;;
      if equals rootVal emptyValue
      then throw (Error ("Merkle root does not exist - " ++ toHex (noteTreeRoot proof)))
      else
        if negb (verifyProof proofData)
        then throw (Error "Proof verification failed.")
        else modify (fun s => withTxQueue (txQueue s ++ [Some proof]) s).

(** [flushTxs()]. *)
Definition flushTxs : M ServerState unit :=
  modify (fun s => withTxQueue (txQueue s ++ [None]) s).

(** [status()]. *)
Definition status : M ServerState Status :=
  size <- onDb (getSize 0) ;;
  data <- onDb (getRoot 0) ;;
  null <- onDb (getRoot 1) ;;
  root <- onDb (getRoot 2) ;;
  ret {| dataSize := ofZ size;
         dataRoot := toHex data;
         nullRoot := toHex null;
         rootRoot := toHex root |}.

(** The arrays that the loop of [createRollup] fills, with
    [nextDataIndex]. *)
Record RollupAcc := {
  nextDataIndex : Z;
  accNewNullRoots : list Buffer;
  accOldNullPaths : list (list (list Buffer));
  accNewNullPaths : list (list (list Buffer));
  accOldRootPaths : list (list (list Buffer))
}.

(** The body of [for (const proof of txs)] in [createRollup]. *)
Definition rollupTx (acc : RollupAcc) (proof : JoinSplitProof) : M ServerState RollupAcc :=
  onDb (put 0 (nextDataIndex acc) (newNote1 proof)) ;;;
  onDb (put 0 (nextDataIndex acc + 1) (newNote2 proof)) ;;;
  oldNullPath1 <- onDb (getHashPath 1 (nullifier1 proof)) ;;
  onDb (put 1 (nullifier1 proof) (toBufferBE 1 64)) ;;;
  newNullRoot1 <- onDb (getRoot 1) ;;
  newNullPath1 <- onDb (getHashPath 1 (nullifier1 proof)) ;;
  oldNullPath2 <- onDb (getHashPath 1 (nullifier2 proof)) ;;
  onDb (put 1 (nullifier2 proof) (toBufferBE 1 64)) ;;;
  newNullRoot2 <- onDb (getRoot 1) ;;
  newNullPath2 <- onDb (getHashPath 1 (nullifier2 proof)) ;;
  let dataRootIndex := slice (noteTreeRoot proof) 16 None in
  oldRootPath <- onDb (getHashPath 2 (toBigIntBE dataRootIndex)) ;;
  ret {| nextDataIndex := nextDataIndex acc + 2;
         accNewNullRoots := accNewNullRoots acc ++ [newNullRoot1; newNullRoot2];
         accOldNullPaths := accOldNullPaths acc ++ [oldNullPath1; oldNullPath2];
         accNewNullPaths := accNewNullPaths acc ++ [newNullPath1; newNullPath2];
         accOldRootPaths := accOldRootPaths acc ++ [oldRootPath] |}.

Fixpoint rollupTxs (acc : RollupAcc) (txs : list JoinSplitProof) : M ServerState RollupAcc :=
  match txs with
  | [] => ret acc
  | proof :: rest => acc' <- rollupTx acc proof ;; rollupTxs acc' rest
  end.

(** [Math.log2(this.rollupSize) + 1] as an array index. *)
Definition rollupRootHeight (rollupSize : Z) : option nat :=
  S <$> log2Index rollupSize.

(** [(Number(dataStartIndex) / (this.rollupSize * 2)) % 2]. *)
Definition rootIndex (dataStartIndex rollupSize : Z) : Number :=
  rem (div (ofZ dataStartIndex) (ofZ (rollupSize * 2))) (ofZ 2).

(** [createRollup(txs)]. *)
Definition createRollup (txs : list JoinSplitProof) : M ServerState Rollup :=
  dataStartIndex <- onDb (getSize 0) ;;
  oldDataRoot <- onDb (getRoot 0) ;;
  oldDataPath <- onDb (getHashPath 0 dataStartIndex) ;;
  oldNullRoot <- onDb (getRoot 1) ;;
  oldRootRoot <- onDb (getRoot 2) ;;
  acc <- rollupTxs {| nextDataIndex := dataStartIndex;
                      accNewNullRoots := []; accOldNullPaths := [];
                      accNewNullPaths := []; accOldRootPaths := [] |} txs ;;
  newDataPath <- onDb (getHashPath 0 dataStartIndex) ;;
  size <- gets rollupSize ;;
  match rollupRootHeight size ≫= (newDataPath !!.) with
  | None => throw (TypeError "Cannot read properties of undefined")
  | Some level =>
      let rollupRoot := arrayIndex (rootIndex dataStartIndex size) ≫= (level !!.) in
      newDataRoot <- onDb (getRoot 0) ;;
      onDb rollback ;;;
      nextId <- gets nextRollupId ;;
      ret {| rollupId := nextId;
             rollupDataStartIndex := dataStartIndex;
             proofs := map proofData txs;
             rollupRoot := rollupRoot;
             oldDataRoot := oldDataRoot;
             newDataRoot := newDataRoot;
             oldDataPath := oldDataPath;
             newDataPath := newDataPath;
             oldNullRoot := oldNullRoot;
             newNullRoots := accNewNullRoots acc;
             oldNullPaths := accOldNullPaths acc;
             newNullPaths := accNewNullPaths acc;
             oldRootRoot := oldRootRoot;
             oldRootPaths := accOldRootPaths acc |}
  end.

(** [rollup(txs)]: the witness is handed to [createProof] together with
    the flattened viewing keys. *)
Definition rollup (txs : list JoinSplitProof) : M ServerState unit :=
  r <- createRollup txs ;;
  modify (fun s => withProofRequests
                     (proofRequests s ++ [(r, List.concat (map viewingKeys txs))]) s).

(** One item of the state queue, as [processStateQueue] runs it. *)
Definition runJob (job : StateJob) : M ServerState unit :=
  match job with
  | RollupJob rollupTxs => rollup rollupTxs
  | BlockJob b => handleNewBlock b
  end.

(** The locals of [processTxQueue]; times are milliseconds since the
    epoch and [flushTimeout] is the delay the pending timer was armed
    with. *)
Record TxLoop := {
  txs : list JoinSplitProof;
  lastTxReceivedTime : Z;
  flushTimeout : option Z
}.

(** The locals at loop entry: [moment.unix(0)] and an empty batch. *)
Definition initialLoop : TxLoop :=
  {| txs := []; lastTxReceivedTime := 0; flushTimeout := None |}.

(** [txs.length && (tx === null || txs.length === this.rollupSize ||
    lastTxReceivedTime.isBefore(moment().subtract(maxRollupWaitTime)))]. *)
Definition shouldRollup (rollupSize maxRollupWaitTime : Z) (tx : option JoinSplitProof)
           (txs : list JoinSplitProof) (lastTxReceivedTime now : Z) : bool :=
  negb (Z.of_nat (length txs) =? 0) &&
  (match tx with None => true | Some _ => false end
   || (Z.of_nat (length txs) =? rollupSize)
   || (lastTxReceivedTime <? now - maxRollupWaitTime)).

(** One turn of the [while (true)] loop of [processTxQueue] for the item
    [tx] that [txQueue.get()] delivered; [now] is the clock read by the
    test and [now'] the clock read when the receive time is recorded.
    The throttle delays the next turn only. *)
Definition loopBody (maxRollupWaitTime : Z) (tx : option JoinSplitProof) (now now' : Z)
           (st : TxLoop) (s : ServerState) : TxLoop * ServerState :=
  let txs1 := match tx with Some p => txs st ++ [p] | None => txs st end in
  let timer := Some maxRollupWaitTime in
  let close := shouldRollup (rollupSize s) maxRollupWaitTime tx txs1
                            (lastTxReceivedTime st) now in
  let last := match tx with Some _ => now' | None => lastTxReceivedTime st end in
  if close
  then ({| txs := []; lastTxReceivedTime := last; flushTimeout := timer |},
        withStateQueue (stateQueue s ++ [RollupJob txs1]) s)
  else ({| txs := txs1; lastTxReceivedTime := last; flushTimeout := timer |}, s).

(** The loop over the items that the queue delivers, one pair of clock
    readings per turn; it stops when the queue has nothing to deliver. *)
Fixpoint txLoop (maxRollupWaitTime : Z) (clock : list (Z * Z)) (st : TxLoop)
         (s : ServerState) : TxLoop * ServerState :=
  match clock, txQueue s with
  | (now, now') :: clock', tx :: rest =>
      let '(st', s') := loopBody maxRollupWaitTime tx now now' st (withTxQueue rest s) in
      txLoop maxRollupWaitTime clock' st' s'
  | _, _ => (st, s)
  end.

(** [processTxQueue(maxRollupWaitTime, minRollupInterval)]. *)
Definition processTxQueue (maxRollupWaitTime minRollupInterval : Z)
           (clock : list (Z * Z)) (s : ServerState) : Result (TxLoop * ServerState) :=
  if maxRollupWaitTime <? minRollupInterval
  then Throw (Error "minRollupInterval must be <= maxRollupWaitTime")
  else Ok (txLoop maxRollupWaitTime clock initialLoop s).

(** [processStateQueue()]: the jobs run one at a time, in queue order;
    [turns] bounds the number of jobs taken.  The loop ends when the
    queue has nothing to deliver, and a job that throws ends it too. *)
Fixpoint processStateQueue (turns : nat) : M ServerState unit :=
  match turns with
  | O => ret tt
  | S n =>
      fun s =>
        match stateQueue s with
        | [] => (Ok tt, s)
        | f :: rest => bind (runJob f) (fun _ => processStateQueue n) (withStateQueue rest s)
        end
  end.

End WithBackends.

End Server.

(** ** The fee calculator: class [FeeCalculator] *)

Module TxType.
Inductive t :=
| DEPOSIT | TRANSFER | WITHDRAW_TO_WALLET | WITHDRAW_TO_CONTRACT
| ACCOUNT | DEFI_DEPOSIT | DEFI_CLAIM.

(** The value of the enum member, used as an index of [gasConstants]. *)
Definition index (x : t) : nat :=
  match x with
  | DEPOSIT => 0 | TRANSFER => 1 | WITHDRAW_TO_WALLET => 2 | WITHDRAW_TO_CONTRACT => 3
  | ACCOUNT => 4 | DEFI_DEPOSIT => 5 | DEFI_CLAIM => 6
  end%nat.

Definition isAccount (x : t) : bool :=
  match x with ACCOUNT => true | _ => false end.
End TxType.

Module ProofId.
Inductive t := JOIN_SPLIT | ACCOUNT | DEFI_DEPOSIT | DEFI_CLAIM.
End ProofId.

Module FeeCalculator.
Import JsNumber.

(** Asset ids index the [assets] array; [AssetId.ETH] is 0. *)
Definition AssetId := nat.
Definition ETH : AssetId := 0%nat.

Record BlockchainAsset := {
  decimals : nat;
  gasConstants : list Z
}.

Record BridgeId := { inputAssetId : AssetId }.

(** What the proof-data views ([DefiDepositClientProofData],
    [DefiClaimClientProofData], [JoinSplitClientProofData]) read from the
    proof of a transaction. *)
Record ClientProofData := {
  proofId : ProofId.t;
  assetId : AssetId;
  txFee : Z;
  bridgeId : BridgeId
}.

Record TxDao := {
  txType : TxType.t;
  proofData : ClientProofData
}.

(** The price oracle: asset prices and the gas price are unsigned. *)
Class PriceTracker := {
  getAssetPrice : AssetId -> N;
  getGasPrice : N
}.

(** The constructor arguments read by the fee computations. *)
Record Config := {
  assets : list BlockchainAsset;
  baseTxGas : Z;
  maxFeeGasPrice : Z;
  feeGasPriceMultiplier : Number;
  txsPerRollup : Z;
  feeFreeAssets : list AssetId
}.

Definition undefinedAsset {A} : Result A :=
  Throw (TypeError "Cannot destructure property of undefined").

(** [xs.map(f)] for an [f] that may throw. *)
Fixpoint mapR {A B} (f : A -> Result B) (xs : list A) : Result (list B) :=
  match xs with
  | [] => Ok []
  | x :: rest => rbind (f x) (fun y => rbind (mapR f rest) (fun ys => Ok (y :: ys)))
  end.

(** Two runs of [txs.map] agree when both throw, or both return and the
    sums of their results are equal. *)
Definition sameSum (a b : Result (list Z)) : Prop :=
  match a, b with
  | Ok ys, Ok zs => fold_left Z.add ys 0 = fold_left Z.add zs 0
  | Throw _, Throw _ => True
  | _, _ => False
  end.



(** One entry of [baseFeeQuotes], and the answer of [getFeeQuotes]
    ([AssetFeeQuote] of barretenberg). *)
Record BaseFeeQuote := {
  fee : Z;
  time : Number
}.

Record AssetFeeQuote := {
  feeConstants : list Z;
  baseFeeQuotes : list BaseFeeQuote
}.

(** The transaction types in the order in which [getFeeQuotes] lists them. *)
Definition quotedTxTypes : list TxType.t :=
  [TxType.DEPOSIT; TxType.TRANSFER; TxType.WITHDRAW_TO_WALLET; TxType.WITHDRAW_TO_CONTRACT;
   TxType.ACCOUNT; TxType.DEFI_DEPOSIT; TxType.DEFI_CLAIM].

Section WithOracle.
Context `{PriceTracker} (this : Config).

Local Open Scope js_scope.

(** [feeFreeAssets.includes(assetId)]. *)
Definition isFeeFree (assetId : AssetId) : bool :=
  existsb (Nat.eqb assetId) (feeFreeAssets this).

(** [applyGasPrice(value)]. *)
Definition applyGasPrice (value : Z) : Result Z :=
  let gasPrice := Z.of_N getGasPrice in
  pct <-? toBigInt (mul (feeGasPriceMultiplier this) (ofZ 100)) ;;
  let expectedValue := Z.quot (value * gasPrice * pct) 100 in
  let maxValue := if maxFeeGasPrice this =? 0 then expectedValue
                  else value * maxFeeGasPrice this in
  Ok (if maxValue <? expectedValue then maxValue else expectedValue).

(** [toAssetPrice(assetId, gas)]. *)
Definition toAssetPrice (assetId : AssetId) (gas : Z) : Result Z :=
  let price := Z.of_N (getAssetPrice assetId) in
  match assets this !! assetId with
  | None => undefinedAsset
  | Some asset =>
      if price =? 0 then Ok 0
      else v <-? applyGasPrice (gas * 10 ^ Z.of_nat (decimals asset)) ;;
           Ok (Z.quot v price)
  end.

(** [toEthPrice(assetId, price)]. *)
Definition toEthPrice (assetId : AssetId) (price : Z) : Result Z :=
  if Nat.eqb assetId ETH then Ok price
  else match assets this !! assetId with
       | None => undefinedAsset
       | Some asset =>
           Ok (Z.quot (price * Z.of_N (getAssetPrice assetId))
                      (10 ^ Z.of_nat (decimals asset)))
       end.

(** [getBaseFee(assetId)]. *)
Definition getBaseFee (assetId : AssetId) : Result Z :=
  if isFeeFree assetId then Ok 0
  else toAssetPrice assetId (baseTxGas this).

(** [getFeeConstant(assetId, txType)]. *)
Definition getFeeConstant (assetId : AssetId) (txType : TxType.t) : Result Z :=
  if isFeeFree assetId then Ok 0
  else match assets this !! assetId with
       | None => undefinedAsset
       | Some asset =>
           match gasConstants asset !! TxType.index txType with
           | None => Throw (TypeError "Cannot convert undefined to a BigInt")
           | Some gas => toAssetPrice assetId gas
           end
       end.

(** [getMinTxFee(assetId, txType)]. *)
Definition getMinTxFee (assetId : AssetId) (txType : TxType.t) : Result Z :=
  if TxType.isAccount txType then Ok 0
  else feeConstant <-? getFeeConstant assetId txType ;;
       baseFee <-? getBaseFee assetId ;;
       Ok (feeConstant + baseFee).

(** [getFeeForTxDao(tx)]: the pair [{ assetId, txFee }]. *)
Definition getFeeForTxDao (tx : TxDao) : AssetId * Z :=
  if TxType.isAccount (txType tx) then (ETH, 0)
  else match proofId (proofData tx) with
       | ProofId.DEFI_DEPOSIT => (inputAssetId (bridgeId (proofData tx)), txFee (proofData tx))
       | ProofId.DEFI_CLAIM => (inputAssetId (bridgeId (proofData tx)), txFee (proofData tx))
       | _ => (assetId (proofData tx), txFee (proofData tx))
       end.

(** The callback of [txs.map] in [computeSurplusRatio]. *)
Definition txSurplus (tx : TxDao) : Result Z :=
  let '(assetId, txFee) := getFeeForTxDao tx in
  minFee <-? getMinTxFee assetId (txType tx) ;;
  toEthPrice assetId (txFee - minFee).

(** [computeSurplusRatio(txs)]. *)
Definition computeSurplusRatio (txs : list TxDao) : Result Number :=
  baseFee <-? getBaseFee ETH ;;
  if baseFee =? 0 then Ok (ofZ 1)
  else
    surpluses <-? mapR txSurplus txs ;;
    let feeSurplus := fold_left (fun acc surplus => acc + surplus) surpluses 0 in
    let ratio := sub (ofZ 1)
                     (div (ofZ (Z.quot feeSurplus baseFee)) (ofZ (txsPerRollup this))) in
    Ok (min (ofZ 1) (max (ofZ 0) ratio)).

(** The callback of [surplusRatios.map] in [getFeeQuotes]. *)
Definition baseFeeQuote (publishInterval : Number) (baseFee : Z) (ratio : Number)
  : Result BaseFeeQuote :=
  extra <-? toBigInt (round (mul (ofZ (txsPerRollup this)) (sub (ofZ 1) ratio))) ;;
  Ok {| fee := baseFee * (1 + extra);
        time := max (ofZ (5 * 60)) (mul publishInterval ratio) |}.

(** [getFeeQuotes(assetId)]; [surplusRatios] and [publishInterval] are the
    two constructor arguments that only this method reads. *)
Definition getFeeQuotes (surplusRatios : list Number) (publishInterval : Number)
           (assetId : AssetId) : Result AssetFeeQuote :=
  baseFee <-? getBaseFee assetId ;;
  constants <-? mapR (getFeeConstant assetId) quotedTxTypes ;;
  quotes <-? mapR (baseFeeQuote publishInterval baseFee) surplusRatios ;;
  Ok {| feeConstants := constants; baseFeeQuotes := quotes |}.

End WithOracle.

End FeeCalculator.

(** ** The HTTP application: [appFactory] *)

Module App.
Import JsNumber.

(** The value of a hexadecimal digit, in either case. *)
Definition hexValue (c : ascii) : option Z :=
  let n := Z.of_nat (nat_of_ascii c) in
  if (48 <=? n) && (n <=? 57) then Some (n - 48)
  else if (97 <=? n) && (n <=? 102) then Some (n - 87)
  else if (65 <=? n) && (n <=? 70) then Some (n - 55)
  else None.

(** [Buffer.from(s, 'hex')]: one byte per pair of digits; decoding stops
    at the first pair that is not hexadecimal, and a trailing single
    character is dropped. *)
Fixpoint fromHex (s : string) : Buffer :=
  match s with
  | String hi (String lo rest) =>
      match hexValue hi, hexValue lo with
      | Some h, Some l => byteOfZ (16 * h + l) :: fromHex rest
      | _, _ => []
      end
  | _ => []
  end.

(** [hexStr.replace(/^0x/i, '')]. *)
Definition strip0x (hexStr : string) : string :=
  match hexStr with
  | String "0" (String c rest) =>
      if Ascii.eqb c "x" || Ascii.eqb c "X" then rest else hexStr
  | _ => hexStr
  end.

(** [bufferFromHex(hexStr)]. *)
Definition bufferFromHex (hexStr : string) : Buffer := fromHex (strip0x hexStr).

(** A transaction as posted ([TxJson]) and as handed to the server
    ([Tx]). *)
Record TxJson := {
  jsonProofData : string;
  jsonOffchainTxData : string;
  jsonDepositSignature : option string
}.

Record Tx (ProofData : Type) := {
  proof : ProofData;
  offchainTxData : Buffer;
  depositSignature : option Buffer
}.
Arguments proof {ProofData} _.
Arguments offchainTxData {ProofData} _.
Arguments depositSignature {ProofData} _.

(** Functions of the language and of barretenberg: the constructor of
    [ProofData], which may reject a buffer, the unary plus on a string,
    [numToInt32BE] and [serializeBufferArrayToVector]. *)
Class Externals (ProofData : Type) := {
  newProofData : Buffer -> Result ProofData;
  toNumber : string -> JsNumber.Number;
  numToInt32BE : Z -> Buffer;
  serializeBufferArrayToVector : list Buffer -> Buffer
}.

(** A string is truthy unless it is empty. *)
Definition truthy (s : option string) : bool :=
  match s with
  | Some (String _ _) => true
  | _ => false
  end.

(** [fromTxJson(data)]: the proof is built first, and a deposit signature
    that is absent or empty stays undefined. *)
Definition fromTxJson {ProofData : Type} `{Externals ProofData} (data : TxJson)
  : Result (Tx ProofData) :=
  rbind (newProofData (bufferFromHex (jsonProofData data))) (fun proof =>
  Ok {| proof := proof;
        offchainTxData := bufferFromHex (jsonOffchainTxData data);
        depositSignature :=
          if truthy (jsonDepositSignature data)
          then bufferFromHex <$> jsonDepositSignature data
          else None |}).

(** *** Koa

    The part of the request that the handlers read, the response fields
    they write, and what the application shares with the outside: the
    server, the metrics and the console. *)

(** A value of [ctx.query]: absent, a string, or an array of strings
    when the key is repeated. *)
Inductive QueryValue :=
| QUndefined
| QString (value : string)
| QArray (values : list string).

Record Request := {
  pathname : string;                       (* [ctx.URL.pathname] *)
  versionHeader : option string;           (* [headers['version']] *)
  authTokenHeader : option string;         (* [headers['server-auth-token']] *)
  originHeader : option string;            (* [headers.origin] *)
  clientIp : option string;                (* [requestIp.getClientIp(ctx.request)] *)
  queryTake : QueryValue;                  (* [ctx.query.take] *)
  queryFrom : QueryValue;                  (* [ctx.query.from] *)
  postData : Result (list TxJson)          (* [JSON.parse] of the request stream *)
}.

Inductive Body :=
| NoBody
| ErrorBody (error : string)                              (* [{ error }] *)
| ServiceBody (serviceName : string) (isReady : bool)     (* [{ serviceName, isReady }] *)
| TxIdsBody (txIds : list string)                         (* [{ txIds }] *)
| BufferBody (response : Buffer).

Record Context := {
  status : Z;
  body : Body;
  compress : option bool
}.

Record RequestSender := {
  senderClientIp : string;
  originUrl : string
}.

Record TxRequest (ProofData : Type) := {
  txs : list (Tx ProofData);
  requestSender : RequestSender
}.
Arguments txs {ProofData} _.
Arguments requestSender {ProofData} _.

(** The methods of the server that the modelled routes call.  The
    handlers call [removeData] and [flushTxs] without [await]: they are
    taken to be synchronous, as [flushTxs] is in [server.ts].  The second
    argument of [receiveTxs] is [None] where the call leaves it out. *)
Class ServerApi (S ProofData : Type) := {
  version : S -> string;
  isReady : S -> bool;
  receiveTxs : TxRequest ProofData -> option bool -> M S (list Buffer);
  flushTxs : M S unit;
  removeData : M S unit;
  resetPipline : M S unit;
  restartPipeline : M S unit;
  getBlockBuffers : Number -> Number -> M S (list Buffer);
  getLatestRollupId : M S Z
}.

Record Koa (S : Type) := {
  server : S;
  ctx : Context;
  endpoints : list string;      (* the calls of [metrics.httpEndpoint] *)
  console : list Exn            (* the errors passed to [console.log] *)
}.
Arguments server {S} _.
Arguments ctx {S} _.
Arguments endpoints {S} _.
Arguments console {S} _.

(** A fresh context answers 404 with no body. *)
Definition freshContext : Context :=
  {| status := 404; body := NoBody; compress := None |}.

Definition message (e : Exn) : string :=
  match e with
  | Error m | TypeError m | RangeError m | Fatal m => m
  end.

Section WithServer.
Context {S ProofData : Type} `{ServerApi S ProofData} `{Externals ProofData}.

Local Open Scope js_scope.

Definition withServer (s : S) (k : Koa S) : Koa S :=
  {| server := s; ctx := ctx k; endpoints := endpoints k; console := console k |}.

Definition withCtx (c : Context) (k : Koa S) : Koa S :=
  {| server := server k; ctx := c; endpoints := endpoints k; console := console k |}.

(** A call on [server]. *)
Definition onServer {A} (m : M S A) : M (Koa S) A :=
  fun k => let '(r, s) := m (server k) in (r, withServer s k).

(** [ctx.status = v] and [ctx.body = v]. *)
Definition setStatus (v : Z) : M (Koa S) unit :=
  modify (fun k => withCtx {| status := v; body := body (ctx k);
                              compress := compress (ctx k) |} k).

Definition setBody (v : Body) : M (Koa S) unit :=
  modify (fun k => withCtx {| status := status (ctx k); body := v;
                              compress := compress (ctx k) |} k).


(** The application after [ctx.status = v; ctx.body = b], after
    [metrics.httpEndpoint(path)], and after [console.log(err)]. *)
Definition responded (v : Z) (b : Body) (k : Koa S) : Koa S :=
  withCtx {| status := v; body := b; compress := compress (ctx k) |} k.

Definition recorded (path : string) (k : Koa S) : Koa S :=
  {| server := server k; ctx := ctx k; endpoints := endpoints k ++ [path];
     console := console k |}.

Definition logged (err : Exn) (k : Koa S) : Koa S :=
  {| server := server k; ctx := ctx k; endpoints := endpoints k;
     console := console k ++ [err] |}.

Definition Middleware : Type := Request -> M (Koa S) unit -> M (Koa S) unit.

(** [validateVersion]: a version header that is present must match. *)
Definition validateVersion : Middleware :=
  fun req next =>
    v <- gets (fun k => version (server k)) ;;
    if truthy (versionHeader req) && negb (bool_decide (Some v = versionHeader req))
    then setStatus 409 ;;;
         setBody (ErrorBody
           "Rollup provider / SDK version mismatch. Hard refresh your browser or update SDK.")
    else next.

(** [validateAuth]. *)
Definition validateAuth (serverAuthToken : string) : Middleware :=
  fun req next =>
    if negb (bool_decide (authTokenHeader req = Some serverAuthToken))
    then setStatus 401 ;;; setBody (ErrorBody "Invalid server auth token.")
    else next.

(** [recordMetric]. *)
Definition recordMetric : Middleware :=
  fun req next =>
    modify (recorded (pathname req)) ;;;
    next.

(** [checkReady]. *)
Definition checkReady : Middleware :=
  fun req next =>
    ready <- gets (fun k => isReady (server k)) ;;
    if negb ready
    then setStatus 503 ;;; setBody (ErrorBody "Server not ready. Try again later.")
    else next.

(** [exceptionHandler]: whatever the rest of the chain throws becomes a
    400 with the message of the error. *)
Definition exceptionHandler : Middleware :=
  fun req next k =>
    match next k with
    | (Ok tt, k') => (Ok tt, k')
    | (Throw err, k') =>
        (Ok tt, responded 400 (ErrorBody (message err)) (logged err k'))
    end.

(** The test of [validateVersion]: no version header, an empty one, or
    the version of the server. *)
Definition versionAccepted (req : Request) (k : Koa S) : Prop :=
  truthy (versionHeader req) = false \/ versionHeader req = Some (version (server k)).

(** The middleware that every route runs under: [app.use(exceptionHandler)]
    and [router.use(validateVersion)]. *)
Definition route (req : Request) (chain : M (Koa S) unit) : M (Koa S) unit :=
  exceptionHandler req (validateVersion req chain).

(** [router.get('/', recordMetric, ...)]. *)
Definition rootRoute (req : Request) : M (Koa S) unit :=
  route req (recordMetric req (
    ready <- gets (fun k => isReady (server k)) ;;
    setBody (ServiceBody "falafel" ready) ;;;
    setStatus 200)).

(** The routes [/remove-data], [/reset], [/restart] and [/flush]:
    [recordMetric, validateAuth] and one call of the server. *)
Definition adminRoute (serverAuthToken : string) (call : M S unit) (req : Request)
  : M (Koa S) unit :=
  route req (recordMetric req (validateAuth serverAuthToken req (
    onServer call ;;;
    setStatus 200))).

Definition removeDataRoute (serverAuthToken : string) := adminRoute serverAuthToken removeData.
Definition resetRoute (serverAuthToken : string) := adminRoute serverAuthToken resetPipline.
Definition restartRoute (serverAuthToken : string) := adminRoute serverAuthToken restartPipeline.
Definition flushRoute (serverAuthToken : string) := adminRoute serverAuthToken flushTxs.

(** The body of the handlers of [/txs] and [/txs-second-class], which
    differ in the second argument of [receiveTxs] only. *)
Definition postTxsHandler (secondClass : option bool) (req : Request) : M (Koa S) unit :=
  match rbind (postData req) (FeeCalculator.mapR fromTxJson) with
  | Throw e => throw e
  | Ok txs =>
      let txRequest :=
        {| txs := txs;
           requestSender := {| senderClientIp := default ""%string (clientIp req);
                               originUrl := default ""%string (originHeader req) |} |} in
      txIds <- onServer (receiveTxs txRequest secondClass) ;;
      setBody (TxIdsBody (map Server.toHex txIds)) ;;;
      setStatus 200
  end.

(** [router.post('/txs', recordMetric, checkReady, ...)]. *)
Definition txsRoute (req : Request) : M (Koa S) unit :=
  route req (recordMetric req (checkReady req (postTxsHandler None req))).

(** [router.post('/txs-second-class', recordMetric, checkReady, validateAuth, ...)]. *)
Definition txsSecondClassRoute (serverAuthToken : string) (req : Request) : M (Koa S) unit :=
  route req (recordMetric req (checkReady req (validateAuth serverAuthToken req
    (postTxsHandler (Some true) req)))).

(** The two routes that take transactions, by the class of the route, and
    the second argument each one gives to [receiveTxs]. *)
Definition classArgument (secondClass : bool) : option bool :=
  if secondClass then Some true else None.

Definition txsEndpoint (secondClass : bool) (serverAuthToken : string) (req : Request)
  : M (Koa S) unit :=
  if secondClass then txsSecondClassRoute serverAuthToken req else txsRoute req.





End WithServer.

End App.

(** ** The writes of a block and of a batch, as lists of puts

    These lists state, in program order, which puts [handleNewBlock] and
    the loop of [createRollup] stage; Part II relates the code to them. *)

Module Writes.
Import WorldState Server.

Definition Put : Type := Z * Z * Buffer.

(** The store after staging the puts [ps], given in program order. *)
Definition stage (ps : list Put) (db : WorldStateDb) : WorldStateDb :=
  {| committed := committed db; overlay := rev ps ++ overlay db |}.

(** The put names one of the three trees and a leaf index of it. *)
Definition putInRange (ts : Trees) (p : Put) : bool :=
  match getTree p.1.1 ts with
  | Some t => inRange t p.1.2
  | None => false
  end.

(** [dataEntries[j]] goes to index [i + j] of the data tree. *)
Fixpoint dataPuts (i : Z) (entries : list Buffer) : list Put :=
  match entries with
  | [] => []
  | entry :: rest => (0, i, entry) :: dataPuts (i + 1) rest
  end.

(** The zero leaf that pads a block with fewer entries than it declares. *)
Definition padPuts (b : Block) : list Put :=
  if Z.of_nat (length (dataEntries b)) <? numDataEntries b
  then [(0, dataStartIndex b + numDataEntries b - 1, alloc 64)]
  else [].

Definition nullifierPuts (b : Block) : list Put :=
  map (fun nullifier => (1, toBigIntBE nullifier, nonEmptyValue)) (nullifiers b).

(** The two notes and the two nullifiers of one transaction. *)
Definition txPuts (i : Z) (p : JoinSplitProof) : list Put :=
  [(0, i, newNote1 p); (0, i + 1, newNote2 p);
   (1, nullifier1 p, toBufferBE 1 64); (1, nullifier2 p, toBufferBE 1 64)].

Fixpoint batchPuts (i : Z) (txs : list JoinSplitProof) : list Put :=
  match txs with
  | [] => []
  | p :: rest => txPuts i p ++ batchPuts (i + 2) rest
  end.

(** Every key that [createRollup] touches for the batch is a leaf index:
    the puts above, and the root-tree key of each [noteTreeRoot]. *)
Definition txInRange (ts : Trees) (i : Z) (p : JoinSplitProof) : bool :=
  forallb (putInRange ts) (txPuts i p) &&
  inRange (rootTree ts) (toBigIntBE (slice (noteTreeRoot p) 16 None)).

Fixpoint batchInRange (ts : Trees) (i : Z) (txs : list JoinSplitProof) : bool :=
  match txs with
  | [] => true
  | p :: rest => txInRange ts i p && batchInRange ts (i + 2) rest
  end.

(** The tree after the puts of [ps] that name it, applied in order. *)
Definition writesTo (treeId : Z) (ps : list Put) (t : Tree) : Tree :=
  fold_left (fun t p => if p.1.1 =? treeId then writeLeaf p.1.2 p.2 t else t) ps t.

(** The keys that the puts of [ps] write in a tree. *)
Definition keysOf (treeId : Z) (ps : list Put) : list Z :=
  map (fun p => p.1.2) (List.filter (fun p => p.1.1 =? treeId) ps).

(** The notes and the nullifier keys of a batch, in the order in which
    [createRollup] writes them. *)
Definition batchNotes (txs : list JoinSplitProof) : list Buffer :=
  flat_map (fun p => [newNote1 p; newNote2 p]) txs.

Definition batchNullifiers (txs : list JoinSplitProof) : list Z :=
  flat_map (fun p => [nullifier1 p; nullifier2 p]) txs.

(** The first put of [ps] that the store refuses, and the puts before it. *)
Fixpoint refused (ts : Trees) (ps : list Put) : option Put :=
  match ps with
  | [] => None
  | p :: rest => if putInRange ts p then refused ts rest else Some p
  end.

Fixpoint accepted (ts : Trees) (ps : list Put) : list Put :=
  match ps with
  | [] => []
  | p :: rest => if putInRange ts p then p :: accepted ts rest else []
  end.

(** The failure of the store on a put that it refuses. *)
Definition putError (ts : Trees) (p : Put) : Exn :=
  match getTree p.1.1 ts with
  | Some _ => Fatal "key out of range"
  | None => Fatal "bad tree id"
  end.

(** What a run of puts returns: the failure of the first refused one. *)
Definition putsResult (ts : Trees) (ps : list Put) : Result unit :=
  match refused ts ps with
  | Some p => Throw (putError ts p)
  | None => Ok tt
  end.

Section WithHasher.
Context `{Hasher}.

(** The puts of [handleNewBlock], in program order: the data entries,
    the padding leaf, the mark of the new data root in the root tree,
    and the marks of the nullifiers. *)
Definition blockPuts (b : Block) (db : WorldStateDb) : list Put :=
  let first := dataPuts (dataStartIndex b) (dataEntries b) ++ padPuts b in
  let dataRoot := treeRoot (dataTree (staged (stage first db))) in
  first ++ [(2, toBigIntBE (slice dataRoot 16 None), nonEmptyValue)] ++ nullifierPuts b.
End WithHasher.

End Writes.

(** ** The close rule of the batch controller, in the specification's words

    The specification closes a batch when it is not empty and the flush
    sentinel was received, or it holds [rollupSize] transactions, or more
    than [maxRollupWaitTime] has passed since the oldest transaction that is
    not yet batched was received.  [pendingArrivals] are the receive times
    of the pending transactions, oldest first. *)

Module BatchSpec.
Import Server.

(** The transactions among the items delivered by the queue. *)
Definition delivered (items : list (option JoinSplitProof)) : list JoinSplitProof :=
  omap id items.

(** The receive time that a run of the loop records last: the second clock
    reading of the latest turn that delivered a transaction. *)
Definition lastReceived (start : Z) (turns : list (option JoinSplitProof * (Z * Z))) : Z :=
  fold_left (fun last turn =>
               match turn with
               | (Some _, (_, now')) => now'
               | (None, _) => last
               end) turns start.

Definition shouldClose (rollupSize maxRollupWaitTime : Z) (flushSentinel : bool)
           (pendingArrivals : list Z) (now : Z) : bool :=
  negb (Z.of_nat (length pendingArrivals) =? 0) &&
  (flushSentinel
   || (Z.of_nat (length pendingArrivals) =? rollupSize)
   || match head pendingArrivals with
      | Some oldest => oldest <? now - maxRollupWaitTime
      | None => false
      end).

End BatchSpec.

(** ** The fee formulas, in the specification's words

    [apply(v) = min(v * maxFeeGasPrice, v * gasPrice * multiplierPct / 100)],
    [toAssetPrice = apply(gas * 10^decimals) / oraclePrice], and
    [surplusRatio = clamp(1 - sum / (baseFee * txsPerRollup), 0, 1)] as an
    exact rational. *)

Module FeeSpec.
Import JsNumber.

Definition apply (maxFeeGasPrice gasPrice multiplierPct v : Z) : Z :=
  Z.min (v * maxFeeGasPrice) (Z.quot (v * gasPrice * multiplierPct) 100).

Definition toAssetPrice (maxFeeGasPrice gasPrice multiplierPct : Z) (decimals : nat)
           (oraclePrice gas : Z) : Z :=
  Z.quot (apply maxFeeGasPrice gasPrice multiplierPct (gas * 10 ^ Z.of_nat decimals))
         oraclePrice.


End FeeSpec.

(** ** Concrete inputs used by the examples of Part II *)

Module Samples.
Import WorldState Server.

(** A small stand-in for the hash functions: digests of 32 bytes whose
    value stays below 8, so that a root is a key of a depth-3 tree. *)
Definition digest (v : Z) : Buffer := alloc 31 ++ [byteOfZ (v mod 8)].

Definition toyHasher : Hasher :=
  {| hashLeaf := fun leaf => digest (toBigIntBE leaf);
     compress := fun l r => digest (3 * toBigIntBE l + 5 * toBigIntBE r + 1) |}.

(** A stand-in for the proof format: byte 0 and byte 1 are the two
    nullifiers, byte 2 is the low byte of the note tree root, and the
    verifier accepts a proof whose byte 3 is not zero. *)
Definition byteAt (b : Buffer) (i : nat) : Z := byteToZ (default x00 (b !! i)).

Definition toyJoinSplit : JoinSplit :=
  {| readNullifier1 := fun b => byteAt b 0;
     readNullifier2 := fun b => byteAt b 1;
     readNewNote1 := fun b => alloc 63 ++ [byteOfZ (byteAt b 0)];
     readNewNote2 := fun b => alloc 63 ++ [byteOfZ (byteAt b 1)];
     readNoteTreeRoot := fun b => alloc 31 ++ [byteOfZ (byteAt b 2)];
     verifyProof := fun b => negb (byteAt b 3 =? 0) |}.

Definition tx (n1 n2 root : Z) : JoinSplitProof :=
  @newJoinSplitProof toyJoinSplit [byteOfZ n1; byteOfZ n2; byteOfZ root; x01] [[x0a]; [x0b]].

Definition emptyTree (d : nat) : Tree := {| depth := d; leaves := ∅; size := 0 |}.

(** A store whose three trees have depth 3 and hold nothing. *)
Definition emptyDb : WorldStateDb :=
  {| committed := {| dataTree := emptyTree 3; nullTree := emptyTree 3;
                     rootTree := emptyTree 3 |};
     overlay := [] |}.

Definition server (db : WorldStateDb) (size : Z) : ServerState :=
  {| worldStateDb := db; stateQueue := []; txQueue := [];
     rollupSize := size; nextRollupId := 0; proofRequests := [] |}.

(** A block that declares four data entries and carries one. *)
Definition block : Block :=
  {| blockNum := 0; dataStartIndex := 0; numDataEntries := 4;
     dataEntries := [alloc 63 ++ [x05]]; nullifiers := [[x03]] |}.

(** A store that knows the data root whose low bytes hold 0. *)
Definition knownRootDb : WorldStateDb :=
  {| committed := {| dataTree := emptyTree 3; nullTree := emptyTree 3;
                     rootTree := {| depth := 3; leaves := {[ 0 := nonEmptyValue ]};
                                    size := 1 |} |};
     overlay := [] |}.

(** Stand-ins for the call-data and header decoders: the call data is the
    proof, and its first two bytes are the rollup id and the rollup size. *)
Definition toyDecoders : Contracts.Decoders :=
  {| Contracts.parseProofData := Contracts.data;
     Contracts.parseViewingKeys := fun _ => [];
     Contracts.getRollupIdFromBuffer := fun b => byteAt b 0;
     Contracts.getRollupSizeFromBuffer := fun b => byteAt b 1 |}.

Definition rollupTx (id : Z) (conf : Z) : Contracts.TransactionResponse :=
  {| Contracts.hash := [byteOfZ id]; Contracts.confirmations := conf;
     Contracts.timestamp := 1600000000 + id; Contracts.data := [byteOfZ id; x02] |}.

(** A log with rollups 7, 8 and 9 in blocks 100, 101 and 102; the
    transaction of rollup 9 has one confirmation. *)
Definition rollupEvent (id block conf : Z) : Contracts.Event :=
  {| Contracts.eventName := Contracts.RollupProcessed; Contracts.eventRollupId := id;
     Contracts.blockNumber := block; Contracts.getTransaction := rollupTx id conf |}.

Definition log : list Contracts.Event :=
  [ rollupEvent 7 100 3;
    {| Contracts.eventName := Contracts.OtherEvent; Contracts.eventRollupId := 0;
       Contracts.blockNumber := 100; Contracts.getTransaction := rollupTx 0 3 |};
    rollupEvent 8 101 2;
    rollupEvent 9 102 1 ].




(** A transfer in the native asset that pays [fee]. *)
Definition transfer (fee : Z) : FeeCalculator.TxDao :=
  {| FeeCalculator.txType := TxType.TRANSFER;
     FeeCalculator.proofData :=
       {| FeeCalculator.proofId := ProofId.JOIN_SPLIT;
          FeeCalculator.assetId := FeeCalculator.ETH;
          FeeCalculator.txFee := fee;
          FeeCalculator.bridgeId := {| FeeCalculator.inputAssetId := FeeCalculator.ETH |} |} |}.

(** The compact signature of the specification's padding scenario. *)
Definition signature : Buffer := replicate 32 xaa ++ replicate 32 xbb ++ [x1b].

(** Three queued transactions, with one pair of clock readings each. *)
Definition queued : ServerState :=
  withTxQueue [Some (tx 1 2 0); Some (tx 3 4 0); Some (tx 5 6 0)] (server emptyDb 2).

Definition clock (turns : nat) : list (Z * Z) := replicate turns (1000000, 1000000).

(** The block of the batch [[tx 1 2 0]] for a rollup of two transactions:
    its two notes, padded to four entries, and its two nullifiers. *)
Definition batchBlock : Block :=
  {| blockNum := 1; dataStartIndex := 0; numDataEntries := 4;
     dataEntries := Writes.batchNotes [tx 1 2 0]; nullifiers := [[x01]; [x02]] |}.

(** A block whose nullifier is no leaf index of a tree of depth 3. *)
Definition overflowBlock : Block :=
  {| blockNum := 2; dataStartIndex := 0; numDataEntries := 4;
     dataEntries := [alloc 63 ++ [x05]]; nullifiers := [[x09]] |}.

(** A store whose data tree holds two notes and nothing else. *)
Definition twoNotesDb : WorldStateDb :=
  {| committed := {| dataTree := {| depth := 3;
                                    leaves := {[ 0 := alloc 63 ++ [x05];
                                                 1 := alloc 63 ++ [x06] ]};
                                    size := 2 |};
                     nullTree := emptyTree 3;
                     rootTree := emptyTree 3 |};
     overlay := [] |}.

(** The surplus ratios of the constructor that doubles hold exactly. *)
Definition surplusRatios : list JsNumber.Number :=
  [JsNumber.ofZ 1; JsNumber.Finite (Q2Qc (1 # 2)); JsNumber.ofZ 0].

(** An ACCOUNT transaction whose proof names an asset that does not exist. *)
Definition accountTx : FeeCalculator.TxDao :=
  {| FeeCalculator.txType := TxType.ACCOUNT;
     FeeCalculator.proofData :=
       {| FeeCalculator.proofId := ProofId.ACCOUNT;
          FeeCalculator.assetId := 7%nat;
          FeeCalculator.txFee := 5;
          FeeCalculator.bridgeId := {| FeeCalculator.inputAssetId := 7%nat |} |} |}.

(** A second asset, worth 0.0003 of the native one, with a calculator that
    knows both. *)
Definition oracle2 : FeeCalculator.PriceTracker :=
  {| FeeCalculator.getAssetPrice :=
       fun assetId => if Nat.eqb assetId 0 then 1000000000000000000%N
                      else 300000000000000%N;
     FeeCalculator.getGasPrice := 2%N |}.

Definition calculator2 : FeeCalculator.Config :=
  {| FeeCalculator.assets :=
       [ {| FeeCalculator.decimals := 18;
            FeeCalculator.gasConstants := [5000; 0; 5000; 10000; 0; 3000; 3000] |};
         {| FeeCalculator.decimals := 18;
            FeeCalculator.gasConstants := [25000; 0; 25000; 30000; 0; 3000; 3000] |} ];
     FeeCalculator.baseTxGas := 10000;
     FeeCalculator.maxFeeGasPrice := 0;
     FeeCalculator.feeGasPriceMultiplier := JsNumber.ofZ 1;
     FeeCalculator.txsPerRollup := 10;
     FeeCalculator.feeFreeAssets := [] |}.

(** The same calculator with the native asset on the fee-free list. *)
Definition freeCalculator : FeeCalculator.Config :=
  {| FeeCalculator.assets := FeeCalculator.assets calculator2;
     FeeCalculator.baseTxGas := 10000;
     FeeCalculator.maxFeeGasPrice := 0;
     FeeCalculator.feeGasPriceMultiplier := JsNumber.ofZ 1;
     FeeCalculator.txsPerRollup := 10;
     FeeCalculator.feeFreeAssets := [FeeCalculator.ETH] |}.

(** A server behind the routes: version 2.1, ready, flushing as [server.ts]
    does, and answering the ids of the transactions it is given. *)
Definition api : App.ServerApi ServerState Buffer :=
  {| App.version := fun _ => "2.1"%string;
     App.isReady := fun _ => true;
     App.receiveTxs := fun request _ => ret (map App.proof (App.txs request));
     App.flushTxs := flushTxs;
     App.removeData := ret tt;
     App.resetPipline := ret tt;
     App.restartPipeline := ret tt;
     App.getBlockBuffers := fun _ _ => ret [];
     App.getLatestRollupId := gets nextRollupId |}.

(** Stand-ins for the functions of the language and of barretenberg: any
    buffer is a proof, and the only numbers spelled are 7 and 250. *)
Definition externals : App.Externals Buffer :=
  {| App.newProofData := Ok;
     App.toNumber := fun text =>
       if String.eqb text "7" then JsNumber.ofZ 7
       else if String.eqb text "250" then JsNumber.ofZ 250
       else JsNumber.NaN;
     App.numToInt32BE := fun n => toBufferBE n 4;
     App.serializeBufferArrayToVector :=
       fun buffers => toBufferBE (Z.of_nat (length buffers)) 4 ++ List.concat buffers |}.

Definition request (path : string) (version token : option string) : App.Request :=
  {| App.pathname := path; App.versionHeader := version; App.authTokenHeader := token;
     App.originHeader := None; App.clientIp := Some "10.0.0.1"%string;
     App.queryTake := App.QString "250"; App.queryFrom := App.QUndefined;
     App.postData := Ok [ {| App.jsonProofData := "0x01020001";
                             App.jsonOffchainTxData := "";
                             App.jsonDepositSignature := None |} ] |}.

Definition koa (s : ServerState) : App.Koa ServerState :=
  {| App.server := s; App.ctx := App.freshContext; App.endpoints := []; App.console := [] |}.

End Samples.

(* ===================================================================== *)
(** * Part II: properties                                                *)
(* ===================================================================== *)

(** ** Buffers *)

Section BufferFacts.

Lemma length_alloc n : length (alloc n) = n.
Proof. apply length_replicate. Qed.

Lemma slice_prefix (b : Buffer) (n : nat) :
  (n <= length b)%nat -> slice b 0 (Some (Z.of_nat n)) = take n b.
Proof.
  intros Hn. unfold slice, relIndex. simpl default.
  replace (0 <? 0) with false by reflexivity.
  destruct (Z.of_nat n <? 0) eqn:E; [apply Z.ltb_lt in E; lia|].
  rewrite Z.min_l by lia. rewrite Z.min_l by lia.
  simpl Z.to_nat. rewrite drop_0. f_equal. lia.
Qed.

Lemma slice_from (b : Buffer) (n : nat) :
  (n <= length b)%nat -> slice b (Z.of_nat n) None = drop n b.
Proof.
  intros Hn. unfold slice, relIndex. simpl default.
  destruct (Z.of_nat n <? 0) eqn:E; [apply Z.ltb_lt in E; lia|].
  destruct (Z.of_nat (length b) <? 0) eqn:E'; [apply Z.ltb_lt in E'; lia|].
  rewrite !Z.min_l by lia. rewrite Nat2Z.id.
  apply take_ge. rewrite length_drop. lia.
Qed.

Lemma slice_last (b : Buffer) :
  (1 <= length b)%nat -> slice b (-1) None = drop (length b - 1) b.
Proof.
  intros Hn. unfold slice, relIndex. simpl default.
  replace (-1 <? 0) with true by reflexivity.
  destruct (Z.of_nat (length b) <? 0) eqn:E'; [apply Z.ltb_lt in E'; lia|].
  rewrite Z.max_r by lia. rewrite Z.min_l by lia.
  replace (Z.to_nat (Z.of_nat (length b) + -1)) with (length b - 1)%nat by lia.
  apply take_ge. rewrite length_drop. lia.
Qed.

(** The record at position [k] of a concatenation of equally long chunks. *)
Lemma concat_chunk (n : nat) (chunks : list Buffer) (k : nat) (c : Buffer) :
  Forall (fun x => length x = n) chunks ->
  chunks !! k = Some c ->
  take n (drop (k * n) (List.concat chunks)) = c.
Proof.
  intros Hall. revert k. induction Hall as [|x l Hx Hl IH]; intros k Hk.
  - destruct k; discriminate.
  - destruct k as [|k].
    + inversion Hk; subst. change (0 * length c)%nat with 0%nat.
      rewrite drop_0. simpl List.concat. by rewrite take_app_length.
    + simpl in Hk. simpl List.concat. rewrite drop_app_ge by lia.
      replace (S k * n - length x)%nat with (k * n)%nat by lia.
      by apply IH.
Qed.

Lemma concat_chunks_length (n : nat) (chunks : list Buffer) :
  Forall (fun x => length x = n) chunks ->
  length (List.concat chunks) = (length chunks * n)%nat.
Proof.
  induction 1 as [|x l Hx Hl IH]; simpl; [done|].
  rewrite length_app, IH. lia.
Qed.

End BufferFacts.

(** ** Signature marshalling *)

Section Signatures.
Import Contracts.

Lemma padSignature_65 (sig : Buffer) :
  length sig = 65%nat ->
  padSignature sig = take 64 sig ++ replicate 31 x00 ++ drop 64 sig.
Proof.
  intros Hlen. unfold padSignature, Buf.concat. simpl List.concat.
  change 64 with (Z.of_nat 64).
  rewrite (slice_prefix sig 64) by lia.
  rewrite slice_last by lia. rewrite Hlen. simpl. by rewrite app_nil_r.
Qed.

Lemma padSignature_length (sig : Buffer) :
  length sig = 65%nat -> length (padSignature sig) = 96%nat.
Proof.
  intros Hlen. rewrite padSignature_65 by done.
  rewrite !length_app, length_take, length_replicate, length_drop. lia.
Qed.

(** C5. For compact 65-byte signatures, the output of
    [solidityFormatSignatures] has 96 bytes per signature, and the record
    of signature [k] is [r || s || 31 zero bytes || v]: its bytes 0..63
    are the bytes 0..63 of the input, its bytes 64..94 are zero and its
    byte 95 is byte 64 of the input. *)
Theorem solidityFormatSignatures_layout (signatures : list Buffer) :
  Forall (fun sig => length sig = 65%nat) signatures ->
  length (solidityFormatSignatures signatures) = (length signatures * 96)%nat /\
  forall (k : nat) (sig : Buffer),
    signatures !! k = Some sig ->
    let record := take 96 (drop (k * 96) (solidityFormatSignatures signatures)) in
    record = take 64 sig ++ replicate 31 x00 ++ drop 64 sig /\
    length record = 96%nat /\
    (forall j : nat, (j < 64)%nat -> record !! j = sig !! j) /\
    (forall j : nat, (64 <= j < 95)%nat -> record !! j = Some x00) /\
    record !! 95%nat = sig !! 64%nat.
Proof.
  intros Hall.
  assert (Hpad : Forall (fun x : Buffer => length x = 96%nat) (map padSignature signatures)).
  { apply Forall_map. eapply Forall_impl; [exact Hall|].
    intros sig Hs. by apply padSignature_length. }
  split.
  - unfold solidityFormatSignatures, Buf.concat.
    rewrite (concat_chunks_length 96) by done. by rewrite length_map.
  - intros k sig Hk record.
    assert (Hlen : length sig = 65%nat).
    { eapply Forall_lookup_1 in Hall; eauto. }
    assert (Hrec : record = padSignature sig).
    { unfold record, solidityFormatSignatures, Buf.concat.
      apply concat_chunk; [done|]. by rewrite list_lookup_fmap, Hk. }
    rewrite Hrec, padSignature_65 by done.
    assert (Ht : length (take 64 sig) = 64%nat) by (rewrite length_take; lia).
    split; [done|]. split.
    { rewrite !length_app, Ht, length_replicate, length_drop. lia. }
    split; [|split].
    + intros j Hj. rewrite lookup_app_l by lia. by rewrite lookup_take_lt.
    + intros j Hj. rewrite lookup_app_r by lia. rewrite Ht.
      rewrite lookup_app_l by (rewrite length_replicate; lia).
      apply lookup_replicate_2. lia.
    + rewrite lookup_app_r by lia. rewrite Ht.
      rewrite lookup_app_r by (rewrite length_replicate; lia).
      rewrite length_replicate. simpl. rewrite lookup_drop. f_equal.
Qed.

End Signatures.

(** ** Blocks read back from the chain *)

Section RollupBlocks.
Import Contracts.
Context `{Decoders}.

Lemma queryFilter_elem (log : list Event) topic fromBlock (e : Event) :
  e ∈ queryFilter log topic fromBlock <->
  e ∈ log /\ matchesFilter topic e = true /\
  match fromBlock with Some b => b <= blockNumber e | None => True end.
Proof.
  unfold queryFilter. rewrite list_elem_of_In, filter_In, <- list_elem_of_In.
  rewrite andb_true_iff.
  destruct fromBlock as [b|]; rewrite ?Z.leb_le; tauto.
Qed.

Lemma queryFilter_none (log : list Event) (rid : Z) :
  (forall e, e ∈ log -> matchesFilter (Some rid) e = false) ->
  queryFilter log (Some rid) None = [].
Proof.
  intros Hno. destruct (queryFilter log (Some rid) None) as [|e l] eqn:E; [done|].
  assert (He : e ∈ queryFilter log (Some rid) None) by (rewrite E; left).
  apply queryFilter_elem in He as (Hin & Hm & _).
  rewrite (Hno e Hin) in Hm. discriminate.
Qed.

Lemma matchesFilter_any (e : Event) :
  matchesFilter None e = true <-> eventName e = RollupProcessed.
Proof. unfold matchesFilter. destruct (eventName e); split; congruence. Qed.

(** C10. [getRollupBlocksFrom] answers the empty list when no
    RollupProcessed event carries the rollup id.  Otherwise, with
    [rollupEvent] the first event that carries it, the answer is the list of
    decoded transactions of the RollupProcessed events from the block of
    [rollupEvent] on, restricted to the transactions with at least
    [minConfirmations] confirmations; a transaction with fewer
    confirmations is left out and nothing is raised. *)
Theorem getRollupBlocksFrom_spec (log : list Event) (rollupId minConfirmations : Z) :
  ((forall e, e ∈ log -> matchesFilter (Some rollupId) e = false) ->
   getRollupBlocksFrom log rollupId minConfirmations = []) /\
  (forall rollupEvent : Event,
      head (queryFilter log (Some rollupId) None) = Some rollupEvent ->
      getRollupBlocksFrom log rollupId minConfirmations =
        map decodeBlock
          (List.filter (fun tx => minConfirmations <=? confirmations tx)
             (map getTransaction
                (List.filter
                   (fun e => matchesFilter None e && (blockNumber rollupEvent <=? blockNumber e))
                   log))) /\
      forall b : Block,
        b ∈ getRollupBlocksFrom log rollupId minConfirmations <->
        exists e : Event,
          e ∈ log /\ eventName e = RollupProcessed /\
          blockNumber rollupEvent <= blockNumber e /\
          minConfirmations <= confirmations (getTransaction e) /\
          b = decodeBlock (getTransaction e)).
Proof.
  split.
  - intros Hno. unfold getRollupBlocksFrom. by rewrite queryFilter_none.
  - intros rollupEvent Hhead. unfold getRollupBlocksFrom.
    destruct (queryFilter log (Some rollupId) None) as [|e0 l] eqn:E; [discriminate|].
    simpl in Hhead. inversion Hhead; subst e0. split; [reflexivity|].
    intros b. rewrite list_elem_of_In, in_map_iff. split.
    + intros (tx & Hb & Htx). apply filter_In in Htx as [Htx Hconf].
      apply in_map_iff in Htx as (e & He & Hin).
      apply list_elem_of_In, queryFilter_elem in Hin as (Hlog & Hm & Hfrom).
      exists e. subst tx. apply Z.leb_le in Hconf.
      apply matchesFilter_any in Hm. done.
    + intros (e & Hlog & Hname & Hfrom & Hconf & Hb).
      exists (getTransaction e). split; [done|].
      apply filter_In. split; [|by apply Z.leb_le].
      apply in_map. apply list_elem_of_In, queryFilter_elem.
      split; [done|]. split; [by apply matchesFilter_any|done].
Qed.

End RollupBlocks.

(** ** Big-endian keys *)

Section BigEndian.

Lemma byteToZ_range (b : byte) : 0 <= byteToZ b < 256.
Proof.
  unfold byteToZ. pose proof (Byte.to_N_bounded b) as Hb.
  lia.
Qed.

Lemma toBigIntBE_fold (bs : Buffer) (acc : Z) :
  fold_left (fun a x => a * 256 + byteToZ x) bs acc =
  acc * 256 ^ Z.of_nat (length bs) + toBigIntBE bs.
Proof.
  unfold toBigIntBE. revert acc. induction bs as [|b bs IH]; intros acc.
  - simpl. lia.
  - cbn [fold_left length]. rewrite IH, (IH (0 * 256 + byteToZ b)).
    rewrite Nat2Z.inj_succ, Z.pow_succ_r by lia. lia.
Qed.

Lemma toBigIntBE_app (a b : Buffer) :
  toBigIntBE (a ++ b) = toBigIntBE a * 256 ^ Z.of_nat (length b) + toBigIntBE b.
Proof.
  unfold toBigIntBE at 1. rewrite fold_left_app.
  fold (toBigIntBE a). apply toBigIntBE_fold.
Qed.

Lemma toBigIntBE_range (b : Buffer) :
  0 <= toBigIntBE b < 256 ^ Z.of_nat (length b).
Proof.
  induction b as [|x b IH] using rev_ind.
  - simpl. unfold toBigIntBE. simpl. lia.
  - rewrite toBigIntBE_app, length_app. simpl length.
    replace (toBigIntBE [x]) with (byteToZ x) by (unfold toBigIntBE; simpl; lia).
    pose proof (byteToZ_range x).
    rewrite Nat2Z.inj_add, Z.pow_add_r by lia. change (256 ^ Z.of_nat 1) with 256.
    nia.
Qed.

(** The key [toBigIntBE(root.slice(16))] of a 32-byte root is the number
    held by its low 16 bytes. *)
Lemma low16_key (root : Buffer) :
  length root = 32%nat ->
  toBigIntBE (slice root 16 None) = toBigIntBE root mod 2 ^ 128.
Proof.
  intros Hlen. change 16 with (Z.of_nat 16). rewrite slice_from by lia.
  rewrite <- (take_drop 16 root) at 2. rewrite toBigIntBE_app.
  assert (Hd : length (drop 16 root) = 16%nat) by (rewrite length_drop; lia).
  pose proof (toBigIntBE_range (drop 16 root)) as Hr. rewrite Hd in *.
  change (256 ^ Z.of_nat 16) with (2 ^ 128) in *.
  rewrite Z.add_comm, Z.mod_add by lia. by rewrite Z.mod_small.
Qed.

End BigEndian.

(** ** The monads *)

Section MonadFacts.
Context {S : Type}.

Lemma bind_ok {A B} (m : M S A) (k : A -> M S B) s a s1 :
  m s = (Ok a, s1) -> bind m k s = k a s1.
Proof. intros Hm. unfold bind. by rewrite Hm. Qed.

Lemma bind_throw {A B} (m : M S A) (k : A -> M S B) s e s1 :
  m s = (Throw e, s1) -> bind m k s = (Throw e, s1).
Proof. intros Hm. unfold bind. by rewrite Hm. Qed.

Lemma bind_ok_inv {A B} (m : M S A) (k : A -> M S B) s b s2 :
  bind m k s = (Ok b, s2) ->
  exists a s1, m s = (Ok a, s1) /\ k a s1 = (Ok b, s2).
Proof.
  unfold bind. destruct (m s) as [[a|e] s1]; intros Hk; [eauto|discriminate].
Qed.

End MonadFacts.

(** ** The world state store *)

Section WorldStateFacts.
Import WorldState.
Context `{Hasher}.

Lemma getTree_setTree_same id t ts t0 :
  getTree id ts = Some t0 -> getTree id (setTree id t ts) = Some t.
Proof.
  unfold getTree, setTree.
  destruct (id =? 0) eqn:E0; [by rewrite ?E0|].
  destruct (id =? 1) eqn:E1; [by rewrite ?E0, ?E1|].
  destruct (id =? 2) eqn:E2; [by rewrite ?E0, ?E1, ?E2|]. discriminate.
Qed.

Lemma getTree_setTree_other id id' t ts :
  id <> id' -> getTree id' (setTree id t ts) = getTree id' ts.
Proof.
  intros Hne. unfold getTree, setTree.
  destruct (id =? 0) eqn:E0; [apply Z.eqb_eq in E0; subst|].
  { destruct (id' =? 0) eqn:F0; [apply Z.eqb_eq in F0; lia|]. reflexivity. }
  destruct (id =? 1) eqn:E1; [apply Z.eqb_eq in E1; subst|].
  { destruct (id' =? 0) eqn:F0; [reflexivity|].
    destruct (id' =? 1) eqn:F1; [apply Z.eqb_eq in F1; lia|]. reflexivity. }
  destruct (id =? 2) eqn:E2; [apply Z.eqb_eq in E2; subst|reflexivity].
  destruct (id' =? 0) eqn:F0; [reflexivity|].
  destruct (id' =? 1) eqn:F1; [reflexivity|].
  destruct (id' =? 2) eqn:F2; [apply Z.eqb_eq in F2; lia|]. reflexivity.
Qed.

(** A put keeps the three trees in place and the depth of each. *)
Lemma getTree_applyPut_depth p ts id t :
  getTree id ts = Some t ->
  exists t', getTree id (applyPut p ts) = Some t' /\ depth t' = depth t /\
             size t <= size t'.
Proof.
  destruct p as [[pid key] value]. unfold applyPut. intros Ht.
  destruct (getTree pid ts) as [t0|] eqn:E; [|exists t; split; [done|split; [done|lia]]].
  destruct (decide (pid = id)) as [->|Hne].
  - rewrite Ht in E. inversion E; subst t0.
    erewrite getTree_setTree_same by eauto.
    eexists; split; [reflexivity|]. simpl. split; [done|lia].
  - rewrite getTree_setTree_other by done. exists t. split; [done|split; [done|lia]].
Qed.

Lemma getTree_foldr_depth ps ts id t :
  getTree id ts = Some t ->
  exists t', getTree id (foldr applyPut ts ps) = Some t' /\ depth t' = depth t /\
             size t <= size t'.
Proof.
  intros Ht. induction ps as [|p ps IH]; simpl.
  - exists t. split; [done|split; [done|lia]].
  - destruct IH as (t1 & H1 & Hd1 & Hs1).
    destruct (getTree_applyPut_depth p _ _ _ H1) as (t2 & H2 & Hd2 & Hs2).
    exists t2. split; [done|]. split; [congruence|lia].
Qed.

Lemma staged_clean db : overlay db = [] -> staged db = committed db.
Proof. unfold staged. by intros ->. Qed.

(** A successful put pushes one entry on the overlay. *)
Lemma put_ok id key value db t :
  getTree id (staged db) = Some t -> inRange t key = true ->
  put id key value db =
    (Ok tt, {| committed := committed db; overlay := (id, key, value) :: overlay db |}).
Proof. intros Ht Hr. unfold put. by rewrite Ht, Hr. Qed.

Lemma put_inv id key value db r db' :
  put id key value db = (r, db') ->
  committed db' = committed db /\
  (r = Ok tt /\ overlay db' = (id, key, value) :: overlay db \/
   (exists e, r = Throw e) /\ db' = db).
Proof.
  unfold put. destruct (getTree id (staged db)) as [t|].
  - destruct (inRange t key); intros [= <- <-]; simpl; eauto 6.
  - intros [= <- <-]. unfold badTreeId. eauto 6.
Qed.

Lemma getSize_state id db : snd (getSize id db) = db.
Proof. unfold getSize. by destruct (getTree id (staged db)). Qed.

Lemma getRoot_state id db : snd (getRoot id db) = db.
Proof. unfold getRoot. by destruct (getTree id (staged db)). Qed.

Lemma get_state id key db : snd (get id key db) = db.
Proof.
  unfold get. destruct (getTree id (committed db)) as [t|]; [|done].
  by destruct (inRange t key).
Qed.

Lemma getHashPath_state id key db : snd (getHashPath id key db) = db.
Proof.
  unfold getHashPath. destruct (getTree id (staged db)) as [t|]; [|done].
  by destruct (inRange t key).
Qed.

(** The size of a tree after a write reaches past the written index. *)
Lemma writeLeaf_size key value t : key + 1 <= size (writeLeaf key value t).
Proof. simpl. lia. Qed.

End WorldStateFacts.

(** ** Transaction admission *)

Section Admission.
Import WorldState Server.
Context `{Hasher} `{JoinSplit}.

Lemma withDb_same s : withDb (worldStateDb s) s = s.
Proof. by destruct s. Qed.

Lemma onDb_get id key s :
  onDb (get id key) s = (fst (get id key (worldStateDb s)), s).
Proof.
  unfold onDb. pose proof (get_state id key (worldStateDb s)) as Hs.
  destruct (get id key (worldStateDb s)) as [r db]. simpl in *. subst db.
  by rewrite withDb_same.
Qed.

(** When the key is a leaf index of the committed tree, a read is the
    stored leaf, or 64 zero bytes for a leaf never written. *)
Lemma get_in_range id key db t :
  getTree id (committed db) = Some t -> inRange t key = true ->
  fst (get id key db) = Ok (leafAt t key).
Proof. intros Ht Hr. unfold get. by rewrite Ht, Hr. Qed.

Local Ltac admission_cases :=
  repeat split; simpl; intros;
  repeat match goal with
         | H : _ /\ _ |- _ => destruct H
         | H : exists _, _ |- _ => destruct H
         | H : Ok _ = Ok _ |- _ => inversion H; clear H; subst
         | H : Throw _ = Ok _ |- _ => discriminate H
         | H : Ok _ = Throw _ |- _ => discriminate H
         end;
  try congruence; try done; eauto.

(** C2. [receiveTx] reads the nullifier tree at [nullifier1], then at
    [nullifier2], then the root tree at the key held by bytes 16.. of
    [noteTreeRoot], then runs the verifier.  It admits the proof exactly
    when the two nullifier leaves are all zeros, the root leaf is not, and
    the verifier accepts; the first check that fails raises its error and
    leaves the server as it was; an admitted proof is appended to
    [txQueue]; the world state is never changed. *)
Theorem receiveTx_admission (proofData encViewingKey1 encViewingKey2 : Buffer)
        (s : ServerState) :
  let proof := newJoinSplitProof proofData [encViewingKey1; encViewingKey2] in
  let emptyValue := alloc 64 in
  let leaf1 := fst (get 1 (nullifier1 proof) (worldStateDb s)) in
  let leaf2 := fst (get 1 (nullifier2 proof) (worldStateDb s)) in
  let rootLeaf :=
    fst (get 2 (toBigIntBE (slice (noteTreeRoot proof) 16 None)) (worldStateDb s)) in
  let outcome := receiveTx proofData encViewingKey1 encViewingKey2 s in
  (fst outcome = Ok tt <->
     leaf1 = Ok emptyValue /\ leaf2 = Ok emptyValue /\
     (exists v, rootLeaf = Ok v /\ v <> emptyValue) /\
     verifyProof proofData = true) /\
  (forall v, leaf1 = Ok v -> v <> emptyValue ->
     outcome = (Throw (Error "Nullifier 1 already exists."), s)) /\
  (leaf1 = Ok emptyValue -> forall v, leaf2 = Ok v -> v <> emptyValue ->
     outcome = (Throw (Error "Nullifier 2 already exists."), s)) /\
  (leaf1 = Ok emptyValue -> leaf2 = Ok emptyValue -> rootLeaf = Ok emptyValue ->
     outcome = (Throw (Error ("Merkle root does not exist - "
                                ++ toHex (noteTreeRoot proof))), s)) /\
  (leaf1 = Ok emptyValue -> leaf2 = Ok emptyValue ->
   (exists v, rootLeaf = Ok v /\ v <> emptyValue) -> verifyProof proofData = false ->
     outcome = (Throw (Error "Proof verification failed."), s)) /\
  (fst outcome = Ok tt -> snd outcome = withTxQueue (txQueue s ++ [Some proof]) s) /\
  (fst outcome <> Ok tt -> snd outcome = s) /\
  worldStateDb (snd outcome) = worldStateDb s.
Proof.
  intros proof emptyValue leaf1 leaf2 rootLeaf outcome.
  assert (Hout : outcome =
    match leaf1 with
    | Throw e => (Throw e, s)
    | Ok v1 =>
        if negb (equals v1 emptyValue)
        then (Throw (Error "Nullifier 1 already exists."), s)
        else match leaf2 with
             | Throw e => (Throw e, s)
             | Ok v2 =>
                 if negb (equals v2 emptyValue)
                 then (Throw (Error "Nullifier 2 already exists."), s)
                 else match rootLeaf with
                      | Throw e => (Throw e, s)
                      | Ok v3 =>
                          if equals v3 emptyValue
                          then (Throw (Error ("Merkle root does not exist - "
                                                ++ toHex (noteTreeRoot proof))), s)
                          else if negb (verifyProof proofData)
                               then (Throw (Error "Proof verification failed."), s)
                               else (Ok tt, withTxQueue (txQueue s ++ [Some proof]) s)
                      end
             end
    end).
  { unfold outcome, receiveTx. fold proof. fold emptyValue.
    unfold bind at 1. rewrite onDb_get. fold leaf1.
    destruct leaf1 as [v1|e1]; [|done].
    destruct (negb (equals v1 emptyValue)); [done|].
    unfold bind at 1. rewrite onDb_get. fold leaf2.
    destruct leaf2 as [v2|e2]; [|done].
    destruct (negb (equals v2 emptyValue)); [done|].
    unfold bind at 1. rewrite onDb_get. fold rootLeaf.
    destruct rootLeaf as [v3|e3]; [|done].
    destruct (equals v3 emptyValue); [done|].
    by destruct (negb (verifyProof proofData)). }
  clearbody outcome leaf1 leaf2 rootLeaf. subst outcome.
  assert (Heq : forall v : Buffer, equals v emptyValue = true <-> v = emptyValue).
  { intros v. unfold equals. apply bool_decide_eq_true. }
  assert (Hne : forall v : Buffer, equals v emptyValue = false <-> v <> emptyValue).
  { intros v. unfold equals. apply bool_decide_eq_false. }
  destruct leaf1 as [v1|e1]; [|admission_cases].
  destruct (equals v1 emptyValue) eqn:E1; simpl;
    [apply Heq in E1; subst v1|apply Hne in E1; admission_cases].
  destruct leaf2 as [v2|e2]; [|admission_cases].
  destruct (equals v2 emptyValue) eqn:E2; simpl;
    [apply Heq in E2; subst v2|apply Hne in E2; admission_cases].
  destruct rootLeaf as [v3|e3]; [|admission_cases].
  destruct (equals v3 emptyValue) eqn:E3; simpl;
    [apply Heq in E3; subst v3; admission_cases|apply Hne in E3].
  destruct (verifyProof proofData) eqn:Ev; simpl; admission_cases.
Qed.

End Admission.

(** ** The batch controller *)

Section BatchController.
Import Server BatchSpec.

(** What one turn does, by the value of the test. *)
Lemma loopBody_cases (maxRollupWaitTime : Z) (tx : option JoinSplitProof) (now now' : Z)
      (st : TxLoop) (s : ServerState) :
  let pending := match tx with Some p => txs st ++ [p] | None => txs st end in
  let last := match tx with Some _ => now' | None => lastTxReceivedTime st end in
  loopBody maxRollupWaitTime tx now now' st s =
    if shouldRollup (rollupSize s) maxRollupWaitTime tx pending (lastTxReceivedTime st) now
    then ({| txs := []; lastTxReceivedTime := last;
             flushTimeout := Some maxRollupWaitTime |},
          withStateQueue (stateQueue s ++ [RollupJob pending]) s)
    else ({| txs := pending; lastTxReceivedTime := last;
             flushTimeout := Some maxRollupWaitTime |}, s).
Proof. reflexivity. Qed.

Lemma shouldRollup_iff (size maxRollupWaitTime : Z) (tx : option JoinSplitProof)
      (pending : list JoinSplitProof) (last now : Z) :
  shouldRollup size maxRollupWaitTime tx pending last now = true <->
  pending <> [] /\
  (tx = None \/ Z.of_nat (length pending) = size \/ last < now - maxRollupWaitTime).
Proof.
  unfold shouldRollup.
  rewrite andb_true_iff, !orb_true_iff, negb_true_iff, Z.eqb_neq, Z.eqb_eq, Z.ltb_lt.
  assert (Hlen : Z.of_nat (length pending) <> 0 <-> pending <> []).
  { destruct pending; simpl; split; intros; try congruence; lia. }
  rewrite Hlen.
  assert (Hnull : match tx with None => true | Some _ => false end = true <-> tx = None).
  { destruct tx; split; congruence. }
  rewrite Hnull. tauto.
Qed.

(** Over a run of the loop, the jobs put on the state queue are rollup
    jobs of non-empty batches, and the batches in dispatch order followed
    by the pending list are the delivered transactions in delivery order. *)
Lemma txLoop_order (maxRollupWaitTime : Z) (clock : list (Z * Z)) :
  forall (st : TxLoop) (s : ServerState),
  exists batches : list (list JoinSplitProof),
    let '(st', s') := txLoop maxRollupWaitTime clock st s in
    stateQueue s' = stateQueue s ++ map RollupJob batches /\
    Forall (fun b => b <> []) batches /\
    List.concat batches ++ txs st' =
      txs st ++ delivered (take (length clock) (txQueue s)) /\
    txQueue s' = drop (length clock) (txQueue s) /\
    worldStateDb s' = worldStateDb s /\
    rollupSize s' = rollupSize s.
Proof.
  induction clock as [|[now now'] clock IH]; intros st s.
  - exists []. simpl. rewrite !app_nil_r, drop_0. done.
  - simpl txLoop. destruct (txQueue s) as [|tx rest] eqn:Eq.
    { exists []. simpl. rewrite !app_nil_r. done. }
    rewrite loopBody_cases.
    set (pending := match tx with Some p => txs st ++ [p] | None => txs st end).
    assert (Hpend : pending = txs st ++ delivered [tx]).
    { unfold pending, delivered. destruct tx; simpl; by rewrite ?app_nil_r. }
    destruct (shouldRollup _ _ _ _ _ _) eqn:Eclose.
    + apply shouldRollup_iff in Eclose as [Hne _].
      match goal with |- context [txLoop _ _ ?st1 ?s1] =>
        destruct (IH st1 s1) as (batches & Hrun) end.
      exists (pending :: batches).
      destruct (txLoop _ _ _ _) as [st' s'].
      destruct Hrun as (Hq & Hall & Hcat & Htq & Hdb & Hsz). simpl in *.
      split; [by rewrite Hq, <- app_assoc|].
      split; [by constructor|].
      split.
      { rewrite <- app_assoc, Hcat. simpl. rewrite Hpend. unfold delivered.
        rewrite <- app_assoc. f_equal. destruct tx; done. }
      done.
    + match goal with |- context [txLoop _ _ ?st1 ?s1] =>
        destruct (IH st1 s1) as (batches & Hrun) end.
      exists batches.
      destruct (txLoop _ _ _ _) as [st' s'].
      destruct Hrun as (Hq & Hall & Hcat & Htq & Hdb & Hsz). simpl in *.
      split; [done|]. split; [done|].
      split.
      { rewrite Hcat, Hpend. unfold delivered. rewrite <- app_assoc. f_equal.
        destruct tx; done. }
      done.
Qed.

(** The recorded receive time is that of the latest transaction delivered
    so far, whether or not it has left in a batch. *)
Lemma txLoop_lastTxReceivedTime (maxRollupWaitTime : Z) (clock : list (Z * Z)) :
  forall (st : TxLoop) (s : ServerState),
    lastTxReceivedTime (fst (txLoop maxRollupWaitTime clock st s)) =
    lastReceived (lastTxReceivedTime st) (zip (txQueue s) clock).
Proof.
  induction clock as [|[now now'] clock IH]; intros st s.
  - simpl. by destruct (txQueue s).
  - simpl txLoop. destruct (txQueue s) as [|tx rest] eqn:Eq; [done|].
    rewrite loopBody_cases.
    destruct (shouldRollup _ _ _ _ _ _);
      match goal with |- context [txLoop _ _ ?st1 ?s1] =>
        specialize (IH st1 s1); destruct (txLoop _ _ st1 s1) as [st' s'] end;
      simpl in *; rewrite IH; by destruct tx.
Qed.

(** C3 (amended). A turn of the batch loop closes a batch exactly when the
    pending list, with the delivered transaction appended, is not empty
    and the item is the flush sentinel, or the list holds [rollupSize]
    transactions, or [lastTxReceivedTime] is before [now -
    maxRollupWaitTime]; [lastTxReceivedTime] is the receive time of the
    latest transaction delivered before this turn (zero at the start),
    batched or not.  A closing turn appends exactly one rollup job, for the
    whole pending list, to the state queue and empties the list; any other
    turn leaves the state queue alone.  Over a run, the batches in
    dispatch order followed by the pending list are the delivered
    transactions in delivery order.  [processTxQueue] runs this loop from
    the initial locals once it has compared the two intervals. *)
Theorem batch_controller (maxRollupWaitTime : Z) :
  (forall (tx : option JoinSplitProof) (now now' : Z) (st : TxLoop) (s : ServerState),
      let pending := match tx with Some p => txs st ++ [p] | None => txs st end in
      let close := pending <> [] /\
                   (tx = None \/ Z.of_nat (length pending) = rollupSize s \/
                    lastTxReceivedTime st < now - maxRollupWaitTime) in
      let st' := fst (loopBody maxRollupWaitTime tx now now' st s) in
      let s' := snd (loopBody maxRollupWaitTime tx now now' st s) in
      (close -> stateQueue s' = stateQueue s ++ [RollupJob pending] /\ txs st' = []) /\
      (~ close -> s' = s /\ txs st' = pending) /\
      lastTxReceivedTime st' =
        match tx with Some _ => now' | None => lastTxReceivedTime st end) /\
  (forall (clock : list (Z * Z)) (s : ServerState),
      let st' := fst (txLoop maxRollupWaitTime clock initialLoop s) in
      let s' := snd (txLoop maxRollupWaitTime clock initialLoop s) in
      lastTxReceivedTime st' = lastReceived 0 (zip (txQueue s) clock) /\
      exists batches : list (list JoinSplitProof),
        stateQueue s' = stateQueue s ++ map RollupJob batches /\
        Forall (fun b => b <> []) batches /\
        List.concat batches ++ txs st' = delivered (take (length clock) (txQueue s))) /\
  (forall (minRollupInterval : Z) (clock : list (Z * Z)) (s : ServerState),
      processTxQueue maxRollupWaitTime minRollupInterval clock s =
        if maxRollupWaitTime <? minRollupInterval
        then Throw (Error "minRollupInterval must be <= maxRollupWaitTime")
        else Ok (txLoop maxRollupWaitTime clock initialLoop s)).
Proof.
  split; [|split; [|reflexivity]].
  - intros tx now now' st s pending close st' s'.
    unfold st', s'. rewrite loopBody_cases. fold pending.
    destruct (shouldRollup _ _ _ _ _ _) eqn:E; simpl.
    + apply shouldRollup_iff in E. fold close in E. split; [done|]. split; [done|].
      by destruct tx.
    + assert (Hn : ~ close).
      { intros Hc. apply shouldRollup_iff in Hc. congruence. }
      split; [done|]. split; [done|]. by destruct tx.
  - intros clock s st' s'. split.
    + unfold st'. by rewrite txLoop_lastTxReceivedTime.
    + destruct (txLoop_order maxRollupWaitTime clock initialLoop s) as (batches & Hrun).
      exists batches. unfold st', s'.
      destruct (txLoop _ _ _ _) as [st1 s1]. simpl.
      destruct Hrun as (Hq & Hall & Hcat & _). done.
Qed.

End BatchController.

Section BatchControllerExamples.
Import Server BatchSpec Samples.

(** The first transaction that the loop ever receives closes a batch at
    once, since the recorded receive time starts at zero. *)
Lemma batch_controller_witness :
  stateQueue (snd (loopBody 30000 (Some (tx 1 2 0)) 1000000 1000000 initialLoop
                            (server emptyDb 4)))
  = [RollupJob [tx 1 2 0]].
Proof.
  destruct (batch_controller 30000) as (Hstep & _ & _).
  destruct (Hstep (Some (tx 1 2 0)) 1000000 1000000 initialLoop (server emptyDb 4))
    as [Hclose _].
  destruct Hclose as [Hq _]; [|exact Hq].
  split; [discriminate|]. right. right. simpl. lia.
Defined.

(** C3 fails as stated.  With [rollupSize = 4] and a wait of 30 s:
    the first transaction, received at 1000 s, is dispatched at once,
    although no time has passed since the oldest unbatched transaction
    (itself) was received; and with three more transactions received at
    1010 s, 1035 s and 1060 s, nothing is dispatched at 1060 s although
    the oldest unbatched transaction has been waiting for 50 s. *)
Lemma batch_controller_counterexample :
  let s := withTxQueue [Some (tx 1 2 0); Some (tx 3 4 0); Some (tx 5 6 0); Some (tx 7 0 0)]
                       (server emptyDb 4) in
  let turn1 := txLoop 30000 [(1000000, 1000000)] initialLoop s in
  let turn4 := txLoop 30000 [(1000000, 1000000); (1010000, 1010000);
                             (1035000, 1035000); (1060000, 1060000)] initialLoop s in
  (stateQueue (snd turn1) = [RollupJob [tx 1 2 0]] /\
   shouldClose 4 30000 false [1000000] 1000000 = false) /\
  (stateQueue (snd turn4) = [RollupJob [tx 1 2 0]] /\
   txs (fst turn4) = [tx 3 4 0; tx 5 6 0; tx 7 0 0] /\
   shouldClose 4 30000 false [1010000; 1035000; 1060000] 1060000 = true).
Proof. vm_compute. repeat split. Qed.

End BatchControllerExamples.

(** ** Staging puts *)

Section Staging.
Import WorldState Server Writes.
Context `{Hasher}.

Lemma stage_nil db : stage [] db = db.
Proof. by destruct db. Qed.

Lemma stage_app ps1 ps2 db : stage ps2 (stage ps1 db) = stage (ps1 ++ ps2) db.
Proof. unfold stage. simpl. by rewrite rev_app_distr, app_assoc. Qed.

Lemma staged_stage_snoc ps p db :
  staged (stage (ps ++ [p]) db) = applyPut p (staged (stage ps db)).
Proof. unfold staged, stage. simpl. by rewrite rev_app_distr. Qed.

(** Staging keeps the depth of each tree, so being in range can be
    judged on the committed trees. *)
Lemma inRange_staged id db t key :
  getTree id (committed db) = Some t ->
  exists t', getTree id (staged db) = Some t' /\ inRange t' key = inRange t key /\
             size t <= size t'.
Proof.
  intros Ht. destruct (getTree_foldr_depth (overlay db) _ _ _ Ht) as (t' & H1 & Hd & Hs).
  exists t'. split; [done|]. split; [|done]. unfold inRange. by rewrite Hd.
Qed.

Lemma depth_staged_data db :
  depth (dataTree (staged db)) = depth (dataTree (committed db)).
Proof.
  destruct (getTree_foldr_depth (overlay db) (committed db) 0 _ eq_refl)
    as (t & Ht & Hd & _).
  unfold getTree in Ht. simpl in Ht. by inversion Ht; subst.
Qed.

Lemma getTree_staged_None id db :
  getTree id (committed db) = None -> getTree id (staged db) = None.
Proof.
  unfold getTree. destruct (id =? 0); [done|]. destruct (id =? 1); [done|].
  destruct (id =? 2); done.
Qed.

Lemma put_stage (p : Put) db :
  putInRange (committed db) p = true ->
  put p.1.1 p.1.2 p.2 db = (Ok tt, stage [p] db).
Proof.
  destruct p as [[id key] value]. unfold putInRange. simpl. intros Hr.
  destruct (getTree id (committed db)) as [t|] eqn:Ht; [|discriminate].
  destruct (inRange_staged id db t key Ht) as (t' & Ht' & Hin & _).
  erewrite put_ok; [reflexivity|exact Ht'|congruence].
Qed.

Lemma putInRange_stage ps db p :
  putInRange (committed (stage ps db)) p = putInRange (committed db) p.
Proof. reflexivity. Qed.

Lemma withDb_withDb db1 db2 s : withDb db2 (withDb db1 s) = withDb db2 s.
Proof. reflexivity. Qed.

Lemma onDb_put_stage (p : Put) s :
  putInRange (committed (worldStateDb s)) p = true ->
  onDb (put p.1.1 p.1.2 p.2) s = (Ok tt, withDb (stage [p] (worldStateDb s)) s).
Proof. intros Hr. unfold onDb. by rewrite put_stage. Qed.

(** The size of the data tree reaches past every data index written. *)
Lemma staged_size_data ps db key value :
  (0, key, value) ∈ ps ->
  key + 1 <= size (dataTree (staged (stage ps db))).
Proof.
  induction ps as [|p ps IH] using rev_ind; intros Hin.
  - by apply elem_of_nil in Hin.
  - rewrite staged_stage_snoc.
    assert (Hmono : forall q ts, size (dataTree ts) <= size (dataTree (applyPut q ts))).
    { intros q ts.
      destruct (getTree_applyPut_depth q ts 0 (dataTree ts) eq_refl) as (t' & Ht' & _ & Hs).
      unfold getTree in Ht'. simpl in Ht'. by inversion Ht'; subst. }
    apply elem_of_app in Hin as [Hin|Hin].
    + specialize (IH Hin). specialize (Hmono p (staged (stage ps db))). lia.
    + apply list_elem_of_singleton in Hin. subst p. unfold applyPut. simpl. lia.
Qed.

Lemma staged_size_mono ps db :
  size (dataTree (staged db)) <= size (dataTree (staged (stage ps db))).
Proof.
  induction ps as [|p ps IH] using rev_ind.
  - by rewrite stage_nil.
  - rewrite staged_stage_snoc.
    destruct (getTree_applyPut_depth p (staged (stage ps db)) 0 _ eq_refl)
      as (t' & Ht' & _ & Hs).
    unfold getTree in Ht'. simpl in Ht'. inversion Ht'; subst. lia.
Qed.

End Staging.

(** ** Handling a confirmed block *)

Section BlockHandling.
Import WorldState Server Writes.
Context `{Hasher} `{JoinSplit}.

Local Abbreviation allInRange ts ps := (Forall (fun p : Put => putInRange ts p = true) ps).

Lemma dataPuts_lookup (entries : list Buffer) :
  forall (i : Z) (j : nat) (entry : Buffer),
    entries !! j = Some entry -> (0, i + Z.of_nat j, entry) ∈ dataPuts i entries.
Proof.
  induction entries as [|e rest IH]; intros i j entry Hj; [by destruct j|].
  destruct j as [|j]; simpl in Hj.
  - inversion Hj; subst. change (Z.of_nat 0) with 0. rewrite Z.add_0_r. left.
  - right. replace (i + Z.of_nat (S j)) with (i + 1 + Z.of_nat j) by lia.
    by apply IH.
Qed.

(** The loop over [dataEntries] stages [dataPuts]. *)
Lemma forIndexed_dataPuts (start : Z) (entries : list Buffer) :
  forall (i : Z) (s : ServerState),
    allInRange (committed (worldStateDb s)) (dataPuts (start + i) entries) ->
    forIndexed i entries (fun i entry => onDb (put 0 (start + i) entry)) s =
      (Ok tt, withDb (stage (dataPuts (start + i) entries) (worldStateDb s)) s).
Proof.
  induction entries as [|e rest IH]; intros i s Hr; simpl.
  - rewrite stage_nil, withDb_same. reflexivity.
  - inversion Hr as [|p ps Hp Hps]; subst.
    erewrite bind_ok; [|exact (onDb_put_stage (0, start + i, e) s Hp)].
    replace (start + i + 1) with (start + (i + 1)) in * by lia.
    rewrite IH by exact Hps. simpl worldStateDb.
    rewrite stage_app, withDb_withDb. reflexivity.
Qed.

(** The loop over [nullifiers] stages [nullifierPuts]. *)
Lemma forEach_nullifierPuts (ns : list Buffer) :
  forall s : ServerState,
    allInRange (committed (worldStateDb s))
               (map (fun n => (1, toBigIntBE n, nonEmptyValue)) ns) ->
    forEach ns (fun n => onDb (put 1 (toBigIntBE n) nonEmptyValue)) s =
      (Ok tt, withDb (stage (map (fun n => (1, toBigIntBE n, nonEmptyValue)) ns)
                            (worldStateDb s)) s).
Proof.
  induction ns as [|n rest IH]; intros s Hr; simpl.
  - rewrite stage_nil, withDb_same. reflexivity.
  - inversion Hr as [|p ps Hp Hps]; subst.
    erewrite bind_ok; [|exact (onDb_put_stage (1, toBigIntBE n, nonEmptyValue) s Hp)].
    rewrite IH by exact Hps. simpl worldStateDb.
    rewrite stage_app, withDb_withDb. reflexivity.
Qed.

(** The mark that [createRollup] stages for a nullifier, [toBufferBE(1n, 64)],
    is the mark that [handleNewBlock] writes. *)
Lemma toBufferBE_one : toBufferBE 1 64 = nonEmptyValue.
Proof. reflexivity. Qed.

Lemma onDb_getRoot_data s :
  onDb (getRoot 0) s = (Ok (treeRoot (dataTree (staged (worldStateDb s)))), s).
Proof. unfold onDb, getRoot. simpl. by rewrite withDb_same. Qed.

(** C4. When every key that the block writes is a leaf index of its tree,
    [handleNewBlock] stages, in this order, each [dataEntries[i]] at
    data-tree index [dataStartIndex + i], a 64-byte zero leaf at index
    [dataStartIndex + numDataEntries - 1] if the block has fewer entries
    than [numDataEntries], the value of 63 zero bytes and a final 1 at the
    root-tree key held by bytes 16.. of the data root after these
    insertions, and the same value at the nullifier-tree key of every
    nullifier; it then commits.  For a block that carries or declares at
    least one data entry, the size of the data tree after the commit is
    at least [dataStartIndex + numDataEntries]. *)
Theorem handleNewBlock_writes (b : Block) (s : ServerState) :
  let db := worldStateDb s in
  allInRange (committed db) (blockPuts b db) ->
  dataEntries b <> [] \/ 0 < numDataEntries b ->
  blockPuts b db =
    dataPuts (dataStartIndex b) (dataEntries b) ++ padPuts b ++
    [(2, toBigIntBE (slice (treeRoot (dataTree (staged
           (stage (dataPuts (dataStartIndex b) (dataEntries b) ++ padPuts b) db))))
           16 None), nonEmptyValue)] ++ nullifierPuts b /\
  nonEmptyValue = replicate 63 x00 ++ [x01] /\
  exists s' : ServerState,
    handleNewBlock b s = (Ok tt, s') /\
    s' = withDb {| committed := staged (stage (blockPuts b db) db); overlay := [] |} s /\
    dataStartIndex b + numDataEntries b <= size (dataTree (committed (worldStateDb s'))).
Proof.
  intros db Hr Hne.
  split; [unfold blockPuts; by rewrite <- app_assoc|].
  split; [reflexivity|].
  eexists. split; [|split; [reflexivity|]].
  - unfold blockPuts in Hr.
    set (first := dataPuts (dataStartIndex b) (dataEntries b) ++ padPuts b) in *.
    apply Forall_app in Hr as [Hfirst Hrest].
    apply Forall_app in Hfirst as [Hdata Hpad].
    apply Forall_app in Hrest as [Hroot Hnull].
    unfold handleNewBlock.
    erewrite bind_ok.
    2:{ pose proof (forIndexed_dataPuts (dataStartIndex b) (dataEntries b) 0 s) as Hd.
        rewrite Z.add_0_r in Hd. apply Hd. exact Hdata. }
    erewrite bind_ok.
    2:{ unfold padPuts in Hpad.
        instantiate (1 := withDb (stage first db) s). instantiate (1 := tt).
        unfold first, padPuts.
        destruct (Z.of_nat (length (dataEntries b)) <? numDataEntries b).
        - inversion Hpad as [|p ps Hp _]; subst.
          rewrite (onDb_put_stage (0, dataStartIndex b + numDataEntries b - 1, alloc 64))
            by exact Hp.
          simpl worldStateDb. by rewrite stage_app, withDb_withDb.
        - by rewrite app_nil_r. }
    erewrite bind_ok; [|apply onDb_getRoot_data].
    simpl worldStateDb.
    inversion Hroot as [|p ps Hp _]; subst.
    erewrite bind_ok;
      [|exact (onDb_put_stage (2, _, nonEmptyValue) (withDb (stage first db) s) Hp)].
    erewrite bind_ok; [|apply forEach_nullifierPuts; exact Hnull].
    simpl worldStateDb. unfold onDb, commit. simpl.
    rewrite !stage_app. unfold blockPuts. fold first. reflexivity.
  - simpl.
    destruct (Z.of_nat (length (dataEntries b)) <? numDataEntries b) eqn:E.
    + pose proof (staged_size_data (blockPuts b db) db
                    (dataStartIndex b + numDataEntries b - 1) (alloc 64)) as Hs.
      lapply Hs; [lia|]. unfold blockPuts, padPuts. rewrite E.
      apply elem_of_app. left. apply elem_of_app. right. left.
    + apply Z.ltb_ge in E.
      destruct (dataEntries b) as [|e0 rest] eqn:Ed using rev_ind.
      { simpl in E. destruct Hne; [done|lia]. }
      clear IHrest.
      pose proof (staged_size_data (blockPuts b db) db
                    (dataStartIndex b + Z.of_nat (length rest)) e0) as Hs.
      lapply Hs.
      * rewrite length_app in E. simpl in E. lia.
      * unfold blockPuts. rewrite Ed. apply elem_of_app. left. apply elem_of_app. left.
        apply dataPuts_lookup. rewrite lookup_app_r by lia.
        by rewrite Nat.sub_diag.
Qed.

End BlockHandling.

(** ** Numbers that hold integers *)

Section NumberFacts.
Import JsNumber.

Lemma ofZ_this (z : Z) : this (Q2Qc (inject_Z z)) = inject_Z z.
Proof. simpl. apply inject_Z_Qred. Qed.

Lemma isZero_ofZ (z : Z) : isZero (Q2Qc (inject_Z z)) = (z =? 0).
Proof. unfold isZero. by rewrite ofZ_this. Qed.


Lemma Q2Qc_inject_mul (x y : Z) :
  (Q2Qc (inject_Z x) * Q2Qc (inject_Z y))%Qc = Q2Qc (inject_Z (x * y)).
Proof.
  unfold Qcmult. apply Q2Qc_eq_iff. rewrite !ofZ_this.
  unfold Qeq, inject_Z, Qmult. simpl. lia.
Qed.

Lemma Q2Qc_inject_sub (x y : Z) :
  (Q2Qc (inject_Z x) - Q2Qc (inject_Z y))%Qc = Q2Qc (inject_Z (x - y)).
Proof.
  unfold Qcminus, Qcplus, Qcopp. apply Q2Qc_eq_iff. rewrite !ofZ_this.
  simpl this. rewrite Qred_correct.
  unfold Qeq, inject_Z, Qplus, Qopp. simpl. lia.
Qed.

Lemma Q2Qc_inject_inj (x y : Z) : Q2Qc (inject_Z x) = Q2Qc (inject_Z y) -> x = y.
Proof.
  intros Heq. apply Q2Qc_eq_iff in Heq. unfold Qeq, inject_Z in Heq. simpl in Heq. lia.
Qed.

(** A quotient of integers that divides exactly is the integer quotient. *)
Lemma div_ofZ_exact (m d : Z) : d <> 0 -> div (ofZ (m * d)) (ofZ d) = ofZ m.
Proof.
  intros Hd. unfold div, ofZ. rewrite isZero_ofZ.
  destruct (d =? 0) eqn:E; [apply Z.eqb_eq in E; lia|].
  f_equal. rewrite <- Q2Qc_inject_mul. apply Qcdiv_mult_l.
  intros Hz. apply (Q2Qc_inject_inj d 0) in Hz. lia.
Qed.

(** Truncation does not depend on the representative of the rational. *)
Lemma truncQ_Q2Qc (q : Q) :
  truncQ (Q2Qc q) = Z.quot (Qnum q) (Zpos (Qden q)).
Proof.
  unfold truncQ. simpl this.
  pose proof (Qred_correct q) as Heq. unfold Qeq in Heq.
  set (n' := Qnum (Qred q)) in *. set (d' := Qden (Qred q)) in *.
  rewrite <- (Z.quot_mul_cancel_r n' (Zpos d') (Zpos (Qden q))) by lia.
  rewrite Heq. rewrite (Z.mul_comm (Zpos d')).
  apply Z.quot_mul_cancel_r; lia.
Qed.

Lemma truncQ_div_ofZ (a b : Z) :
  0 < b -> truncQ (Q2Qc (inject_Z a) / Q2Qc (inject_Z b))%Qc = Z.quot a b.
Proof.
  intros Hb. unfold Qcdiv, Qcmult, Qcinv. rewrite truncQ_Q2Qc.
  rewrite !ofZ_this. simpl this. 
  assert (Hinv : Qred (/ inject_Z b) == / inject_Z b) by apply Qred_correct.
  assert (Heq : inject_Z a * Qred (/ inject_Z b) == a # Z.to_pos b).
  { rewrite Hinv. unfold Qeq, Qmult, Qinv, inject_Z. simpl.
    destruct b as [|p|p]; try lia. simpl. lia. }
  rewrite <- (truncQ_Q2Qc (inject_Z a * Qred (/ inject_Z b))).
  apply Q2Qc_eq_iff in Heq. rewrite Heq. rewrite truncQ_Q2Qc. simpl.
  by rewrite Z2Pos.id.
Qed.

(** The remainder of integers is the integer remainder. *)
Lemma rem_ofZ (a b : Z) : 0 < b -> rem (ofZ a) (ofZ b) = ofZ (Z.rem a b).
Proof.
  intros Hb. unfold rem, ofZ. rewrite isZero_ofZ.
  destruct (b =? 0) eqn:E; [apply Z.eqb_eq in E; lia|].
  f_equal. rewrite truncQ_div_ofZ by done.
  rewrite Q2Qc_inject_mul, Q2Qc_inject_sub. f_equal. f_equal.
  pose proof (Z.quot_rem' a b). lia.
Qed.

Lemma arrayIndex_ofZ (z : Z) : 0 <= z -> arrayIndex (ofZ z) = Some (Z.to_nat z).
Proof.
  intros Hz. unfold arrayIndex, ofZ, isInteger. rewrite ofZ_this. simpl.
  destruct (0 <=? z) eqn:E; [done|]. apply Z.leb_gt in E. lia.
Qed.


Lemma log2Index_pow2 (k : nat) : log2Index (2 ^ Z.of_nat k) = Some k.
Proof.
  unfold log2Index. rewrite Z.log2_pow2 by lia. rewrite Z.eqb_refl.
  by rewrite Nat2Z.id.
Qed.

End NumberFacts.

(** ** Building a rollup *)

Section RollupBuilder.
Import WorldState Server Writes JsNumber.
Context `{Hasher} `{JoinSplit}.

Lemma onDb_read_inv {A} (m : M WorldStateDb A) (s s' : ServerState) (r : Result A) :
  (forall db, snd (m db) = db) ->
  onDb m s = (r, s') -> s' = s /\ r = fst (m (worldStateDb s)).
Proof.
  intros Hread. unfold onDb. specialize (Hread (worldStateDb s)).
  destruct (m (worldStateDb s)) as [r0 db]. simpl in *. subst db.
  rewrite withDb_same. by intros [= <- <-].
Qed.

Lemma onDb_put_inv id key value (s s' : ServerState) u :
  onDb (put id key value) s = (Ok u, s') ->
  s' = withDb (stage [(id, key, value)] (worldStateDb s)) s.
Proof.
  unfold onDb. destruct (put id key value (worldStateDb s)) as [r db] eqn:E.
  intros [= -> <-]. apply put_inv in E as [Hc [[_ Ho]|[[e He] _]]]; [|discriminate].
  f_equal. unfold stage. simpl. destruct db as [c o]. simpl in *. by subst.
Qed.

Lemma getHashPath_data key db :
  getHashPath 0 key db =
    (if inRange (dataTree (staged db)) key
     then Ok (hashPathOf (dataTree (staged db)) key) else keyOutOfRange, db).
Proof. unfold getHashPath. simpl. by destruct (inRange _ _). Qed.

Local Ltac read_step H :=
  let a := fresh "a" in let s1 := fresh "s" in let Hs := fresh "Hs" in
  apply bind_ok_inv in H as (a & s1 & Hs & H);
  first [ apply (onDb_read_inv _ _ _ _ (getHashPath_state _ _)) in Hs as [-> Hs]
        | apply (onDb_read_inv _ _ _ _ (getRoot_state _)) in Hs as [-> Hs]
        | apply (onDb_read_inv _ _ _ _ (getSize_state _)) in Hs as [-> Hs] ].

Local Ltac put_step H :=
  let a := fresh "a" in let s1 := fresh "s" in let Hs := fresh "Hs" in
  apply bind_ok_inv in H as (a & s1 & Hs & H);
  apply onDb_put_inv in Hs; subst s1.

(** A completed turn of the loop of [createRollup] has staged the puts of
    its transaction and moved [nextDataIndex] by two. *)
Lemma rollupTx_inv (acc acc' : RollupAcc) (p : JoinSplitProof) (s s' : ServerState) :
  rollupTx acc p s = (Ok acc', s') ->
  s' = withDb (stage (txPuts (nextDataIndex acc) p) (worldStateDb s)) s /\
  nextDataIndex acc' = nextDataIndex acc + 2.
Proof.
  unfold rollupTx. intros Hrun.
  put_step Hrun. put_step Hrun. read_step Hrun. put_step Hrun.
  read_step Hrun. read_step Hrun. read_step Hrun. put_step Hrun.
  read_step Hrun. read_step Hrun. read_step Hrun.
  unfold ret in Hrun. inversion Hrun; subst. simpl.
  rewrite !stage_app. simpl. done.
Qed.

Lemma rollupTxs_inv (txs : list JoinSplitProof) :
  forall (acc acc' : RollupAcc) (s s' : ServerState),
    rollupTxs acc txs s = (Ok acc', s') ->
    s' = withDb (stage (batchPuts (nextDataIndex acc) txs) (worldStateDb s)) s.
Proof.
  induction txs as [|p rest IH]; intros acc acc' s s' Hrun; simpl in Hrun.
  - inversion Hrun; subst. simpl. by rewrite stage_nil, withDb_same.
  - apply bind_ok_inv in Hrun as (acc1 & s1 & Hstep & Hrun).
    apply rollupTx_inv in Hstep as [-> Hnext].
    apply IH in Hrun. subst s'. simpl. rewrite Hnext.
    by rewrite stage_app.
Qed.

(** What a completed [createRollup] has done: it read the size and the
    old roots and path, staged the puts of the batch, read the new path
    and root, picked the rollup root out of the new path, and rolled
    back. *)
Lemma createRollup_inv (txs : list JoinSplitProof) (s s' : ServerState) (r : Rollup) :
  createRollup txs s = (Ok r, s') ->
  let db := worldStateDb s in
  let start := size (dataTree (staged db)) in
  let after := stage (batchPuts start txs) db in
  s' = withDb {| committed := committed db; overlay := [] |} s /\
  inRange (dataTree (staged db)) start = true /\
  rollupId r = nextRollupId s /\
  rollupDataStartIndex r = start /\
  proofs r = map proofData txs /\
  oldDataRoot r = treeRoot (dataTree (staged db)) /\
  oldDataPath r = hashPathOf (dataTree (staged db)) start /\
  oldNullRoot r = treeRoot (nullTree (staged db)) /\
  oldRootRoot r = treeRoot (rootTree (staged db)) /\
  newDataRoot r = treeRoot (dataTree (staged after)) /\
  newDataPath r = hashPathOf (dataTree (staged after)) start /\
  exists (height : nat) (level : list Buffer),
    rollupRootHeight (rollupSize s) = Some height /\
    newDataPath r !! height = Some level /\
    rollupRoot r = arrayIndex (rootIndex start (rollupSize s)) ≫= (level !!.).
Proof.
  intros Hrun. cbv zeta. unfold createRollup in Hrun.
  read_step Hrun. unfold getSize in Hs. simpl in Hs. inversion Hs; subst a; clear Hs.
  read_step Hrun. unfold getRoot in Hs. simpl in Hs. inversion Hs; subst a; clear Hs.
  read_step Hrun. rewrite getHashPath_data in Hs. simpl in Hs.
  match type of Hs with context [if ?c then _ else _] =>
    destruct c eqn:Hstart; [|discriminate] end.
  inversion Hs; subst a; clear Hs.
  read_step Hrun. unfold getRoot in Hs. simpl in Hs. inversion Hs; subst a; clear Hs.
  read_step Hrun. unfold getRoot in Hs. simpl in Hs. inversion Hs; subst a; clear Hs.
  apply bind_ok_inv in Hrun as (acc & s1 & Hloop & Hrun).
  apply rollupTxs_inv in Hloop. simpl in Hloop. subst s1.
  read_step Hrun. rewrite getHashPath_data in Hs. simpl in Hs.
  match type of Hs with context [if ?c then _ else _] =>
    destruct c eqn:Hstart'; [|discriminate] end.
  inversion Hs; subst a; clear Hs.
  apply bind_ok_inv in Hrun as (sz & s1 & Hsz & Hrun).
  unfold gets in Hsz. inversion Hsz; subst sz s1; clear Hsz. simpl rollupSize in Hrun.
  destruct (rollupRootHeight (rollupSize s)) as [height|] eqn:Hh; simpl in Hrun;
    [|discriminate].
  match type of Hrun with context [match ?c with Some _ => _ | None => _ end] =>
    destruct c as [level|] eqn:Hl; [|discriminate] end.
  read_step Hrun. unfold getRoot in Hs. simpl in Hs. inversion Hs; subst a; clear Hs.
  apply bind_ok_inv in Hrun as (u & s1 & Hrb & Hrun).
  unfold onDb, rollback in Hrb. simpl in Hrb. inversion Hrb; subst u s1; clear Hrb.
  apply bind_ok_inv in Hrun as (nid & s1 & Hid & Hrun).
  unfold gets in Hid. inversion Hid; subst nid s1; clear Hid.
  unfold ret in Hrun. inversion Hrun; subst r s'; clear Hrun. simpl.
  repeat (split; [reflexivity|]).
  exists height, level. done.
Qed.

Lemma onDb_put_ok id key value (s : ServerState) :
  putInRange (committed (worldStateDb s)) (id, key, value) = true ->
  onDb (put id key value) s =
    (Ok tt, withDb (stage [(id, key, value)] (worldStateDb s)) s).
Proof. apply (onDb_put_stage (id, key, value)). Qed.

Lemma onDb_getHashPath_ok id key value (s : ServerState) :
  putInRange (committed (worldStateDb s)) (id, key, value) = true ->
  exists path, onDb (getHashPath id key) s = (Ok path, s).
Proof.
  unfold putInRange. simpl. intros Hr.
  destruct (getTree id (committed (worldStateDb s))) as [t|] eqn:Ht; [|discriminate].
  destruct (inRange_staged id _ t key Ht) as (t' & Ht' & Hin & _).
  exists (hashPathOf t' key). unfold onDb, getHashPath.
  rewrite Ht', Hin, Hr. by rewrite withDb_same.
Qed.

Lemma onDb_getRoot_null s :
  onDb (getRoot 1) s = (Ok (treeRoot (nullTree (staged (worldStateDb s)))), s).
Proof. unfold onDb, getRoot. simpl. by rewrite withDb_same. Qed.

Lemma onDb_getRoot_root s :
  onDb (getRoot 2) s = (Ok (treeRoot (rootTree (staged (worldStateDb s)))), s).
Proof. unfold onDb, getRoot. simpl. by rewrite withDb_same. Qed.

Local Ltac path_step Hr :=
  match goal with
  | |- context [bind (onDb (getHashPath ?id ?key)) _ ?st] =>
      let path := fresh "path" in let Hpath := fresh "Hpath" in
      destruct (onDb_getHashPath_ok id key (alloc 64) st Hr) as [path Hpath];
      erewrite bind_ok; [|exact Hpath]; clear Hpath
  end.

(** When its keys are leaf indices, a turn of the loop completes. *)
Lemma rollupTx_ok (acc : RollupAcc) (p : JoinSplitProof) (s : ServerState) :
  txInRange (committed (worldStateDb s)) (nextDataIndex acc) p = true ->
  exists acc',
    rollupTx acc p s =
      (Ok acc', withDb (stage (txPuts (nextDataIndex acc) p) (worldStateDb s)) s) /\
    nextDataIndex acc' = nextDataIndex acc + 2.
Proof.
  unfold txInRange. rewrite andb_true_iff. intros [Hputs Hroot].
  simpl in Hputs. rewrite !andb_true_iff in Hputs.
  destruct Hputs as (Hp1 & Hp2 & Hp3 & Hp4 & _).
  assert (Hroot' : putInRange (committed (worldStateDb s))
                     (2, toBigIntBE (slice (noteTreeRoot p) 16 None), alloc 64) = true)
    by exact Hroot.
  unfold rollupTx.
  erewrite bind_ok; [|apply onDb_put_ok; exact Hp1].
  erewrite bind_ok; [|apply onDb_put_ok; exact Hp2].
  path_step Hp3.
  erewrite bind_ok; [|apply onDb_put_ok; exact Hp3].
  erewrite bind_ok; [|apply onDb_getRoot_null].
  path_step Hp3. path_step Hp4.
  erewrite bind_ok; [|apply onDb_put_ok; exact Hp4].
  erewrite bind_ok; [|apply onDb_getRoot_null].
  path_step Hp4. path_step Hroot'.
  eexists. split.
  - unfold ret. apply (f_equal2 pair); [reflexivity|].
    simpl worldStateDb. rewrite !stage_app. reflexivity.
  - reflexivity.
Qed.

Lemma rollupTxs_ok (txs : list JoinSplitProof) :
  forall (acc : RollupAcc) (s : ServerState),
    batchInRange (committed (worldStateDb s)) (nextDataIndex acc) txs = true ->
    exists acc',
      rollupTxs acc txs s =
        (Ok acc', withDb (stage (batchPuts (nextDataIndex acc) txs) (worldStateDb s)) s).
Proof.
  induction txs as [|p rest IH]; intros acc s Hr; simpl.
  - exists acc. by rewrite stage_nil, withDb_same.
  - simpl in Hr. apply andb_true_iff in Hr as [Hp Hrest].
    destruct (rollupTx_ok acc p s Hp) as (acc1 & Hstep & Hnext).
    erewrite bind_ok; [|exact Hstep].
    destruct (IH acc1 (withDb (stage (txPuts (nextDataIndex acc) p) (worldStateDb s)) s))
      as (acc' & Hrun).
    { rewrite Hnext. exact Hrest. }
    exists acc'. rewrite Hrun. simpl. by rewrite Hnext, stage_app.
Qed.

(** [createRollup] completes when the data tree has room at its end, the
    keys of the batch are leaf indices, [rollupSize] is a power of two and
    the level of the rollup root exists in the tree. *)
Lemma createRollup_returns (txs : list JoinSplitProof) (s : ServerState) (height : nat) :
  let db := worldStateDb s in
  let start := size (dataTree (staged db)) in
  inRange (dataTree (committed db)) start = true ->
  batchInRange (committed db) start txs = true ->
  rollupRootHeight (rollupSize s) = Some height ->
  (height <= depth (dataTree (committed db)))%nat ->
  exists r, createRollup txs s =
              (Ok r, withDb {| committed := committed db; overlay := [] |} s).
Proof.
  intros db start Hstart Hbatch Hh Hdepth.
  assert (Hstart0 : putInRange (committed (worldStateDb s)) (0, start, alloc 64) = true)
    by exact Hstart.
  unfold createRollup.
  erewrite bind_ok; [|unfold onDb, getSize; simpl; rewrite withDb_same; reflexivity].
  erewrite bind_ok; [|apply onDb_getRoot_data].
  path_step Hstart0.
  erewrite bind_ok; [|apply onDb_getRoot_null].
  erewrite bind_ok; [|apply onDb_getRoot_root].
  match goal with |- context [rollupTxs ?acc0 txs] =>
    destruct (rollupTxs_ok txs acc0 s Hbatch) as (acc' & Hloop) end.
  erewrite bind_ok; [|exact Hloop]. simpl nextDataIndex.
  fold db. fold start.
  set (after := stage (batchPuts start txs) db).
  erewrite bind_ok.
  2:{ unfold onDb. rewrite getHashPath_data. simpl worldStateDb.
      destruct (inRange_staged 0 after _ start eq_refl) as (t' & Ht' & Hin & _).
      unfold getTree in Ht'. simpl in Ht'. inversion Ht'; subst t'.
      rewrite Hin. simpl committed. fold db. rewrite Hstart. reflexivity. }
  erewrite bind_ok; [|reflexivity]. cbn [rollupSize withDb]. rewrite Hh.
  cbn [mbind option_bind].
  assert (Hl : exists level,
             hashPathOf (dataTree (staged after)) start !! height = Some level).
  { apply lookup_lt_is_Some. unfold hashPathOf. rewrite length_map, length_seq.
    rewrite depth_staged_data. simpl committed. fold db. lia. }
  destruct Hl as [level Hl]. rewrite Hl.
  erewrite bind_ok; [|apply onDb_getRoot_data].
  eexists. reflexivity.
Qed.

Lemma stageQueue_cases (s : ServerState) :
  stateQueue s = [] \/ exists f rest, stateQueue s = f :: rest.
Proof. destruct (stateQueue s); eauto. Qed.

(** C1. Run on a store without staged puts, as every job of the state
    queue is, a completed [createRollup] leaves the whole server, and with
    it the world state store, exactly as it found them: the puts staged
    for the batch are gone after the final rollback, so the size and the
    root of each of the three trees are what they were, and the only
    product is the returned witness.  It does complete when the data tree
    has room at its end, the keys of the batch are leaf indices and the
    level of the rollup root exists. *)
Theorem createRollup_leaves_store_unchanged (txs : list JoinSplitProof) (s : ServerState) :
  overlay (worldStateDb s) = [] ->
  (forall (r : Rollup) (s' : ServerState),
      createRollup txs s = (Ok r, s') ->
      s' = s /\
      worldStateDb s' = worldStateDb s /\
      forall treeId : Z,
        fst (getSize treeId (worldStateDb s')) = fst (getSize treeId (worldStateDb s)) /\
        fst (getRoot treeId (worldStateDb s')) = fst (getRoot treeId (worldStateDb s))) /\
  (forall height : nat,
      let ts := committed (worldStateDb s) in
      inRange (dataTree ts) (size (dataTree ts)) = true ->
      batchInRange ts (size (dataTree ts)) txs = true ->
      rollupRootHeight (rollupSize s) = Some height ->
      (height <= depth (dataTree ts))%nat ->
      exists r : Rollup, createRollup txs s = (Ok r, s)).
Proof.
  intros Hclean.
  assert (Hsame : withDb {| committed := committed (worldStateDb s); overlay := [] |} s = s).
  { destruct s as [[c o] q1 q2 sz nid reqs]. simpl in *. by subst o. }
  split.
  - intros r s' Hrun. apply createRollup_inv in Hrun as (Hs' & _).
    rewrite Hsame in Hs'. subst s'. done.
  - intros height ts Hstart Hbatch Hh Hdepth.
    pose proof (createRollup_returns txs s height) as Hret. cbv zeta in Hret.
    rewrite (staged_clean _ Hclean) in Hret. rewrite Hsame in Hret.
    by apply Hret.
Qed.

(** A job of the state queue that completes leaves no staged put behind:
    [handleNewBlock] ends with a commit and [rollup] with the rollback of
    [createRollup]. *)
Lemma runJob_clean (job : StateJob) (s s' : ServerState) :
  runJob job s = (Ok tt, s') -> overlay (worldStateDb s') = [].
Proof.
  destruct job as [batch|b]; simpl; intros Hrun.
  - unfold rollup in Hrun. apply bind_ok_inv in Hrun as (r & s1 & Hc & Hm).
    apply createRollup_inv in Hc as (Hs1 & _). subst s1.
    unfold modify in Hm. inversion Hm; subst s'. reflexivity.
  - unfold handleNewBlock in Hrun.
    do 5 (apply bind_ok_inv in Hrun as (? & ? & _ & Hrun)).
    unfold onDb, commit in Hrun. simpl in Hrun. inversion Hrun; subst s'. reflexivity.
Qed.

(** So every job that [processStateQueue] starts finds a store without
    staged puts, and so does whoever comes after the loop. *)
Lemma processStateQueue_clean (turns : nat) :
  forall s s' : ServerState,
    overlay (worldStateDb s) = [] ->
    processStateQueue turns s = (Ok tt, s') ->
    overlay (worldStateDb s') = [].
Proof.
  induction turns as [|n IH]; intros s s' Hclean Hrun; simpl in Hrun.
  - by inversion Hrun; subst.
  - destruct (stageQueue_cases s) as [Hq|(f & rest & Hq)]; rewrite Hq in Hrun.
    + by inversion Hrun; subst.
    + apply bind_ok_inv in Hrun as ([] & s1 & Hjob & Hrun).
      apply runJob_clean in Hjob. eauto.
Qed.

(** The index arithmetic of [createRollup]: for a data start index that
    is a non-negative multiple of twice the rollup size, the quotient is
    exact and its remainder by two is an array index. *)
Lemma rootIndex_multiple (dataStartIndex size : Z) :
  0 < size -> 0 <= dataStartIndex -> dataStartIndex mod (2 * size) = 0 ->
  arrayIndex (rootIndex dataStartIndex size) =
    Some (Z.to_nat ((dataStartIndex / (2 * size)) mod 2)).
Proof.
  intros Hsize Hstart Hmod. unfold rootIndex.
  set (m := dataStartIndex / (2 * size)).
  assert (Hm : dataStartIndex = m * (size * 2)).
  { unfold m. pose proof (Z.div_mod dataStartIndex (2 * size)). lia. }
  assert (Hm0 : 0 <= m) by (unfold m; apply Z.div_pos; lia).
  rewrite Hm at 1. rewrite div_ofZ_exact by lia.
  rewrite rem_ofZ by lia. rewrite Z.rem_mod_nonneg by lia.
  apply arrayIndex_ofZ. apply Z.mod_pos_bound. lia.
Qed.

(** The rollup root of a completed [createRollup], under the two
    preconditions on [rollupSize] and on the data tree size at entry. *)
Lemma rollupRoot_entry (txs : list JoinSplitProof) (s s' : ServerState)
        (r : Rollup) (k : nat) :
  rollupSize s = 2 ^ Z.of_nat k ->
  let db := worldStateDb s in
  let dataStartIndex := size (dataTree (staged db)) in
  let posted := dataTree (staged (stage (batchPuts dataStartIndex txs) db)) in
  dataStartIndex mod (2 * rollupSize s) = 0 ->
  createRollup txs s = (Ok r, s') ->
  rollupDataStartIndex r = dataStartIndex /\
  newDataPath r = hashPathOf posted dataStartIndex /\
  exists (level : list Buffer) (root : Buffer),
    hashPathOf posted dataStartIndex !! S k = Some level /\
    level !! Z.to_nat ((dataStartIndex / (2 * rollupSize s)) mod 2) = Some root /\
    rollupRoot r = Some root /\
    root = node posted (S k) (dataStartIndex / (2 * rollupSize s)).
Proof.
  intros Hsize db dataStartIndex posted Hmod Hrun.
  apply createRollup_inv in Hrun
    as (_ & Hstart & _ & Hidx & _ & _ & _ & _ & _ & _ & Hpath & height & level & Hh & Hl & Hroot).
  fold db in Hstart, Hidx, Hpath, Hroot. fold dataStartIndex in Hstart, Hidx, Hpath, Hroot.
  fold posted in Hpath.
  assert (Hpos : 0 < rollupSize s) by (rewrite Hsize; apply Z.pow_pos_nonneg; lia).
  assert (Hnn : 0 <= dataStartIndex).
  { unfold inRange in Hstart. apply andb_true_iff in Hstart as [Hlo _].
    by apply Z.leb_le in Hlo. }
  unfold rollupRootHeight in Hh. rewrite Hsize, log2Index_pow2 in Hh.
  simpl in Hh. inversion Hh; subst height; clear Hh.
  split; [done|]. split; [done|].
  rewrite Hpath in Hl.
  assert (Hlevel : level = pathEntry posted dataStartIndex (S k)).
  { unfold hashPathOf in Hl. rewrite list_lookup_fmap in Hl.
    destruct (seq 0 (S (depth posted)) !! S k) as [j|] eqn:Ej; [|discriminate].
    apply lookup_seq in Ej as [-> _]. simpl in Hl. by inversion Hl. }
  rewrite (rootIndex_multiple _ _ Hpos Hnn Hmod) in Hroot. simpl in Hroot.
  set (m := dataStartIndex / (2 * rollupSize s)) in *.
  assert (Hparent : dataStartIndex / 2 ^ Z.of_nat (S (S k)) = m / 2).
  { unfold m. rewrite Hsize, Z.div_div by lia. f_equal.
    rewrite (Nat2Z.inj_succ (S k)), Z.pow_succ_r by lia.
    rewrite (Nat2Z.inj_succ k), Z.pow_succ_r by lia. lia. }
  assert (Hcases : m mod 2 = 0 \/ m mod 2 = 1).
  { pose proof (Z.mod_pos_bound m 2). lia. }
  pose proof (Z.div_mod m 2) as Hdm.
  unfold pathEntry in Hlevel. rewrite Hparent in Hlevel.
  remember (node posted (S k) (2 * (m / 2))) as left eqn:Hleft.
  remember (node posted (S k) (2 * (m / 2) + 1)) as right eqn:Hright.
  remember (node posted (S k) m) as top eqn:Htop.
  exists level. subst level.
  destruct Hcases as [Hc|Hc]; rewrite Hc in *; simpl in Hroot |- *.
  - exists left. split; [done|]. split; [done|]. split; [done|].
    subst left top. f_equal. lia.
  - exists right. split; [done|]. split; [done|]. split; [done|].
    subst right top. f_equal. lia.
Qed.

(** C9. When [rollupSize] is a power of two and the data tree size found
    at entry, [dataStartIndex], is a multiple of twice the rollup size,
    the [rollupRoot] of the witness that [createRollup] returns is entry
    [(dataStartIndex / (2 * rollupSize)) mod 2] of level
    [log2(rollupSize) + 1] of the hash path of index [dataStartIndex]
    taken after the puts of the batch; that entry is the node of this
    level above [dataStartIndex], the root of the subtree of
    [2 * rollupSize] leaves that starts there.  [createRollup] does return
    a witness when the data tree has room at its end, the keys of the batch
    are leaf indices and the tree is at least as deep as that level. *)
Theorem createRollup_rollupRoot (txs : list JoinSplitProof) (s : ServerState) (k : nat) :
  rollupSize s = 2 ^ Z.of_nat k ->
  let db := worldStateDb s in
  let dataStartIndex := size (dataTree (staged db)) in
  let posted := dataTree (staged (stage (batchPuts dataStartIndex txs) db)) in
  dataStartIndex mod (2 * rollupSize s) = 0 ->
  (forall (r : Rollup) (s' : ServerState),
      createRollup txs s = (Ok r, s') ->
      rollupDataStartIndex r = dataStartIndex /\
      newDataPath r = hashPathOf posted dataStartIndex /\
      exists (level : list Buffer) (root : Buffer),
        newDataPath r !! S k = Some level /\
        level !! Z.to_nat ((dataStartIndex / (2 * rollupSize s)) mod 2) = Some root /\
        rollupRoot r = Some root /\
        root = node posted (S k) (dataStartIndex / (2 * rollupSize s))) /\
  (inRange (dataTree (committed db)) dataStartIndex = true ->
   batchInRange (committed db) dataStartIndex txs = true ->
   (S k <= depth (dataTree (committed db)))%nat ->
   exists (r : Rollup) (s' : ServerState), createRollup txs s = (Ok r, s')).
Proof.
  intros Hsize db dataStartIndex posted Hmod. split.
  - intros r s' Hrun.
    destruct (rollupRoot_entry txs s s' r k Hsize Hmod Hrun)
      as (Hidx & Hpath & level & root & Hlevel & Hentry & Hroot & Hnode).
    split; [exact Hidx|]. split; [exact Hpath|].
    exists level, root. rewrite Hpath. done.
  - intros Hstart Hbatch Hdepth.
    destruct (createRollup_returns txs s (S k) Hstart Hbatch) as [r Hrun].
    + unfold rollupRootHeight. by rewrite Hsize, log2Index_pow2.
    + exact Hdepth.
    + eauto.
Qed.

End RollupBuilder.

(** ** The theorems at concrete inputs *)

Section Examples.
Import WorldState Server Writes Samples JsNumber.

(** The padding scenario of the specification. *)
Lemma solidityFormatSignatures_layout_witness :
  length (Contracts.solidityFormatSignatures [signature]) = 96%nat /\
  take 96 (drop 0 (Contracts.solidityFormatSignatures [signature])) =
    replicate 32 xaa ++ replicate 32 xbb ++ replicate 31 x00 ++ [x1b].
Proof.
  destruct (solidityFormatSignatures_layout [signature]) as [Hlen Hrec].
  { repeat constructor. }
  split; [exact Hlen|].
  destruct (Hrec 0%nat signature eq_refl) as [Heq _]. exact Heq.
Defined.

(** Blocks from rollup 8 on with two confirmations: rollup 7 is before
    the tagged event and rollup 9 is not confirmed enough. *)
Lemma getRollupBlocksFrom_spec_witness :
  @Contracts.getRollupBlocksFrom toyDecoders log 8 2 =
    [@Contracts.decodeBlock toyDecoders (rollupTx 8 2)] /\
  @Contracts.getRollupBlocksFrom toyDecoders log 10 2 = [].
Proof.
  destruct (@getRollupBlocksFrom_spec toyDecoders log 8 2) as [_ Hfrom].
  destruct (@getRollupBlocksFrom_spec toyDecoders log 10 2) as [Hnone _].
  split.
  - destruct (Hfrom (rollupEvent 8 101 2)) as [Heq _]; [reflexivity|].
    rewrite Heq. reflexivity.
  - apply Hnone. intros e He. repeat (apply elem_of_cons in He as [->|He]; [reflexivity|]).
    by apply elem_of_nil in He.
Defined.

(** A proof with fresh nullifiers and a known root is admitted. *)
Lemma receiveTx_admission_witness :
  let proofData := [x01; x02; x00; x01] in
  fst (@receiveTx toyJoinSplit proofData [x0a] [x0b] (server knownRootDb 2))
    = Ok tt /\
  txQueue (snd (@receiveTx toyJoinSplit proofData [x0a] [x0b]
                           (server knownRootDb 2)))
    = [Some (@newJoinSplitProof toyJoinSplit proofData [[x0a]; [x0b]])].
Proof.
  intros proofData.
  destruct (@receiveTx_admission toyJoinSplit proofData [x0a] [x0b]
                                 (server knownRootDb 2))
    as (Hiff & _ & _ & _ & _ & Hqueue & _).
  assert (Hok : fst (@receiveTx toyJoinSplit proofData [x0a] [x0b]
                                (server knownRootDb 2)) = Ok tt).
  { apply Hiff. split; [reflexivity|]. split; [reflexivity|]. split; [|reflexivity].
    exists nonEmptyValue. split; [reflexivity|]. discriminate. }
  split; [exact Hok|]. rewrite (Hqueue Hok). reflexivity.
Defined.

(** The block of the single-deposit scenario: one entry, padded to four. *)
Lemma handleNewBlock_writes_witness :
  0 + 4 <= size (dataTree (committed (worldStateDb
                   (snd (@handleNewBlock toyHasher block (server emptyDb 2)))))).
Proof.
  destruct (@handleNewBlock_writes toyHasher block (server emptyDb 2))
    as (_ & _ & s' & Hrun & _ & Hsize).
  - vm_compute. repeat constructor.
  - right. simpl. lia.
  - rewrite Hrun. exact Hsize.
Defined.

(** A batch of one transaction on the empty store, with [rollupSize = 2]. *)
Lemma createRollup_leaves_store_unchanged_witness :
  exists r : Rollup,
    @createRollup toyHasher [tx 1 2 0] (server emptyDb 2) = (Ok r, server emptyDb 2).
Proof.
  destruct (@createRollup_leaves_store_unchanged toyHasher [tx 1 2 0] (server emptyDb 2)
              eq_refl) as [_ Hreturns].
  apply (Hreturns 2%nat); reflexivity || (simpl; lia).
Defined.

Lemma createRollup_rollupRoot_witness :
  exists (r : Rollup) (s' : ServerState),
    @createRollup toyHasher [tx 1 2 0] (server emptyDb 2) = (Ok r, s') /\
    rollupRoot r =
      Some (@node toyHasher
              (dataTree (staged (stage (batchPuts 0 [tx 1 2 0]) emptyDb))) 2 0).
Proof.
  destruct (@createRollup_rollupRoot toyHasher [tx 1 2 0] (server emptyDb 2) 1%nat
              eq_refl eq_refl) as [Hentry Hreturns].
  destruct Hreturns as (r & s' & Hrun); [reflexivity|reflexivity|simpl; lia|].
  exists r, s'. split; [exact Hrun|].
  destruct (Hentry r s' Hrun) as (_ & _ & level & root & _ & _ & Hroot & Hnode).
  rewrite Hroot, Hnode. reflexivity.
Defined.

End Examples.

(** ** Fees *)

Section Fees.
Import JsNumber FeeCalculator.
Context `{PriceTracker} (this : Config).







Lemma leb_le (x y : Qc) : leb x y = true <-> (x <= y)%Qc.
Proof.
  unfold leb. rewrite Qcle_alt. destruct (x ?= y)%Qc; split; congruence.
Qed.

Lemma leb_gt (x y : Qc) : leb x y = false <-> (y < x)%Qc.
Proof.
  rewrite Qclt_nge, <- leb_le. destruct (leb x y); split; congruence.
Qed.











End Fees.

Section FeeExamples.
Import JsNumber FeeCalculator Samples.







End FeeExamples.

(* ===================================================================== *)
(** * Part III: further properties of the code                           *)
(* ===================================================================== *)

(** ** Signatures of any length *)

Section SignaturesAnyLength.
Import Contracts.

Lemma slice_prefix_any (b : Buffer) (n : nat) : slice b 0 (Some (Z.of_nat n)) = take n b.
Proof.
  destruct (decide (n <= length b)%nat) as [Hle|Hgt]; [by apply slice_prefix|].
  unfold slice, relIndex. simpl default.
  replace (0 <? 0) with false by reflexivity.
  destruct (Z.of_nat n <? 0) eqn:E; [apply Z.ltb_lt in E; lia|].
  rewrite (Z.min_r (Z.of_nat n)) by lia. rewrite (Z.min_l 0) by lia.
  simpl Z.to_nat. rewrite drop_0, Z.sub_0_r, Nat2Z.id.
  rewrite !take_ge by lia. reflexivity.
Qed.

Lemma slice_last_any (b : Buffer) : slice b (-1) None = drop (length b - 1) b.
Proof.
  destruct b as [|x b]; [reflexivity|]. apply slice_last. simpl. lia.
Qed.

(** X1. [solidityFormatSignatures] does not look at the length of a
    signature: each one becomes its first 64 bytes (all of it, if it is
    shorter), 31 zero bytes and its last byte (nothing, if it is empty).
    A record is 96 bytes long exactly when the signature has at least 64
    bytes, and a 64-byte signature is followed by its own last byte in
    the place of [v]. *)
Theorem solidityFormatSignatures_any_length (signatures : list Buffer) :
  solidityFormatSignatures signatures =
    List.concat (map (fun sig => take 64 sig ++ alloc 31 ++ drop (length sig - 1) sig)
                     signatures) /\
  (forall sig : Buffer,
      length (padSignature sig) = (Nat.min 64 (length sig) + 31 + Nat.min 1 (length sig))%nat /\
      (length (padSignature sig) = 96%nat <-> (64 <= length sig)%nat)) /\
  (forall sig : Buffer,
      length sig = 64%nat -> padSignature sig = sig ++ alloc 31 ++ drop 63 sig).
Proof.
  assert (Hpad : forall sig, padSignature sig =
                             take 64 sig ++ alloc 31 ++ drop (length sig - 1) sig).
  { intros sig. unfold padSignature, Buf.concat. simpl List.concat.
    change 64 with (Z.of_nat 64). rewrite slice_prefix_any, slice_last_any.
    by rewrite app_nil_r. }
  assert (Hlen : forall sig, length (padSignature sig) =
                             (Nat.min 64 (length sig) + 31 + Nat.min 1 (length sig))%nat).
  { intros sig. rewrite Hpad, !length_app, length_take, length_alloc, length_drop. lia. }
  split; [|split].
  - unfold solidityFormatSignatures, Buf.concat. f_equal.
    apply map_ext. exact Hpad.
  - intros sig. split; [apply Hlen|]. rewrite Hlen. lia.
  - intros sig H64. rewrite Hpad, H64. by rewrite take_ge by lia.
Qed.

End SignaturesAnyLength.

(** ** Bounds on the batches *)

Section BatchBounds.
Import Server BatchSpec.

(** Over a run that starts with fewer than [rollupSize] pending
    transactions, no batch is larger than [rollupSize]. *)
Lemma txLoop_sizes (maxRollupWaitTime : Z) (clock : list (Z * Z)) :
  forall (st : TxLoop) (s : ServerState),
    Z.of_nat (length (txs st)) < rollupSize s ->
    exists batches : list (list JoinSplitProof),
      let '(st', s') := txLoop maxRollupWaitTime clock st s in
      stateQueue s' = stateQueue s ++ map RollupJob batches /\
      Forall (fun b => 1 <= Z.of_nat (length b) <= rollupSize s) batches /\
      Z.of_nat (length (txs st')) < rollupSize s.
Proof.
  induction clock as [|[now now'] clock IH]; intros st s Hinv.
  - exists []. simpl. by rewrite app_nil_r.
  - simpl txLoop. destruct (txQueue s) as [|tx rest] eqn:Eq.
    { exists []. simpl. by rewrite app_nil_r. }
    rewrite loopBody_cases.
    set (pending := match tx with Some p => txs st ++ [p] | None => txs st end).
    assert (Hpend : Z.of_nat (length pending) <= rollupSize s).
    { unfold pending. destruct tx; [rewrite length_app; simpl|]; lia. }
    destruct (shouldRollup _ _ _ _ _ _) eqn:Eclose.
    + apply shouldRollup_iff in Eclose as [Hne _].
      match goal with |- context [txLoop _ _ ?st1 ?s1] =>
        destruct (IH st1 s1) as (batches & Hrun); [simpl; lia|] end.
      exists (pending :: batches).
      destruct (txLoop _ _ _ _) as [st' s'].
      destruct Hrun as (Hq & Hall & Hlen). simpl in *.
      split; [by rewrite Hq, <- app_assoc|].
      split; [|exact Hlen].
      constructor; [|exact Hall].
      destruct pending; [done|]. simpl length in *. lia.
    + assert (Hlt : Z.of_nat (length pending) < rollupSize s).
      { destruct (decide (Z.of_nat (length pending) = rollupSize s)) as [Heq|Hneq]; [|lia].
        assert (Hclose : shouldRollup (rollupSize (withTxQueue rest s)) maxRollupWaitTime tx
                                      pending (lastTxReceivedTime st) now = true).
        { apply shouldRollup_iff. split; [|right; left; exact Heq].
          destruct pending; [simpl in Heq; simpl in Hinv; lia|done]. }
        congruence. }
      match goal with |- context [txLoop _ _ ?st1 ?s1] =>
        destruct (IH st1 s1) as (batches & Hrun); [exact Hlt|] end.
      exists batches.
      destruct (txLoop _ _ _ _) as [st' s']. exact Hrun.
Qed.

(** X2. With a rollup size of at least one, every batch that
    [processTxQueue] puts on the state queue holds between one and
    [rollupSize] transactions, and fewer than [rollupSize] transactions
    are left pending. *)
Theorem processTxQueue_batch_sizes (maxRollupWaitTime minRollupInterval : Z)
        (clock : list (Z * Z)) (s : ServerState) (st' : TxLoop) (s' : ServerState) :
  1 <= rollupSize s ->
  processTxQueue maxRollupWaitTime minRollupInterval clock s = Ok (st', s') ->
  exists batches : list (list JoinSplitProof),
    stateQueue s' = stateQueue s ++ map RollupJob batches /\
    Forall (fun b => 1 <= Z.of_nat (length b) <= rollupSize s) batches /\
    Z.of_nat (length (txs st')) < rollupSize s.
Proof.
  intros Hsize. unfold processTxQueue.
  destruct (maxRollupWaitTime <? minRollupInterval); [discriminate|].
  intros [= Hrun].
  destruct (txLoop_sizes maxRollupWaitTime clock initialLoop s) as (batches & Hb);
    [simpl; lia|].
  rewrite Hrun in Hb. eauto.
Qed.

(** After the turn that takes the flush sentinel nothing is pending. *)
Lemma txLoop_flush (maxRollupWaitTime : Z) (items : list (option JoinSplitProof)) :
  forall (clock : list (Z * Z)) (st : TxLoop) (s : ServerState),
    txQueue s = items ++ [None] ->
    length clock = S (length items) ->
    txs (fst (txLoop maxRollupWaitTime clock st s)) = [].
Proof.
  induction items as [|item items IH]; intros clock st s Hq Hlen.
  - destruct clock as [|[now now'] [|? ?]]; try discriminate.
    simpl in Hq. simpl. rewrite Hq. rewrite loopBody_cases.
    destruct (shouldRollup _ _ _ _ _ _) eqn:E; simpl; [done|].
    destruct (txs st) as [|p l] eqn:Et; [done|].
    assert (Hc : shouldRollup (rollupSize (withTxQueue [] s)) maxRollupWaitTime None
                              (p :: l) (lastTxReceivedTime st) now = true).
    { apply shouldRollup_iff. split; [done|]. by left. }
    congruence.
  - destruct clock as [|[now now'] clock]; [discriminate|].
    simpl in Hq. simpl txLoop. rewrite Hq. rewrite loopBody_cases.
    destruct (shouldRollup _ _ _ _ _ _); apply IH; simpl; auto.
Qed.

(** X3. Once the loop has taken the sentinel that [flushTxs] puts at the
    end of the transaction queue, nothing is pending and the queue is
    empty: every transaction that was queued before the flush has left in
    a batch, in queue order. *)
Theorem flushTxs_dispatches_pending (maxRollupWaitTime minRollupInterval : Z)
        (clock : list (Z * Z)) (s s1 : ServerState) (st' : TxLoop) (s' : ServerState) :
  flushTxs s = (Ok tt, s1) ->
  length clock = length (txQueue s1) ->
  processTxQueue maxRollupWaitTime minRollupInterval clock s1 = Ok (st', s') ->
  txs st' = [] /\
  txQueue s' = [] /\
  exists batches : list (list JoinSplitProof),
    stateQueue s' = stateQueue s ++ map RollupJob batches /\
    List.concat batches = delivered (txQueue s).
Proof.
  unfold flushTxs, modify. intros [= <-]. simpl txQueue. intros Hlen.
  unfold processTxQueue.
  destruct (maxRollupWaitTime <? minRollupInterval); [discriminate|].
  intros [= Hrun].
  set (s1 := withTxQueue (txQueue s ++ [None]) s) in *.
  assert (Hempty : txs st' = []).
  { change st' with (fst (st', s')). rewrite <- Hrun.
    apply (txLoop_flush _ (txQueue s)); [reflexivity|].
    rewrite Hlen, length_app. simpl. lia. }
  destruct (txLoop_order maxRollupWaitTime clock initialLoop s1) as (batches & Hb).
  rewrite Hrun in Hb. destruct Hb as (Hq & _ & Hcat & Htq & _).
  split; [exact Hempty|]. split.
  - rewrite Htq. apply drop_ge. simpl. lia.
  - exists batches. split; [exact Hq|].
    rewrite Hempty, app_nil_r in Hcat. rewrite Hcat. simpl.
    rewrite take_ge by (simpl; lia). unfold delivered.
    rewrite omap_app. simpl. by rewrite app_nil_r.
Qed.

End BatchBounds.

(** ** The trees after a block *)

Section Projection.
Import WorldState Server Writes.
Context `{Hasher}.

Lemma dataTree_applyPut id key value ts :
  dataTree (applyPut (id, key, value) ts) =
    if id =? 0 then writeLeaf key value (dataTree ts) else dataTree ts.
Proof.
  unfold applyPut, getTree, setTree.
  destruct (id =? 0); [done|]. destruct (id =? 1); [done|]. by destruct (id =? 2).
Qed.

Lemma nullTree_applyPut id key value ts :
  nullTree (applyPut (id, key, value) ts) =
    if id =? 1 then writeLeaf key value (nullTree ts) else nullTree ts.
Proof.
  unfold applyPut, getTree, setTree.
  destruct (id =? 0) eqn:E0; [apply Z.eqb_eq in E0; by subst|].
  destruct (id =? 1); [done|]. by destruct (id =? 2).
Qed.

Lemma rootTree_applyPut id key value ts :
  rootTree (applyPut (id, key, value) ts) =
    if id =? 2 then writeLeaf key value (rootTree ts) else rootTree ts.
Proof.
  unfold applyPut, getTree, setTree.
  destruct (id =? 0) eqn:E0; [apply Z.eqb_eq in E0; by subst|].
  destruct (id =? 1) eqn:E1; [apply Z.eqb_eq in E1; by subst|].
  by destruct (id =? 2).
Qed.

Lemma writesTo_snoc id ps p t :
  writesTo id (ps ++ [p]) t =
    if p.1.1 =? id then writeLeaf p.1.2 p.2 (writesTo id ps t) else writesTo id ps t.
Proof. unfold writesTo. by rewrite fold_left_app. Qed.

Lemma writesTo_app id ps1 ps2 t :
  writesTo id (ps1 ++ ps2) t = writesTo id ps2 (writesTo id ps1 t).
Proof. unfold writesTo. by rewrite fold_left_app. Qed.

Lemma dataTree_stage ps db :
  dataTree (staged (stage ps db)) = writesTo 0 ps (dataTree (staged db)).
Proof.
  induction ps as [|[[id key] value] ps IH] using rev_ind; [by rewrite stage_nil|].
  rewrite staged_stage_snoc, dataTree_applyPut, writesTo_snoc, IH. reflexivity.
Qed.

Lemma nullTree_stage ps db :
  nullTree (staged (stage ps db)) = writesTo 1 ps (nullTree (staged db)).
Proof.
  induction ps as [|[[id key] value] ps IH] using rev_ind; [by rewrite stage_nil|].
  rewrite staged_stage_snoc, nullTree_applyPut, writesTo_snoc, IH. reflexivity.
Qed.

Lemma rootTree_stage ps db :
  rootTree (staged (stage ps db)) = writesTo 2 ps (rootTree (staged db)).
Proof.
  induction ps as [|[[id key] value] ps IH] using rev_ind; [by rewrite stage_nil|].
  rewrite staged_stage_snoc, rootTree_applyPut, writesTo_snoc, IH. reflexivity.
Qed.

(** Puts to other trees do not count. *)
Lemma writesTo_filter id ps t :
  writesTo id ps t = writesTo id (List.filter (fun p => p.1.1 =? id) ps) t.
Proof.
  revert t. induction ps as [|p ps IH]; intros t; [done|].
  simpl. destruct (p.1.1 =? id) eqn:E; simpl; rewrite ?E; apply IH.
Qed.

Lemma writesTo_depth id ps t : depth (writesTo id ps t) = depth t.
Proof.
  revert t. induction ps as [|p ps IH]; intros t; [done|].
  simpl. rewrite IH. by destruct (p.1.1 =? id).
Qed.

Lemma inRange_writesTo id ps t k : inRange (writesTo id ps t) k = inRange t k.
Proof. unfold inRange. by rewrite writesTo_depth. Qed.

(** When every put to the tree writes the same value, a leaf holds that
    value if its key was written, and what it held before otherwise. *)
Lemma leafAt_writesTo id ps t (mark : Buffer) (k : Z) :
  Forall (fun p : Put => p.1.1 = id -> p.2 = mark) ps ->
  leafAt (writesTo id ps t) k =
    if bool_decide (k ∈ keysOf id ps) then mark else leafAt t k.
Proof.
  intros Hall. induction ps as [|[[pid key] value] ps IH] using rev_ind.
  - simpl. reflexivity.
  - apply Forall_app in Hall as [Hps Hp]. specialize (IH Hps).
    rewrite writesTo_snoc. unfold keysOf in *. rewrite List.filter_app, map_app. simpl.
    destruct (pid =? id) eqn:E.
    + apply Z.eqb_eq in E. inversion Hp as [|? ? Hv _]; subst. simpl in Hv.
      rewrite (Hv eq_refl). simpl.
      unfold leafAt at 1. simpl.
      destruct (decide (k = key)) as [->|Hne].
      * rewrite lookup_insert_eq. simpl.
        rewrite bool_decide_eq_true_2; [done|]. apply elem_of_app. right. left.
      * rewrite lookup_insert_ne by done. fold (leafAt (writesTo id ps t) k).
        rewrite IH. apply (f_equal (fun b : bool => if b then mark else leafAt t k)).
        apply bool_decide_ext. rewrite elem_of_app, list_elem_of_singleton. tauto.
    + simpl. rewrite app_nil_r. exact IH.
Qed.

End Projection.

Section BlockEffects.
Import WorldState Server Writes.
Context `{Hasher} `{JoinSplit}.

Local Abbreviation allInRange ts ps := (Forall (fun p : Put => putInRange ts p = true) ps).

(** With all its keys in range, [handleNewBlock] stages its puts and
    commits them. *)
Lemma handleNewBlock_run (b : Block) (s : ServerState) :
  let db := worldStateDb s in
  allInRange (committed db) (blockPuts b db) ->
  handleNewBlock b s =
    (Ok tt, withDb {| committed := staged (stage (blockPuts b db) db); overlay := [] |} s).
Proof.
  intros db Hr. unfold blockPuts in Hr.
  set (first := dataPuts (dataStartIndex b) (dataEntries b) ++ padPuts b) in *.
  apply Forall_app in Hr as [Hfirst Hrest].
  apply Forall_app in Hfirst as [Hdata Hpad].
  apply Forall_app in Hrest as [Hroot Hnull].
  unfold handleNewBlock.
  erewrite bind_ok.
  2:{ pose proof (forIndexed_dataPuts (dataStartIndex b) (dataEntries b) 0 s) as Hd.
      rewrite Z.add_0_r in Hd. apply Hd. exact Hdata. }
  erewrite bind_ok.
  2:{ unfold padPuts in Hpad.
      instantiate (1 := withDb (stage first db) s). instantiate (1 := tt).
      unfold first, padPuts.
      destruct (Z.of_nat (length (dataEntries b)) <? numDataEntries b).
      - inversion Hpad as [|p ps Hp _]; subst.
        rewrite (onDb_put_stage (0, dataStartIndex b + numDataEntries b - 1, alloc 64))
          by exact Hp.
        simpl worldStateDb. by rewrite stage_app, withDb_withDb.
      - by rewrite app_nil_r. }
  erewrite bind_ok; [|apply onDb_getRoot_data].
  simpl worldStateDb.
  inversion Hroot as [|p ps Hp _]; subst.
  erewrite bind_ok;
    [|exact (onDb_put_stage (2, _, nonEmptyValue) (withDb (stage first db) s) Hp)].
  erewrite bind_ok; [|apply forEach_nullifierPuts; exact Hnull].
  simpl worldStateDb. unfold onDb, commit. simpl.
  rewrite !stage_app. unfold blockPuts. fold first. reflexivity.
Qed.

Lemma keysOf_app id ps1 ps2 : keysOf id (ps1 ++ ps2) = keysOf id ps1 ++ keysOf id ps2.
Proof. unfold keysOf. by rewrite List.filter_app, map_app. Qed.

Lemma keysOf_other id ps :
  Forall (fun p : Put => p.1.1 <> id) ps -> keysOf id ps = [].
Proof.
  unfold keysOf. induction 1 as [|p ps Hp _ IH]; [done|].
  simpl. destruct (p.1.1 =? id) eqn:E; [apply Z.eqb_eq in E; done|]. exact IH.
Qed.

Lemma writesTo_other id ps t :
  Forall (fun p : Put => p.1.1 <> id) ps -> writesTo id ps t = t.
Proof.
  intros Hall. revert t. induction Hall as [|p ps Hp _ IH]; intros t; [done|].
  simpl. destruct (p.1.1 =? id) eqn:E; [apply Z.eqb_eq in E; done|]. apply IH.
Qed.

Lemma dataPuts_tree i entries : Forall (fun p : Put => p.1.1 = 0) (dataPuts i entries).
Proof.
  revert i. induction entries as [|e rest IH]; intros i; simpl; constructor; [done|apply IH].
Qed.

Lemma padPuts_tree b : Forall (fun p : Put => p.1.1 = 0) (padPuts b).
Proof. unfold padPuts. destruct (_ <? _); repeat constructor. Qed.

Lemma nullifierPuts_tree b : Forall (fun p : Put => p.1.1 = 1) (nullifierPuts b).
Proof. unfold nullifierPuts. apply Forall_map. by apply Forall_true. Qed.

Lemma nullifierPuts_value b :
  Forall (fun p : Put => p.2 = nonEmptyValue) (nullifierPuts b).
Proof. unfold nullifierPuts. apply Forall_map. by apply Forall_true. Qed.

Lemma keysOf_nullifierPuts b : keysOf 1 (nullifierPuts b) = map toBigIntBE (nullifiers b).
Proof.
  unfold keysOf, nullifierPuts. induction (nullifiers b) as [|n ns IH]; [done|].
  simpl. by rewrite IH.
Qed.

Local Ltac other_tree :=
  eapply Forall_impl; [first [apply dataPuts_tree | apply padPuts_tree
                             | apply nullifierPuts_tree]|];
  simpl; intros; lia.

(** What the three trees hold after a block, read through [get] and
    [getRoot]. *)
Lemma handleNewBlock_reads (b : Block) (s : ServerState) :
  let db := worldStateDb s in
  overlay db = [] ->
  allInRange (committed db) (blockPuts b db) ->
  exists (s' : ServerState) (dataRoot : Buffer),
    handleNewBlock b s = (Ok tt, s') /\
    s' = withDb (worldStateDb s') s /\
    fst (getRoot 0 (worldStateDb s')) = Ok dataRoot /\
    (forall k : Z,
        fst (get 1 k (worldStateDb s')) =
          if bool_decide (k ∈ map toBigIntBE (nullifiers b)) then Ok nonEmptyValue
          else fst (get 1 k db)) /\
    (forall k : Z,
        fst (get 2 k (worldStateDb s')) =
          if bool_decide (k = toBigIntBE (slice dataRoot 16 None)) then Ok nonEmptyValue
          else fst (get 2 k db)).
Proof.
  intros db Hclean Hr.
  pose proof (handleNewBlock_run b s Hr) as Hrun. fold db in Hrun.
  set (first := dataPuts (dataStartIndex b) (dataEntries b) ++ padPuts b).
  set (dataRoot := treeRoot (dataTree (staged (stage first db)))).
  assert (Hputs : blockPuts b db =
                  first ++ [(2, toBigIntBE (slice dataRoot 16 None), nonEmptyValue)]
                        ++ nullifierPuts b) by reflexivity.
  assert (Hfirst : Forall (fun p : Put => p.1.1 = 0) first).
  { apply Forall_app. split; [apply dataPuts_tree|apply padPuts_tree]. }
  eexists. exists dataRoot. split; [exact Hrun|]. split; [reflexivity|].
  simpl worldStateDb.
  split; [|split].
  - unfold getRoot, staged. simpl. f_equal. unfold dataRoot. f_equal.
    change (foldr applyPut (committed db) (rev (blockPuts b db) ++ overlay db))
      with (staged (stage (blockPuts b db) db)).
    rewrite !dataTree_stage, Hputs, !writesTo_app. simpl writesTo at 2.
    apply writesTo_other. other_tree.
  - intros k. unfold get at 1. simpl.
    rewrite nullTree_stage, (staged_clean _ Hclean).
    rewrite inRange_writesTo.
    rewrite (leafAt_writesTo 1 _ _ nonEmptyValue).
    2:{ rewrite Hputs. apply Forall_app. split.
        - eapply Forall_impl; [exact Hfirst|]. simpl. intros p Hp0 Hp1. lia.
        - constructor; [simpl; lia|].
          eapply Forall_impl; [apply nullifierPuts_value|]. by intros p Hp _. }
    assert (Hkeys : keysOf 1 (blockPuts b db) = map toBigIntBE (nullifiers b)).
    { rewrite Hputs, !keysOf_app, keysOf_other, keysOf_nullifierPuts.
      - reflexivity.
      - eapply Forall_impl; [exact Hfirst|]. simpl. intros; lia. }
    rewrite Hkeys. unfold get. simpl.
    destruct (bool_decide (k ∈ map toBigIntBE (nullifiers b))) eqn:Ek.
    + apply bool_decide_eq_true in Ek.
      assert (Hin : (1, k, nonEmptyValue) ∈ blockPuts b db).
      { rewrite Hputs. apply elem_of_app. right. right.
        unfold nullifierPuts. apply list_elem_of_fmap in Ek as (n & -> & Hn).
        apply list_elem_of_fmap. by exists n. }
      rewrite Forall_forall in Hr. specialize (Hr _ Hin).
      unfold putInRange in Hr. simpl in Hr. by rewrite Hr.
    + by destruct (inRange (nullTree (committed db)) k).
  - intros k. unfold get at 1. simpl.
    rewrite rootTree_stage, (staged_clean _ Hclean).
    rewrite inRange_writesTo.
    rewrite (leafAt_writesTo 2 _ _ nonEmptyValue).
    2:{ rewrite Hputs. apply Forall_app. split.
        - eapply Forall_impl; [exact Hfirst|]. simpl. intros p Hp0 Hp1. lia.
        - constructor; [done|].
          eapply Forall_impl; [apply nullifierPuts_tree|]. simpl. intros; lia. }
    assert (Hkeys : keysOf 2 (blockPuts b db) = [toBigIntBE (slice dataRoot 16 None)]).
    { rewrite Hputs, !keysOf_app, (keysOf_other 2 first), (keysOf_other 2 (nullifierPuts b)).
      - reflexivity.
      - other_tree.
      - eapply Forall_impl; [exact Hfirst|]. simpl. intros; lia. }
    rewrite Hkeys. unfold get. simpl.
    destruct (decide (k = toBigIntBE (slice dataRoot 16 None))) as [->|Hne].
    + rewrite !bool_decide_eq_true_2 by (done || apply list_elem_of_singleton; done).
      assert (Hin : (2, toBigIntBE (slice dataRoot 16 None), nonEmptyValue) ∈ blockPuts b db).
      { rewrite Hputs. apply elem_of_app. right. left. }
      rewrite Forall_forall in Hr. specialize (Hr _ Hin).
      unfold putInRange in Hr. simpl in Hr. by rewrite Hr.
    + rewrite !bool_decide_eq_false_2 by (done || rewrite list_elem_of_singleton; done).
      by destruct (inRange (rootTree (committed db)) k).
Qed.


(** [receiveTx] by its three reads and the verifier. *)
Lemma receiveTx_outcome (proofData encViewingKey1 encViewingKey2 : Buffer) (s : ServerState) :
  let proof := newJoinSplitProof proofData [encViewingKey1; encViewingKey2] in
  let emptyValue := alloc 64 in
  receiveTx proofData encViewingKey1 encViewingKey2 s =
    match fst (get 1 (nullifier1 proof) (worldStateDb s)) with
    | Throw e => (Throw e, s)
    | Ok v1 =>
        if negb (equals v1 emptyValue)
        then (Throw (Error "Nullifier 1 already exists."), s)
        else match fst (get 1 (nullifier2 proof) (worldStateDb s)) with
             | Throw e => (Throw e, s)
             | Ok v2 =>
                 if negb (equals v2 emptyValue)
                 then (Throw (Error "Nullifier 2 already exists."), s)
                 else match fst (get 2 (toBigIntBE (slice (noteTreeRoot proof) 16 None))
                                     (worldStateDb s)) with
                      | Throw e => (Throw e, s)
                      | Ok v3 =>
                          if equals v3 emptyValue
                          then (Throw (Error ("Merkle root does not exist - "
                                                ++ toHex (noteTreeRoot proof))), s)
                          else if negb (verifyProof proofData)
                               then (Throw (Error "Proof verification failed."), s)
                               else (Ok tt, withTxQueue (txQueue s ++ [Some proof]) s)
                      end
             end
    end.
Proof.
  intros proof emptyValue. unfold receiveTx. fold proof. fold emptyValue.
  unfold bind at 1. rewrite onDb_get.
  destruct (fst (get 1 (nullifier1 proof) (worldStateDb s))) as [v1|e1]; [|done].
  destruct (negb (equals v1 emptyValue)); [done|].
  unfold bind at 1. rewrite onDb_get.
  destruct (fst (get 1 (nullifier2 proof) (worldStateDb s))) as [v2|e2]; [|done].
  destruct (negb (equals v2 emptyValue)); [done|].
  unfold bind at 1. rewrite onDb_get.
  destruct (fst (get 2 _ (worldStateDb s))) as [v3|e3]; [|done].
  destruct (equals v3 emptyValue); [done|].
  by destruct (negb (verifyProof proofData)).
Qed.

(** A read fails only with a failure of the store. *)
Lemma get_throws_fatal id key db e :
  fst (get id key db) = Throw e -> exists message, e = Fatal message.
Proof.
  unfold get. destruct (getTree id (committed db)) as [t|].
  - destruct (inRange t key); simpl; [discriminate|]. intros [= <-]. eauto.
  - simpl. intros [= <-]. eauto.
Qed.

Lemma nonEmptyValue_marked : equals nonEmptyValue (alloc 64) = false.
Proof. reflexivity. Qed.

(** X4. After [handleNewBlock] has run on a store without staged puts,
    with all its keys in range: a read of the nullifier tree gives the
    mark (63 zero bytes and a 1) at the key of every nullifier of the
    block and what it gave before at every other key; a read of the root
    tree gives the mark at the key held by bytes 16.. of the new data
    root and what it gave before elsewhere. *)
Theorem handleNewBlock_marks (b : Block) (s : ServerState) :
  let db := worldStateDb s in
  overlay db = [] ->
  allInRange (committed db) (blockPuts b db) ->
  exists (s' : ServerState) (dataRoot : Buffer),
    handleNewBlock b s = (Ok tt, s') /\
    fst (getRoot 0 (worldStateDb s')) = Ok dataRoot /\
    (forall k : Z,
        fst (get 1 k (worldStateDb s')) =
          if bool_decide (k ∈ map toBigIntBE (nullifiers b)) then Ok nonEmptyValue
          else fst (get 1 k db)) /\
    (forall k : Z,
        fst (get 2 k (worldStateDb s')) =
          if bool_decide (k = toBigIntBE (slice dataRoot 16 None)) then Ok nonEmptyValue
          else fst (get 2 k db)).
Proof.
  intros db Hclean Hr.
  destruct (handleNewBlock_reads b s Hclean Hr) as (s' & dataRoot & Hrun & _ & Hroot & Hn & Hk).
  exists s', dataRoot. done.
Qed.

(** X5. After a block, [receiveTx] rejects every proof that spends one of
    its nullifiers: with "Nullifier 1 already exists." when the first
    nullifier is one of them, with "Nullifier 2 already exists." when the
    second is and the first is fresh; in no case is the proof queued.  A
    proof that was rejected for its first nullifier before the block is
    rejected for it after the block. *)
Theorem spent_nullifier_rejected (b : Block) (s : ServerState)
        (proofData encViewingKey1 encViewingKey2 : Buffer) :
  let db := worldStateDb s in
  let proof := newJoinSplitProof proofData [encViewingKey1; encViewingKey2] in
  let spent := map toBigIntBE (nullifiers b) in
  overlay db = [] ->
  allInRange (committed db) (blockPuts b db) ->
  exists s' : ServerState,
    handleNewBlock b s = (Ok tt, s') /\
    (nullifier1 proof ∈ spent ->
     receiveTx proofData encViewingKey1 encViewingKey2 s' =
       (Throw (Error "Nullifier 1 already exists."), s')) /\
    (nullifier2 proof ∈ spent ->
     fst (get 1 (nullifier1 proof) (worldStateDb s')) = Ok (alloc 64) ->
     receiveTx proofData encViewingKey1 encViewingKey2 s' =
       (Throw (Error "Nullifier 2 already exists."), s')) /\
    (nullifier1 proof ∈ spent \/ nullifier2 proof ∈ spent ->
     exists e : Exn,
       receiveTx proofData encViewingKey1 encViewingKey2 s' = (Throw e, s')) /\
    (receiveTx proofData encViewingKey1 encViewingKey2 s =
       (Throw (Error "Nullifier 1 already exists."), s) ->
     receiveTx proofData encViewingKey1 encViewingKey2 s' =
       (Throw (Error "Nullifier 1 already exists."), s')).
Proof.
  intros db proof spent Hclean Hr.
  destruct (handleNewBlock_reads b s Hclean Hr) as (s' & dataRoot & Hrun & _ & _ & Hn & _).
  exists s'. split; [exact Hrun|].
  pose proof (receiveTx_outcome proofData encViewingKey1 encViewingKey2 s') as Hout.
  pose proof (receiveTx_outcome proofData encViewingKey1 encViewingKey2 s) as Hout0.
  cbv zeta in Hout, Hout0. fold proof in Hout, Hout0. subst db.
  pose proof (Hn (nullifier1 proof)) as H1. pose proof (Hn (nullifier2 proof)) as H2.
  fold spent in H1, H2.
  assert (Hfirst : nullifier1 proof ∈ spent ->
                   receiveTx proofData encViewingKey1 encViewingKey2 s' =
                     (Throw (Error "Nullifier 1 already exists."), s')).
  { intros Hin. rewrite bool_decide_eq_true_2 in H1 by done.
    rewrite Hout, H1. by rewrite nonEmptyValue_marked. }
  assert (Hsecond : nullifier2 proof ∈ spent ->
                    fst (get 1 (nullifier1 proof) (worldStateDb s')) = Ok (alloc 64) ->
                    receiveTx proofData encViewingKey1 encViewingKey2 s' =
                      (Throw (Error "Nullifier 2 already exists."), s')).
  { intros Hin Hfresh. rewrite bool_decide_eq_true_2 in H2 by done.
    rewrite Hout, Hfresh, H2. by rewrite nonEmptyValue_marked. }
  split; [exact Hfirst|]. split; [exact Hsecond|]. split.
  - intros [Hin|Hin]; [rewrite (Hfirst Hin); eauto|].
    rewrite bool_decide_eq_true_2 in H2 by done.
    rewrite Hout, H2.
    destruct (fst (get 1 (nullifier1 proof) (worldStateDb s'))) as [v1|e1]; [|eauto].
    destruct (negb (equals v1 (alloc 64))); [eauto|].
    rewrite nonEmptyValue_marked. simpl. eauto.
  - intros Hbefore. rewrite Hout0 in Hbefore. rewrite Hout, H1.
    destruct (bool_decide (nullifier1 proof ∈ spent)); [by rewrite nonEmptyValue_marked|].
    destruct (fst (get 1 (nullifier1 proof) (worldStateDb s))) as [v1|e1]; [|congruence].
    destruct (negb (equals v1 (alloc 64))); [reflexivity|].
    exfalso.
    destruct (fst (get 1 (nullifier2 proof) (worldStateDb s))) as [v2|e2] eqn:E2.
    2:{ apply get_throws_fatal in E2 as [m ->]. congruence. }
    destruct (negb (equals v2 (alloc 64))); [congruence|].
    destruct (fst (get 2 _ (worldStateDb s))) as [v3|e3] eqn:E3.
    2:{ apply get_throws_fatal in E3 as [m ->]. congruence. }
    destruct (equals v3 (alloc 64)); [injection Hbefore; intros; discriminate|].
    destruct (negb (verifyProof proofData)); congruence.
Qed.

(** X6. After a block, [receiveTx] admits a proof whose note tree root is
    the data root just committed, when its nullifiers are fresh and the
    verifier accepts it; and a proof that was admissible before the block
    and spends none of its nullifiers is still admitted. *)
Theorem committed_root_accepted (b : Block) (s : ServerState)
        (proofData encViewingKey1 encViewingKey2 : Buffer) :
  let db := worldStateDb s in
  let proof := newJoinSplitProof proofData [encViewingKey1; encViewingKey2] in
  let spent := map toBigIntBE (nullifiers b) in
  overlay db = [] ->
  allInRange (committed db) (blockPuts b db) ->
  exists (s' : ServerState) (dataRoot : Buffer),
    handleNewBlock b s = (Ok tt, s') /\
    fst (getRoot 0 (worldStateDb s')) = Ok dataRoot /\
    (noteTreeRoot proof = dataRoot ->
     fst (get 1 (nullifier1 proof) (worldStateDb s')) = Ok (alloc 64) ->
     fst (get 1 (nullifier2 proof) (worldStateDb s')) = Ok (alloc 64) ->
     verifyProof proofData = true ->
     receiveTx proofData encViewingKey1 encViewingKey2 s' =
       (Ok tt, withTxQueue (txQueue s' ++ [Some proof]) s')) /\
    (fst (receiveTx proofData encViewingKey1 encViewingKey2 s) = Ok tt ->
     nullifier1 proof ∉ spent -> nullifier2 proof ∉ spent ->
     receiveTx proofData encViewingKey1 encViewingKey2 s' =
       (Ok tt, withTxQueue (txQueue s' ++ [Some proof]) s')).
Proof.
  intros db proof spent Hclean Hr.
  destruct (handleNewBlock_reads b s Hclean Hr)
    as (s' & dataRoot & Hrun & Hs' & Hroot & Hn & Hk).
  exists s', dataRoot. split; [exact Hrun|]. split; [exact Hroot|].
  pose proof (receiveTx_outcome proofData encViewingKey1 encViewingKey2 s') as Hout.
  pose proof (receiveTx_outcome proofData encViewingKey1 encViewingKey2 s) as Hout0.
  cbv zeta in Hout, Hout0. fold proof in Hout, Hout0. subst db.
  split.
  - intros Hnote H1 H2 Hv.
    pose proof (Hk (toBigIntBE (slice (noteTreeRoot proof) 16 None))) as H3.
    rewrite Hnote in H3. rewrite bool_decide_eq_true_2 in H3 by done.
    rewrite Hout, H1, H2. rewrite Hnote, H3, Hv.
    by rewrite nonEmptyValue_marked.
  - intros Hbefore Hn1 Hn2. rewrite Hout0 in Hbefore. rewrite Hout.
    pose proof (Hn (nullifier1 proof)) as H1. pose proof (Hn (nullifier2 proof)) as H2.
    fold spent in H1, H2.
    rewrite bool_decide_eq_false_2 in H1 by done.
    rewrite bool_decide_eq_false_2 in H2 by done.
    rewrite H1, H2.
    destruct (fst (get 1 (nullifier1 proof) (worldStateDb s))) as [v1|e1]; [|done].
    destruct (negb (equals v1 (alloc 64))); [done|].
    destruct (fst (get 1 (nullifier2 proof) (worldStateDb s))) as [v2|e2]; [|done].
    destruct (negb (equals v2 (alloc 64))); [done|].
    rewrite (Hk (toBigIntBE (slice (noteTreeRoot proof) 16 None))).
    destruct (bool_decide _).
    + rewrite nonEmptyValue_marked.
      destruct (fst (get 2 _ (worldStateDb s))) as [v3|e3]; [|done].
      destruct (equals v3 (alloc 64)); [done|].
      by destruct (negb (verifyProof proofData)).
    + destruct (fst (get 2 _ (worldStateDb s))) as [v3|e3]; [|done].
      destruct (equals v3 (alloc 64)); [done|].
      by destruct (negb (verifyProof proofData)).
Qed.

End BlockEffects.

(** ** The witness of a rollup *)

Section RollupWitness.
Import WorldState Server Writes JsNumber.
Context `{Hasher} `{JoinSplit}.

Lemma log2Index_inv (n : Z) (k : nat) : log2Index n = Some k -> n = 2 ^ Z.of_nat k.
Proof.
  unfold log2Index. destruct (n =? 2 ^ Z.log2 n) eqn:E; [|discriminate].
  apply Z.eqb_eq in E. intros [= <-].
  rewrite Z2Nat.id by apply Z.log2_nonneg. exact E.
Qed.

Local Ltac read_step H :=
  let a := fresh "a" in let s1 := fresh "s" in let Hs := fresh "Hs" in
  apply bind_ok_inv in H as (a & s1 & Hs & H);
  first [ apply (onDb_read_inv _ _ _ _ (getHashPath_state _ _)) in Hs as [-> Hs]
        | apply (onDb_read_inv _ _ _ _ (getRoot_state _)) in Hs as [-> Hs]
        | apply (onDb_read_inv _ _ _ _ (getSize_state _)) in Hs as [-> Hs] ].

Local Ltac put_step H :=
  let a := fresh "a" in let s1 := fresh "s" in let Hs := fresh "Hs" in
  apply bind_ok_inv in H as (a & s1 & Hs & H);
  apply onDb_put_inv in Hs; subst s1.

Local Ltac path_step Hr :=
  match goal with
  | |- context [bind (onDb (getHashPath ?id ?key)) _ ?st] =>
      let path := fresh "path" in let Hpath := fresh "Hpath" in
      destruct (onDb_getHashPath_ok id key (alloc 64) st Hr) as [path Hpath];
      erewrite bind_ok; [|exact Hpath]; clear Hpath
  end.

(** The arrays after one turn of the loop of [createRollup]. *)
Lemma rollupTx_acc (acc acc' : RollupAcc) (p : JoinSplitProof) (s s' : ServerState) :
  rollupTx acc p s = (Ok acc', s') ->
  exists (root1 : Buffer) (old1 new1 old2 new2 rootPath : list (list Buffer)),
    accNewNullRoots acc' =
      accNewNullRoots acc ++ [root1; treeRoot (nullTree (staged (worldStateDb s')))] /\
    accOldNullPaths acc' = accOldNullPaths acc ++ [old1; old2] /\
    accNewNullPaths acc' = accNewNullPaths acc ++ [new1; new2] /\
    accOldRootPaths acc' = accOldRootPaths acc ++ [rootPath].
Proof.
  unfold rollupTx. intros Hrun.
  put_step Hrun. put_step Hrun. read_step Hrun. put_step Hrun.
  read_step Hrun. read_step Hrun. read_step Hrun. put_step Hrun.
  read_step Hrun. read_step Hrun. read_step Hrun.
  unfold ret in Hrun. inversion Hrun; subst. simpl.
  unfold getRoot in Hs3. simpl in Hs3. injection Hs3 as <-.
  eexists _, _, _, _, _, _. repeat split; reflexivity.
Qed.


(** The arrays after the loop: two nullifier roots, two old and two new
    nullifier paths and one root path per transaction; the last nullifier
    root is the root after the whole batch. *)
Lemma rollupTxs_acc (txs : list JoinSplitProof) :
  forall (acc acc' : RollupAcc) (s s' : ServerState),
    rollupTxs acc txs s = (Ok acc', s') ->
    length (accNewNullRoots acc') = (length (accNewNullRoots acc) + 2 * length txs)%nat /\
    length (accOldNullPaths acc') = (length (accOldNullPaths acc) + 2 * length txs)%nat /\
    length (accNewNullPaths acc') = (length (accNewNullPaths acc) + 2 * length txs)%nat /\
    length (accOldRootPaths acc') = (length (accOldRootPaths acc) + length txs)%nat /\
    last (accNewNullRoots acc') =
      match txs with
      | [] => last (accNewNullRoots acc)
      | _ => Some (treeRoot (nullTree (staged (worldStateDb s'))))
      end.
Proof.
  induction txs as [|p rest IH]; intros acc acc' s s' Hrun; simpl in Hrun.
  - inversion Hrun; subst. simpl. repeat split; lia.
  - apply bind_ok_inv in Hrun as (acc1 & s1 & Hstep & Hrun).
    apply rollupTx_acc in Hstep
      as (root1 & old1 & new1 & old2 & new2 & rootPath & Hr & Ho & Hn & Hp).
    assert (Hend : rest = [] -> s' = s1).
    { intros ->. simpl in Hrun. by inversion Hrun. }
    apply IH in Hrun as (Lr & Lo & Ln & Lp & Hlast).
    rewrite Hr in Lr, Hlast. rewrite Ho in Lo. rewrite Hn in Ln. rewrite Hp in Lp.
    rewrite length_app in Lr, Lo, Ln, Lp. simpl in Lr, Lo, Ln, Lp. simpl length.
    repeat split; try lia.
    rewrite Hlast. destruct rest as [|q rest']; [|reflexivity].
    rewrite (Hend eq_refl). by rewrite last_app.
Qed.


(** The arrays of a completed [createRollup] are those of its loop. *)
Lemma createRollup_arrays (txs : list JoinSplitProof) (s s' : ServerState) (r : Rollup) :
  createRollup txs s = (Ok r, s') ->
  exists (acc : RollupAcc) (s1 : ServerState),
    rollupTxs {| nextDataIndex := size (dataTree (staged (worldStateDb s)));
                 accNewNullRoots := []; accOldNullPaths := [];
                 accNewNullPaths := []; accOldRootPaths := [] |} txs s = (Ok acc, s1) /\
    newNullRoots r = accNewNullRoots acc /\
    oldNullPaths r = accOldNullPaths acc /\
    newNullPaths r = accNewNullPaths acc /\
    oldRootPaths r = accOldRootPaths acc.
Proof.
  intros Hrun. unfold createRollup in Hrun.
  read_step Hrun. unfold getSize in Hs. simpl in Hs. inversion Hs; subst a; clear Hs.
  read_step Hrun. read_step Hrun. read_step Hrun. read_step Hrun.
  apply bind_ok_inv in Hrun as (acc & s1 & Hloop & Hrun).
  exists acc, s1. split; [exact Hloop|].
  read_step Hrun.
  apply bind_ok_inv in Hrun as (sz & s2 & Hsz & Hrun).
  unfold gets in Hsz. inversion Hsz; subst sz s2; clear Hsz.
  destruct (rollupRootHeight (rollupSize s1) ≫= _) as [level|]; [|discriminate].
  read_step Hrun.
  apply bind_ok_inv in Hrun as (u & s2 & Hrb & Hrun).
  apply bind_ok_inv in Hrun as (nid & s3 & Hid & Hrun).
  unfold ret in Hrun. inversion Hrun; subst r s'; clear Hrun. simpl. done.
Qed.

(** X7. The witness that [createRollup] returns carries the next rollup
    id, the size of the data tree as its start index, the proofs in batch
    order, two new nullifier roots, two old and two new nullifier paths per
    transaction and one root path per transaction; for a batch that is
    not empty, the last new nullifier root is the root of the nullifier
    tree with the whole batch staged. *)
Theorem createRollup_witness_shape (txs : list JoinSplitProof) (s s' : ServerState)
        (r : Rollup) :
  createRollup txs s = (Ok r, s') ->
  let db := worldStateDb s in
  let start := size (dataTree (staged db)) in
  rollupId r = nextRollupId s /\
  rollupDataStartIndex r = start /\
  proofs r = map proofData txs /\
  length (newNullRoots r) = (2 * length txs)%nat /\
  length (oldNullPaths r) = (2 * length txs)%nat /\
  length (newNullPaths r) = (2 * length txs)%nat /\
  length (oldRootPaths r) = length txs /\
  (txs <> [] ->
   last (newNullRoots r) =
     Some (treeRoot (nullTree (staged (stage (batchPuts start txs) db))))).
Proof.
  intros Hrun db start.
  destruct (createRollup_arrays _ _ _ _ Hrun) as (acc & s1 & Hloop & Hr & Ho & Hn & Hp).
  apply createRollup_inv in Hrun as (_ & _ & Hid & Hidx & Hproofs & _).
  pose proof (rollupTxs_inv _ _ _ _ _ Hloop) as Hs1. simpl in Hs1.
  apply rollupTxs_acc in Hloop as (Lr & Lo & Ln & Lp & Hlast). simpl in Lr, Lo, Ln, Lp.
  rewrite Hr, Ho, Hn, Hp.
  repeat (split; [done || lia|]).
  intros Hne. rewrite Hlast. destruct txs; [done|]. by rewrite Hs1.
Qed.

(** X8. [createRollup] returns a witness only if [rollupSize] is a power
    of two, [2^k], and the data tree has a level [k + 1].  Otherwise, with
    the keys of the batch in range, the read of the rollup root throws a
    TypeError after the loop and before the rollback: the puts of the
    batch stay staged. *)
Theorem createRollup_rollupSize (txs : list JoinSplitProof) (s : ServerState) :
  let db := worldStateDb s in
  let start := size (dataTree (staged db)) in
  (forall (r : Rollup) (s' : ServerState),
      createRollup txs s = (Ok r, s') ->
      exists k : nat,
        rollupSize s = 2 ^ Z.of_nat k /\ (S k <= depth (dataTree (committed db)))%nat) /\
  ((forall k : nat,
       rollupSize s = 2 ^ Z.of_nat k -> (depth (dataTree (committed db)) < S k)%nat) ->
   inRange (dataTree (committed db)) start = true ->
   batchInRange (committed db) start txs = true ->
   createRollup txs s =
     (Throw (TypeError "Cannot read properties of undefined"),
      withDb (stage (batchPuts start txs) db) s)).
Proof.
  intros db start. split.
  - intros r s' Hrun.
    apply createRollup_inv in Hrun
      as (_ & _ & _ & _ & _ & _ & _ & _ & _ & _ & Hpath & height & level & Hh & Hl & _).
    unfold rollupRootHeight in Hh.
    destruct (log2Index (rollupSize s)) as [k|] eqn:Hk; [|discriminate].
    simpl in Hh. injection Hh as <-. exists k. split; [by apply log2Index_inv|].
    apply lookup_lt_Some in Hl. rewrite Hpath in Hl.
    unfold hashPathOf in Hl. rewrite length_map, length_seq in Hl.
    rewrite depth_staged_data in Hl. simpl committed in Hl. fold db in Hl. lia.
  - intros Hbad Hstart Hbatch.
    assert (Hstart0 : putInRange (committed (worldStateDb s)) (0, start, alloc 64) = true)
      by exact Hstart.
    unfold createRollup.
    erewrite bind_ok; [|unfold onDb, getSize; simpl; rewrite withDb_same; reflexivity].
    erewrite bind_ok; [|apply onDb_getRoot_data].
    path_step Hstart0.
    erewrite bind_ok; [|apply onDb_getRoot_null].
    erewrite bind_ok; [|apply onDb_getRoot_root].
    match goal with |- context [rollupTxs ?acc0 txs] =>
      destruct (rollupTxs_ok txs acc0 s Hbatch) as (acc' & Hloop) end.
    erewrite bind_ok; [|exact Hloop]. simpl nextDataIndex.
    fold db. fold start.
    set (after := stage (batchPuts start txs) db).
    erewrite bind_ok.
    2:{ unfold onDb. rewrite getHashPath_data. simpl worldStateDb.
        destruct (inRange_staged 0 after _ start eq_refl) as (t' & Ht' & Hin & _).
        unfold getTree in Ht'. simpl in Ht'. inversion Ht'; subst t'.
        rewrite Hin. simpl committed. fold db. rewrite Hstart. reflexivity. }
    erewrite bind_ok; [|reflexivity]. cbn [rollupSize withDb].
    assert (Hnone : rollupRootHeight (rollupSize s)
                      ≫= (hashPathOf (dataTree (staged after)) start !!.) = None).
    { unfold rollupRootHeight.
      destruct (log2Index (rollupSize s)) as [k|] eqn:Hk; [|reflexivity].
      simpl. apply lookup_ge_None. unfold hashPathOf. rewrite length_map, length_seq.
      rewrite depth_staged_data. simpl committed. fold db.
      specialize (Hbad k (log2Index_inv _ _ Hk)). lia. }
    rewrite Hnone. reflexivity.
Qed.

End RollupWitness.

Section Agreement.
Import WorldState Server Writes JsNumber.
Context `{Hasher} `{JoinSplit}.

Local Abbreviation allInRange ts ps := (Forall (fun p : Put => putInRange ts p = true) ps).

Lemma node_ext (t t' : Tree) :
  (forall k, leafAt t k = leafAt t' k) ->
  forall level index, node t level index = node t' level index.
Proof.
  intros Hleaf. induction level as [|l IH]; intros index; simpl.
  - by rewrite Hleaf.
  - by rewrite !IH.
Qed.

Lemma treeRoot_ext (t t' : Tree) :
  depth t = depth t' -> (forall k, leafAt t k = leafAt t' k) -> treeRoot t = treeRoot t'.
Proof. intros Hd Hleaf. unfold treeRoot. rewrite Hd. by apply node_ext. Qed.

Lemma writesTo_batch_data (txs : list JoinSplitProof) :
  forall (i : Z) (t : Tree),
    writesTo 0 (batchPuts i txs) t = writesTo 0 (dataPuts i (batchNotes txs)) t.
Proof.
  induction txs as [|p rest IH]; intros i t; [reflexivity|].
  change (batchPuts i (p :: rest)) with (txPuts i p ++ batchPuts (i + 2) rest).
  rewrite writesTo_app. simpl. rewrite IH.
  by replace (i + 1 + 1) with (i + 2) by lia.
Qed.

Lemma writesTo_batch_null (txs : list JoinSplitProof) :
  forall (i : Z) (t : Tree),
    writesTo 1 (batchPuts i txs) t =
    writesTo 1 (map (fun k => (1, k, nonEmptyValue)) (batchNullifiers txs)) t.
Proof.
  induction txs as [|p rest IH]; intros i t; [reflexivity|].
  change (batchPuts i (p :: rest)) with (txPuts i p ++ batchPuts (i + 2) rest).
  rewrite writesTo_app. simpl. rewrite IH. reflexivity.
Qed.


(** Data entries leave the leaves outside their range alone. *)
Lemma leafAt_dataPuts (entries : list Buffer) :
  forall (i k : Z) (t : Tree),
    k < i \/ i + Z.of_nat (length entries) <= k ->
    leafAt (writesTo 0 (dataPuts i entries) t) k = leafAt t k.
Proof.
  induction entries as [|e rest IH]; intros i k t Hk; [reflexivity|].
  simpl. rewrite IH by (simpl length in Hk; lia).
  unfold leafAt, writeLeaf. simpl. rewrite lookup_insert_ne by (simpl length in Hk; lia).
  reflexivity.
Qed.

Lemma nullifierPuts_keys (b : Block) :
  nullifierPuts b = map (fun k => (1, k, nonEmptyValue)) (map toBigIntBE (nullifiers b)).
Proof. unfold nullifierPuts. by rewrite map_map. Qed.

(** The trees that a block commits, by tree. *)
Lemma blockPuts_data (b : Block) (db : WorldStateDb) (t : Tree) :
  writesTo 0 (blockPuts b db) t =
    writesTo 0 (padPuts b) (writesTo 0 (dataPuts (dataStartIndex b) (dataEntries b)) t).
Proof.
  unfold blockPuts. cbv zeta. rewrite !writesTo_app.
  rewrite (writesTo_other 0 (nullifierPuts b)).
  - reflexivity.
  - eapply Forall_impl; [apply nullifierPuts_tree|]. simpl. intros; lia.
Qed.

Lemma blockPuts_null (b : Block) (db : WorldStateDb) (t : Tree) :
  writesTo 1 (blockPuts b db) t = writesTo 1 (nullifierPuts b) t.
Proof.
  unfold blockPuts. cbv zeta. rewrite !writesTo_app.
  rewrite (writesTo_other 1 (dataPuts _ _)).
  - rewrite (writesTo_other 1 (padPuts b)); [reflexivity|].
    eapply Forall_impl; [apply padPuts_tree|]. simpl. intros; lia.
  - eapply Forall_impl; [apply dataPuts_tree|]. simpl. intros; lia.
Qed.

(** X9. The roots that [createRollup] predicts are the roots that
    [handleNewBlock] commits for the block of the batch: when the block
    starts at the start index of the witness, carries the notes of the
    batch and its nullifiers in batch order, and pads only onto an empty
    leaf, the data root after the block is [newDataRoot], the nullifier
    root is the last of [newNullRoots] ([oldNullRoot] for an empty batch),
    and the root tree holds the mark at the key of [newDataRoot]. *)
Theorem block_commits_rollup_roots (txs : list JoinSplitProof) (b : Block)
        (s s1 : ServerState) (r : Rollup) :
  overlay (worldStateDb s) = [] ->
  createRollup txs s = (Ok r, s1) ->
  dataStartIndex b = rollupDataStartIndex r ->
  dataEntries b = batchNotes txs ->
  map toBigIntBE (nullifiers b) = batchNullifiers txs ->
  (Z.of_nat (length (dataEntries b)) < numDataEntries b ->
   fst (get 0 (dataStartIndex b + numDataEntries b - 1) (worldStateDb s)) = Ok (alloc 64)) ->
  allInRange (committed (worldStateDb s1)) (blockPuts b (worldStateDb s1)) ->
  exists s2 : ServerState,
    handleNewBlock b s1 = (Ok tt, s2) /\
    fst (getRoot 0 (worldStateDb s2)) = Ok (newDataRoot r) /\
    fst (getRoot 1 (worldStateDb s2)) =
      Ok (default (oldNullRoot r) (last (newNullRoots r))) /\
    fst (get 2 (toBigIntBE (slice (newDataRoot r) 16 None)) (worldStateDb s2)) =
      Ok nonEmptyValue.
Proof.
  intros Hclean Hrollup Hstart Hnotes Hnulls Hpad Hr.
  destruct (createRollup_arrays _ _ _ _ Hrollup) as (acc & s0 & Hloop & Hroots & _).
  pose proof (rollupTxs_inv _ _ _ _ _ Hloop) as Hs0. simpl in Hs0.
  apply rollupTxs_acc in Hloop as (_ & _ & _ & _ & Hlast).
  rewrite Hs0 in Hlast. cbn [worldStateDb withDb accNewNullRoots] in Hlast.
  rewrite nullTree_stage, writesTo_batch_null in Hlast.
  apply createRollup_inv in Hrollup
    as (Hs1 & _ & _ & Hidx & _ & _ & _ & Hold & _ & Hnew & _).
  set (db := worldStateDb s) in *.
  set (db1 := {| committed := committed db; overlay := [] |}) in *.
  assert (Hdb1 : worldStateDb s1 = db1) by (by subst s1).
  assert (Hclean1 : overlay (worldStateDb s1) = []) by (by rewrite Hdb1).
  assert (Hst : staged db1 = staged db).
  { rewrite (staged_clean db Hclean). reflexivity. }
  destruct (handleNewBlock_reads b s1 Hclean1 Hr)
    as (s2 & dataRoot & Hrun & Hs2 & Hroot & _ & Hk).
  pose proof (handleNewBlock_run b s1 Hr) as Hrun'. rewrite Hrun in Hrun'.
  injection Hrun' as Hs2'.
  assert (Hdb2 : worldStateDb s2 =
                 {| committed := staged (stage (blockPuts b db1) db1); overlay := [] |}).
  { rewrite Hs2'. simpl. by rewrite Hdb1. }
  exists s2. split; [exact Hrun|].
  assert (Hdata : dataRoot = newDataRoot r).
  { rewrite Hdb2 in Hroot. unfold getRoot, staged in Hroot. simpl in Hroot.
    injection Hroot as <-.
    change (foldr applyPut (committed db) (rev (blockPuts b db1) ++ []))
      with (staged (stage (blockPuts b db1) db1)).
    rewrite Hnew, !dataTree_stage, Hst, blockPuts_data, writesTo_batch_data.
    rewrite Hstart, Hidx, Hnotes.
    set (T := writesTo 0 (dataPuts _ (batchNotes txs)) (dataTree (staged db))).
    unfold padPuts.
    destruct (Z.of_nat (length (dataEntries b)) <? numDataEntries b) eqn:E; [|reflexivity].
    apply Z.ltb_lt in E. specialize (Hpad E).
    simpl writesTo. apply treeRoot_ext; [reflexivity|].
    intros k. unfold leafAt at 1, writeLeaf. simpl.
    destruct (decide (k = dataStartIndex b + numDataEntries b - 1)) as [->|Hne].
    - rewrite lookup_insert_eq. simpl. unfold T.
      rewrite leafAt_dataPuts by (rewrite <- Hnotes, <- Hidx, <- Hstart; lia).
      unfold get in Hpad. simpl in Hpad. rewrite (staged_clean db Hclean).
      destruct (inRange (dataTree (committed db)) _); [|discriminate].
      simpl in Hpad. by injection Hpad as ->.
    - by rewrite lookup_insert_ne. }
  split; [by rewrite Hroot, Hdata|]. split.
  - rewrite Hdb2. unfold getRoot, staged. simpl. f_equal.
    change (foldr applyPut (committed db) (rev (blockPuts b db1) ++ []))
      with (staged (stage (blockPuts b db1) db1)).
    rewrite nullTree_stage, Hst, blockPuts_null, nullifierPuts_keys, Hnulls.
    rewrite Hroots, Hlast.
    destruct txs as [|p rest]; simpl default.
    + simpl. by rewrite Hold.
    + reflexivity.
  - rewrite <- Hdata. rewrite Hk. by rewrite bool_decide_eq_true_2.
Qed.

End Agreement.

(** ** Fee quotes and the surplus ratio *)

Section RoundedNumbers.
Import JsNumber.




End RoundedNumbers.

Section FeeQuotes.
Import JsNumber FeeCalculator.
Context `{PriceTracker} (this : Config).

Lemma mapR_length {A B} (f : A -> Result B) (xs : list A) (ys : list B) :
  mapR f xs = Ok ys -> length ys = length xs.
Proof.
  revert ys. induction xs as [|x xs IH]; intros ys; simpl.
  - by intros [= <-].
  - destruct (f x) as [y|e]; [|discriminate]. simpl.
    destruct (mapR f xs) as [ys'|e]; [|discriminate]. simpl.
    intros [= <-]. simpl. by rewrite (IH ys').
Qed.

Lemma mapR_lookup {A B} (f : A -> Result B) (xs : list A) (ys : list B) (i : nat) (x : A) :
  mapR f xs = Ok ys -> xs !! i = Some x -> exists y, ys !! i = Some y /\ f x = Ok y.
Proof.
  revert ys i. induction xs as [|a xs IH]; intros ys i; simpl; [by destruct i|].
  destruct (f a) as [b|e] eqn:Ea; [|discriminate]. simpl.
  destruct (mapR f xs) as [ys'|e]; [|discriminate]. simpl.
  intros [= <-]. destruct i as [|i]; simpl.
  - intros [= <-]. eauto.
  - intros Hx. by apply (IH ys').
Qed.




Lemma getFeeQuotes_inv (surplusRatios : list Number) (publishInterval : Number)
      (assetId : AssetId) (q : AssetFeeQuote) :
  getFeeQuotes this surplusRatios publishInterval assetId = Ok q ->
  exists baseFee : Z,
    getBaseFee this assetId = Ok baseFee /\
    mapR (getFeeConstant this assetId) quotedTxTypes = Ok (feeConstants q) /\
    mapR (baseFeeQuote this publishInterval baseFee) surplusRatios = Ok (baseFeeQuotes q).
Proof.
  unfold getFeeQuotes.
  destruct (getBaseFee this assetId) as [baseFee|e] eqn:Hbase; [|discriminate].
  cbn [rbind].
  destruct (mapR (getFeeConstant this assetId) quotedTxTypes) as [constants|e] eqn:Hconst;
    [|discriminate].
  cbn [rbind].
  destruct (mapR (baseFeeQuote this publishInterval baseFee) surplusRatios)
    as [quotes|e] eqn:Hquotes; [|discriminate].
  cbn [rbind]. intros [= <-]. simpl. eauto.
Qed.












Lemma sameSum_refl a : sameSum a a.
Proof. by destruct a. Qed.









End FeeQuotes.

(** ** Hexadecimal transport *)

Section HexFacts.
Import App.

Lemma hex_byte (x : byte) (rest : string) :
  fromHex (Server.hexDigit (byteToZ x / 16) ++ Server.hexDigit (byteToZ x mod 16) ++ rest)
    = x :: fromHex rest.
Proof. destruct x; reflexivity. Qed.

Lemma append_assoc (a b c : string) : ((a ++ b) ++ c = a ++ (b ++ c))%string.
Proof.
  induction a as [|x a IH]; [reflexivity|].
  change (String x ((a ++ b) ++ c) = String x (a ++ (b ++ c)))%string. by rewrite IH.
Qed.

Lemma fromHex_toHex_app (b : Buffer) (rest : string) :
  fromHex (Server.toHex b ++ rest) = b ++ fromHex rest.
Proof.
  induction b as [|x b IH]; [reflexivity|].
  simpl Server.toHex. rewrite !append_assoc. by rewrite hex_byte, IH.
Qed.

Lemma append_empty (s : string) : (s ++ "")%string = s.
Proof.
  induction s as [|c s IH]; [reflexivity|].
  change (String c (s ++ "") = String c s)%string. by rewrite IH.
Qed.

Lemma fromHex_toHex (b : Buffer) : fromHex (Server.toHex b) = b.
Proof.
  rewrite <- (append_empty (Server.toHex b)), fromHex_toHex_app. simpl. apply app_nil_r.
Qed.

(** Hexadecimal digits never spell the prefix. *)
Lemma strip0x_toHex (b : Buffer) (rest : string) :
  b <> [] -> strip0x (Server.toHex b ++ rest) = (Server.toHex b ++ rest)%string.
Proof.
  destruct b as [|x b]; [done|]. intros _. simpl Server.toHex.
  rewrite !append_assoc. by destruct x.
Qed.

(** X15. [bufferFromHex] inverts [toString('hex')], with or without the
    prefix [0x] in either case.  It never fails on what follows the
    digits: decoding stops at the first character that is no hexadecimal
    digit, and a single trailing character is dropped. *)
Theorem bufferFromHex_toHex (b : Buffer) :
  bufferFromHex (Server.toHex b) = b /\
  bufferFromHex ("0x" ++ Server.toHex b) = b /\
  bufferFromHex ("0X" ++ Server.toHex b) = b /\
  (forall (c : ascii) (rest : string),
      hexValue c = None -> bufferFromHex ("0x" ++ Server.toHex b ++ String c rest) = b) /\
  (forall c : ascii, bufferFromHex ("0x" ++ Server.toHex b ++ String c "") = b).
Proof.
  split; [|split; [|split; [|split]]].
  - unfold bufferFromHex. destruct b as [|x b]; [reflexivity|].
    rewrite <- (append_empty (Server.toHex (x :: b))), strip0x_toHex by done.
    rewrite append_empty. apply fromHex_toHex.
  - exact (fromHex_toHex b).
  - exact (fromHex_toHex b).
  - intros c rest Hc.
    change (fromHex (Server.toHex b ++ String c rest) = b).
    rewrite fromHex_toHex_app.
    assert (Hjunk : fromHex (String c rest) = []).
    { destruct rest as [|c' rest']; [reflexivity|]. simpl. by rewrite Hc. }
    rewrite Hjunk. apply app_nil_r.
  - intros c.
    change (fromHex (Server.toHex b ++ String c "") = b).
    rewrite fromHex_toHex_app. simpl. apply app_nil_r.
Qed.

Section TxJsonFacts.
Context {ProofData : Type} `{Externals ProofData}.

(** X16. [fromTxJson] hands the [ProofData] constructor the bytes that the
    posted hexadecimal string encodes, and returns the off-chain data and
    the deposit signature decoded the same way; a deposit signature that
    is absent, or posted as the empty string, is undefined. *)
Theorem fromTxJson_decodes (proofData offchainTxData : Buffer) (signature : option Buffer)
        (prefix1 prefix2 prefix3 : bool) :
  let hex (prefixed : bool) (b : Buffer) :=
    ((if prefixed then "0x" else "") ++ Server.toHex b)%string in
  fromTxJson {| jsonProofData := hex prefix1 proofData;
                jsonOffchainTxData := hex prefix2 offchainTxData;
                jsonDepositSignature := hex prefix3 <$> signature |} =
  rbind (newProofData proofData) (fun proof =>
    Ok {| proof := proof;
          offchainTxData := offchainTxData;
          depositSignature :=
            match signature with
            | Some [] => if prefix3 then Some [] else None
            | _ => signature
            end |}).
Proof.
  intros hex.
  assert (Hhex : forall p b, bufferFromHex (hex p b) = b).
  { intros p b. destruct (bufferFromHex_toHex b) as (H0 & H1 & _).
    unfold hex. by destruct p. }
  unfold fromTxJson. simpl. rewrite !Hhex.
  destruct (newProofData proofData) as [proof|e]; [|reflexivity].
  simpl. f_equal. f_equal.
  destruct signature as [sig|]; [|reflexivity]. simpl.
  rewrite Hhex. unfold hex.
  destruct prefix3; [by destruct sig|].
  destruct sig as [|x sig]; [reflexivity|]. simpl. by destruct x.
Qed.

End TxJsonFacts.

End HexFacts.

(** ** The status report *)

Section StatusFacts.
Import WorldState Server Writes JsNumber.
Context `{Hasher} `{JoinSplit}.

Local Abbreviation allInRange ts ps := (Forall (fun p : Put => putInRange ts p = true) ps).



End StatusFacts.

(** ** The routes *)

Section Routes.
Import App JsNumber.
Context {S ProofData : Type} `{ServerApi S ProofData} `{Externals ProofData}.

Lemma route_mismatch (req : Request) (chain : M (Koa S) unit) (k : Koa S) :
  ~ versionAccepted req k ->
  route req chain k =
    (Ok tt, responded 409 (ErrorBody
       "Rollup provider / SDK version mismatch. Hard refresh your browser or update SDK.") k).
Proof.
  intros Hbad. unfold route, exceptionHandler, validateVersion, bind, gets.
  destruct (truthy (versionHeader req)) eqn:Et; [|exfalso; apply Hbad; by left].
  rewrite bool_decide_eq_false_2; [reflexivity|].
  intros Heq. apply Hbad. by right.
Qed.

Lemma route_accepted (req : Request) (chain : M (Koa S) unit) (k : Koa S) :
  versionAccepted req k ->
  route req chain k = exceptionHandler req chain k.
Proof.
  intros Hok. unfold route, exceptionHandler, validateVersion, bind, gets.
  destruct Hok as [Hf|Heq].
  - by rewrite Hf.
  - rewrite bool_decide_eq_true_2 by done. by rewrite andb_false_r.
Qed.

(** X18. The routes [/remove-data], [/reset], [/restart] and [/flush]
    always answer.  A version header that is present and differs from the
    version of the server gives 409 before anything else happens.
    Otherwise the path is recorded in the metrics; a missing or wrong
    [server-auth-token] gives 401; with the right token the server is
    called once, and the answer is 200, or 400 with the message of the
    error that the call threw.  The server is never called on a 409 or a
    401. *)
Theorem adminRoute_guard (serverAuthToken : string) (call : M S unit) (req : Request)
        (k : Koa S) :
  let outcome := adminRoute serverAuthToken call req k in
  let seen := recorded (pathname req) k in
  fst outcome = Ok tt /\
  (~ versionAccepted req k ->
   snd outcome = responded 409 (ErrorBody
     "Rollup provider / SDK version mismatch. Hard refresh your browser or update SDK.") k) /\
  (versionAccepted req k -> authTokenHeader req <> Some serverAuthToken ->
   snd outcome = responded 401 (ErrorBody "Invalid server auth token.") seen) /\
  (versionAccepted req k -> authTokenHeader req = Some serverAuthToken ->
   forall s' : S,
     (call (server k) = (Ok tt, s') ->
      snd outcome = responded 200 (body (ctx k)) (withServer s' seen)) /\
     (forall err : Exn,
         call (server k) = (Throw err, s') ->
         snd outcome =
           responded 400 (ErrorBody (message err)) (logged err (withServer s' seen)))) /\
  (~ versionAccepted req k \/ authTokenHeader req <> Some serverAuthToken ->
   server (snd outcome) = server k).
Proof.
  intros outcome seen.
  assert (Hbad : ~ versionAccepted req k ->
                 outcome = (Ok tt, responded 409 (ErrorBody
     "Rollup provider / SDK version mismatch. Hard refresh your browser or update SDK.") k)).
  { intros Hv. apply route_mismatch. exact Hv. }
  assert (Hauth : versionAccepted req k -> authTokenHeader req <> Some serverAuthToken ->
                  outcome = (Ok tt, responded 401 (ErrorBody "Invalid server auth token.") seen)).
  { intros Hv Ht. unfold outcome, adminRoute. rewrite route_accepted by done.
    unfold exceptionHandler, recordMetric, validateAuth, bind, modify.
    rewrite bool_decide_eq_false_2 by done. reflexivity. }
  assert (Hrun : versionAccepted req k -> authTokenHeader req = Some serverAuthToken ->
                 outcome =
                   match call (server k) with
                   | (Ok tt, s') => (Ok tt, responded 200 (body (ctx k)) (withServer s' seen))
                   | (Throw err, s') =>
                       (Ok tt, responded 400 (ErrorBody (message err))
                                         (logged err (withServer s' seen)))
                   end).
  { intros Hv Ht. unfold outcome, adminRoute. rewrite route_accepted by done.
    unfold exceptionHandler, recordMetric, validateAuth, bind, modify.
    rewrite bool_decide_eq_true_2 by done. simpl. unfold onServer. simpl.
    destruct (call (server k)) as [[[]|err] s']; reflexivity. }
  assert (Hcases : versionAccepted req k \/ ~ versionAccepted req k).
  { unfold versionAccepted. destruct (truthy (versionHeader req)); [|by left; left].
    destruct (decide (versionHeader req = Some (version (server k)))); [by left; right|].
    right. intros [?|?]; done. }
  split; [|split; [|split; [|split]]].
  - destruct Hcases as [Hv|Hv]; [|by rewrite (Hbad Hv)].
    destruct (decide (authTokenHeader req = Some serverAuthToken)) as [Ht|Ht].
    + rewrite (Hrun Hv Ht). by destruct (call (server k)) as [[[]|err] s'].
    + by rewrite (Hauth Hv Ht).
  - intros Hv. by rewrite (Hbad Hv).
  - intros Hv Ht. by rewrite (Hauth Hv Ht).
  - intros Hv Ht s'. rewrite (Hrun Hv Ht). split.
    + by intros ->.
    + by intros err ->.
  - intros [Hv|Ht]; [by rewrite (Hbad Hv)|].
    destruct Hcases as [Hv|Hv]; [by rewrite (Hauth Hv Ht)|by rewrite (Hbad Hv)].
Qed.


(** X19. The routes [/txs] and [/txs-second-class] always answer: 409 on a
    version mismatch; then, with the path recorded, 503 while the server
    is not ready; on the second-class route only, 401 on a missing or
    wrong token; 400 with the message when the posted transactions do not
    parse.  Otherwise [receiveTxs] gets the decoded transactions, the
    client address and origin (the empty string when absent) and, on the
    second-class route only, [true] as its second argument, and the answer
    is 200 with the transaction ids in
    hexadecimal, or 400 with the message of the error thrown. *)
Theorem txsRoute_table (secondClass : bool) (serverAuthToken : string) (req : Request)
        (k : Koa S) :
  let outcome := txsEndpoint secondClass serverAuthToken req k in
  let seen := recorded (pathname req) k in
  let sender := {| senderClientIp := default ""%string (clientIp req);
                   originUrl := default ""%string (originHeader req) |} in
  fst outcome = Ok tt /\
  (~ versionAccepted req k ->
   snd outcome = responded 409 (ErrorBody
     "Rollup provider / SDK version mismatch. Hard refresh your browser or update SDK.") k) /\
  (versionAccepted req k -> isReady (server k) = false ->
   snd outcome = responded 503 (ErrorBody "Server not ready. Try again later.") seen) /\
  (versionAccepted req k -> isReady (server k) = true ->
   secondClass = true -> authTokenHeader req <> Some serverAuthToken ->
   snd outcome = responded 401 (ErrorBody "Invalid server auth token.") seen) /\
  (versionAccepted req k -> isReady (server k) = true ->
   secondClass = false \/ authTokenHeader req = Some serverAuthToken ->
   (forall err : Exn,
       rbind (postData req) (FeeCalculator.mapR fromTxJson) = Throw err ->
       snd outcome = responded 400 (ErrorBody (message err)) (logged err seen)) /\
   (forall (txs : list (Tx ProofData)) (s' : S),
       rbind (postData req) (FeeCalculator.mapR fromTxJson) = Ok txs ->
       let txRequest := {| txs := txs; requestSender := sender |} in
       (forall txIds : list Buffer,
           receiveTxs txRequest (classArgument secondClass) (server k) = (Ok txIds, s') ->
           snd outcome =
             responded 200 (TxIdsBody (map Server.toHex txIds)) (withServer s' seen)) /\
       (forall err : Exn,
           receiveTxs txRequest (classArgument secondClass) (server k) = (Throw err, s') ->
           snd outcome =
             responded 400 (ErrorBody (message err)) (logged err (withServer s' seen))))).
Proof.
  intros outcome seen sender.
  assert (Hbad : ~ versionAccepted req k ->
                 outcome = (Ok tt, responded 409 (ErrorBody
     "Rollup provider / SDK version mismatch. Hard refresh your browser or update SDK.") k)).
  { intros Hv. unfold outcome, txsEndpoint.
    destruct secondClass; apply route_mismatch; exact Hv. }
  assert (Hok : versionAccepted req k ->
                outcome =
                  exceptionHandler req (recordMetric req (checkReady req
                    (if secondClass
                     then validateAuth serverAuthToken req (postTxsHandler (Some true) req)
                     else postTxsHandler None req))) k).
  { intros Hv. unfold outcome, txsEndpoint, txsSecondClassRoute, txsRoute.
    destruct secondClass; by rewrite route_accepted. }
  assert (Hnot : versionAccepted req k -> isReady (server k) = false ->
                 outcome = (Ok tt, responded 503
                                     (ErrorBody "Server not ready. Try again later.") seen)).
  { intros Hv Hr. rewrite (Hok Hv).
    unfold exceptionHandler, recordMetric, checkReady, bind, modify, gets. simpl.
    by rewrite Hr. }
  assert (Hauth : versionAccepted req k -> isReady (server k) = true ->
                  secondClass = true -> authTokenHeader req <> Some serverAuthToken ->
                  outcome = (Ok tt, responded 401 (ErrorBody "Invalid server auth token.") seen)).
  { intros Hv Hr -> Ht. rewrite (Hok Hv).
    unfold exceptionHandler, recordMetric, checkReady, validateAuth, bind, modify, gets.
    simpl. rewrite Hr. simpl. rewrite bool_decide_eq_false_2 by done. reflexivity. }
  assert (Hrun : versionAccepted req k -> isReady (server k) = true ->
                 secondClass = false \/ authTokenHeader req = Some serverAuthToken ->
                 outcome =
                   match rbind (postData req) (FeeCalculator.mapR fromTxJson) with
                   | Throw err => (Ok tt, responded 400 (ErrorBody (message err)) (logged err seen))
                   | Ok txs =>
                       match receiveTxs {| txs := txs; requestSender := sender |}
                                        (classArgument secondClass) (server k) with
                       | (Ok txIds, s') =>
                           (Ok tt, responded 200 (TxIdsBody (map Server.toHex txIds))
                                             (withServer s' seen))
                       | (Throw err, s') =>
                           (Ok tt, responded 400 (ErrorBody (message err))
                                             (logged err (withServer s' seen)))
                       end
                   end).
  { intros Hv Hr Hclass. rewrite (Hok Hv).
    assert (Hinner : (if secondClass
                      then validateAuth serverAuthToken req (postTxsHandler (Some true) req)
                      else postTxsHandler None req) =
                     postTxsHandler (classArgument secondClass) req).
    { destruct secondClass; [|reflexivity].
      destruct Hclass as [?|Ht]; [done|].
      unfold validateAuth. by rewrite bool_decide_eq_true_2. }
    rewrite Hinner.
    unfold exceptionHandler, recordMetric, checkReady, postTxsHandler, bind, modify, gets.
    simpl. rewrite Hr. simpl. fold sender.
    destruct (rbind (postData req) (FeeCalculator.mapR fromTxJson)) as [txs|err];
      [|reflexivity].
    unfold onServer. simpl.
    destruct (receiveTxs _ (classArgument secondClass) (server k)) as [[txIds|err] s'];
      reflexivity. }
  assert (Hcases : versionAccepted req k \/ ~ versionAccepted req k).
  { unfold versionAccepted. destruct (truthy (versionHeader req)); [|by left; left].
    destruct (decide (versionHeader req = Some (version (server k)))); [by left; right|].
    right. intros [?|?]; done. }
  split; [|split; [|split; [|split]]].
  - destruct Hcases as [Hv|Hv]; [|by rewrite (Hbad Hv)].
    destruct (isReady (server k)) eqn:Hr; [|by rewrite (Hnot Hv eq_refl)].
    destruct secondClass eqn:Hc.
    + destruct (decide (authTokenHeader req = Some serverAuthToken)) as [Ht|Ht].
      * rewrite (Hrun Hv eq_refl (or_intror Ht)).
        destruct (rbind _ _) as [txs|err]; [|reflexivity].
        by destruct (receiveTxs _ _ _) as [[txIds|err] s'].
      * by rewrite (Hauth Hv eq_refl eq_refl Ht).
    + rewrite (Hrun Hv eq_refl (or_introl eq_refl)).
      destruct (rbind _ _) as [txs|err]; [|reflexivity].
      by destruct (receiveTxs _ _ _) as [[txIds|err] s'].
  - intros Hv. by rewrite (Hbad Hv).
  - intros Hv Hr. by rewrite (Hnot Hv Hr).
  - intros Hv Hr Hc Ht. by rewrite (Hauth Hv Hr Hc Ht).
  - intros Hv Hr Hclass. rewrite (Hrun Hv Hr Hclass). split.
    + by intros err ->.
    + intros txs s' ->. cbv zeta. split.
      * by intros txIds ->.
      * by intros err ->.
Qed.



End Routes.

(** ** Transactions that wait, and rollups off the grid *)

Section PendingTxs.
Import WorldState Server Writes.
Context `{Hasher} `{JoinSplit}.

(** X21. Admission looks at the committed trees only, never at the
    transactions that wait in the queue: once [receiveTx] has admitted a
    proof, it answers every proof as it did before, so the same proof, or
    another one that spends the same nullifiers, is admitted again and
    queued behind the first. *)
Theorem receiveTx_ignores_pending (proofData k1 k2 : Buffer) (s s1 : ServerState) :
  let proof := newJoinSplitProof proofData [k1; k2] in
  receiveTx proofData k1 k2 s = (Ok tt, s1) ->
  s1 = withTxQueue (txQueue s ++ [Some proof]) s /\
  (forall other k3 k4 : Buffer,
      fst (receiveTx other k3 k4 s1) = fst (receiveTx other k3 k4 s) /\
      (fst (receiveTx other k3 k4 s) = Ok tt ->
       snd (receiveTx other k3 k4 s1) =
         withTxQueue (txQueue s ++ [Some proof; Some (newJoinSplitProof other [k3; k4])]) s)) /\
  receiveTx proofData k1 k2 s1 =
    (Ok tt, withTxQueue (txQueue s ++ [Some proof; Some proof]) s).
Proof.
  intros proof Hrun.
  assert (Hs1 : s1 = withTxQueue (txQueue s ++ [Some proof]) s).
  { rewrite receiveTx_outcome in Hrun. fold proof in Hrun.
    destruct (fst (get 1 (nullifier1 proof) (worldStateDb s))) as [v1|e1]; [|discriminate].
    destruct (negb (equals v1 (alloc 64))); [discriminate|].
    destruct (fst (get 1 (nullifier2 proof) (worldStateDb s))) as [v2|e2]; [|discriminate].
    destruct (negb (equals v2 (alloc 64))); [discriminate|].
    destruct (fst (get 2 _ (worldStateDb s))) as [v3|e3]; [|discriminate].
    destruct (equals v3 (alloc 64)); [discriminate|].
    destruct (negb (verifyProof proofData)); [discriminate|].
    by inversion Hrun. }
  assert (Hother : forall other k3 k4 : Buffer,
      fst (receiveTx other k3 k4 s1) = fst (receiveTx other k3 k4 s) /\
      (fst (receiveTx other k3 k4 s) = Ok tt ->
       snd (receiveTx other k3 k4 s1) =
         withTxQueue (txQueue s ++ [Some proof; Some (newJoinSplitProof other [k3; k4])]) s)).
  { intros other k3 k4. rewrite !receiveTx_outcome. subst s1.
    change (worldStateDb (withTxQueue _ s)) with (worldStateDb s).
    set (q := newJoinSplitProof other [k3; k4]).
    destruct (fst (get 1 (nullifier1 q) (worldStateDb s))) as [v1|e1];
      [|split; [reflexivity|discriminate]].
    destruct (negb (equals v1 (alloc 64))); [split; [reflexivity|discriminate]|].
    destruct (fst (get 1 (nullifier2 q) (worldStateDb s))) as [v2|e2];
      [|split; [reflexivity|discriminate]].
    destruct (negb (equals v2 (alloc 64))); [split; [reflexivity|discriminate]|].
    destruct (fst (get 2 _ (worldStateDb s))) as [v3|e3];
      [|split; [reflexivity|discriminate]].
    destruct (equals v3 (alloc 64)); [split; [reflexivity|discriminate]|].
    destruct (negb (verifyProof other)); [split; [reflexivity|discriminate]|].
    split; [reflexivity|]. intros _. simpl. unfold withTxQueue. simpl.
    by rewrite <- app_assoc. }
  split; [exact Hs1|]. split; [exact Hother|].
  destruct (Hother proofData k1 k2) as [Hfst Hsnd].
  rewrite Hrun in Hfst, Hsnd. simpl in Hfst.
  specialize (Hsnd eq_refl). fold proof in Hsnd.
  destruct (receiveTx proofData k1 k2 s1) as [r s2]. simpl in *. by subst.
Qed.

End PendingTxs.

Section Alignment.
Import WorldState Server Writes JsNumber.
Context `{Hasher} `{JoinSplit}.

(** A rational whose reduced denominator is 1 is an integer. *)
Lemma isInteger_inv (q : Qc) :
  isInteger q = true -> q = Q2Qc (inject_Z (Qnum (Qcanon.this q))).
Proof.
  unfold isInteger. intros Hden. apply Pos.eqb_eq in Hden.
  apply Qc_is_canon. simpl. rewrite Qred_correct.
  destruct q as [[n d] Hc]. simpl in *. subst d. reflexivity.
Qed.

(** A quotient of integers that is an integer divides exactly. *)
Lemma div_integer_inv (a b m : Z) :
  b <> 0 -> (Q2Qc (inject_Z a) / Q2Qc (inject_Z b))%Qc = Q2Qc (inject_Z m) -> a = m * b.
Proof.
  intros Hb Hq.
  assert (Hb' : Q2Qc (inject_Z b) <> 0%Qc).
  { intros Hz. apply (Q2Qc_inject_inj b 0) in Hz. lia. }
  apply Q2Qc_inject_inj. rewrite <- Q2Qc_inject_mul, <- Hq.
  field. exact Hb'.
Qed.

(** The index arithmetic of [createRollup] off the grid: for a data start
    index that is no multiple of twice the rollup size the quotient is a
    fraction, and so is its remainder by two, which is no array index. *)
Lemma rootIndex_fraction (dataStartIndex size : Z) :
  0 < size -> dataStartIndex mod (2 * size) <> 0 ->
  arrayIndex (rootIndex dataStartIndex size) = None.
Proof.
  intros Hsize Hmod. unfold rootIndex, div, rem, ofZ.
  rewrite !isZero_ofZ.
  destruct (size * 2 =? 0) eqn:E; [apply Z.eqb_eq in E; lia|]. simpl (2 =? 0).
  cbv iota. unfold arrayIndex.
  set (x := (Q2Qc (inject_Z dataStartIndex) / Q2Qc (inject_Z (size * 2)))%Qc).
  set (t := truncQ (x / Q2Qc (inject_Z 2))%Qc).
  destruct (isInteger (x - Q2Qc (inject_Z 2) * Q2Qc (inject_Z t))%Qc) eqn:Hint; [|done].
  exfalso. apply isInteger_inv in Hint.
  set (n := Qnum (Qcanon.this (x - Q2Qc (inject_Z 2) * Q2Qc (inject_Z t))%Qc)) in Hint.
  assert (Hx : x = Q2Qc (inject_Z (n + 2 * t))).
  { replace (n + 2 * t) with (n - (- (2 * t))) by lia.
    rewrite <- Q2Qc_inject_sub. rewrite <- Hint.
    replace (- (2 * t)) with (2 * (- t)) by lia.
    rewrite <- Q2Qc_inject_mul.
    replace (- t) with (0 - t) by lia. rewrite <- Q2Qc_inject_sub.
    change (Q2Qc (inject_Z 0)) with 0%Qc. ring. }
  apply div_integer_inv in Hx; [|lia].
  apply Hmod. rewrite Hx. replace (2 * size) with (size * 2) by lia.
  apply Z.mod_mul. lia.
Qed.

(** X23. When [rollupSize] is a power of two and the data tree size found
    at entry is no multiple of twice the rollup size, the index computed
    by [createRollup] is a fraction: the witness that it returns has no
    [rollupRoot] (the array read gives [undefined]), and nothing is
    thrown.  [createRollup] does return a witness under the conditions of
    the aligned case. *)
Theorem createRollup_unaligned (txs : list JoinSplitProof) (s : ServerState) (k : nat) :
  rollupSize s = 2 ^ Z.of_nat k ->
  let db := worldStateDb s in
  let dataStartIndex := size (dataTree (staged db)) in
  dataStartIndex mod (2 * rollupSize s) <> 0 ->
  (forall (r : Rollup) (s' : ServerState),
      createRollup txs s = (Ok r, s') -> rollupRoot r = None) /\
  (inRange (dataTree (committed db)) dataStartIndex = true ->
   batchInRange (committed db) dataStartIndex txs = true ->
   (S k <= depth (dataTree (committed db)))%nat ->
   exists (r : Rollup) (s' : ServerState),
     createRollup txs s = (Ok r, s') /\ rollupRoot r = None).
Proof.
  intros Hsize db dataStartIndex Hmod.
  assert (Hpos : 0 < rollupSize s) by (rewrite Hsize; apply Z.pow_pos_nonneg; lia).
  assert (Hnone : forall (r : Rollup) (s' : ServerState),
             createRollup txs s = (Ok r, s') -> rollupRoot r = None).
  { intros r s' Hrun.
    apply createRollup_inv in Hrun
      as (_ & _ & _ & _ & _ & _ & _ & _ & _ & _ & _ & height & level & _ & _ & Hroot).
    fold db in Hroot. fold dataStartIndex in Hroot.
    by rewrite (rootIndex_fraction _ _ Hpos Hmod) in Hroot. }
  split; [exact Hnone|].
  intros Hstart Hbatch Hdepth.
  destruct (createRollup_returns txs s (S k) Hstart Hbatch) as [r Hrun].
  - unfold rollupRootHeight. by rewrite Hsize, log2Index_pow2.
  - exact Hdepth.
  - eexists r, _. split; [exact Hrun|]. exact (Hnone _ _ Hrun).
Qed.

End Alignment.

(** ** Blocks that the store refuses, and assets without fees *)

Section BlockFailure.
Import WorldState Server Writes.
Context `{Hasher} `{JoinSplit}.

Lemma refused_app ts l1 l2 :
  refused ts (l1 ++ l2) =
    match refused ts l1 with Some p => Some p | None => refused ts l2 end.
Proof.
  induction l1 as [|p l1 IH]; simpl; [done|]. by destruct (putInRange ts p).
Qed.

Lemma accepted_app ts l1 l2 :
  accepted ts (l1 ++ l2) =
    match refused ts l1 with Some _ => accepted ts l1 | None => l1 ++ accepted ts l2 end.
Proof.
  induction l1 as [|p l1 IH]; simpl; [done|].
  destruct (putInRange ts p); [|done]. rewrite IH. by destruct (refused ts l1).
Qed.

Lemma accepted_all ts ps : refused ts ps = None -> accepted ts ps = ps.
Proof.
  induction ps as [|p ps IH]; simpl; [done|].
  destruct (putInRange ts p); [|discriminate]. intros Hr. by rewrite IH.
Qed.

Lemma refused_None ts ps :
  refused ts ps = None <-> Forall (fun p : Put => putInRange ts p = true) ps.
Proof.
  induction ps as [|p ps IH]; simpl; [by split; [constructor|]|].
  destruct (putInRange ts p) eqn:E.
  - rewrite IH. split; [by constructor|]. by inversion 1.
  - split; [discriminate|]. inversion 1; congruence.
Qed.

(** One put on the store: staged when it is in range, refused with a
    failure and without effect otherwise. *)
Lemma onDb_put_outcome (id key : Z) (value : Buffer) (s : ServerState) :
  let ts := committed (worldStateDb s) in
  let p : Put := (id, key, value) in
  onDb (put id key value) s =
    (putsResult ts [p], withDb (stage (accepted ts [p]) (worldStateDb s)) s).
Proof.
  intros ts p. unfold putsResult. simpl.
  destruct (putInRange ts p) eqn:Hr.
  - by rewrite (onDb_put_stage p).
  - rewrite stage_nil, withDb_same. subst p.
    unfold putInRange, putError in *. simpl in *. unfold onDb, put. fold ts.
    destruct (getTree id ts) as [t|] eqn:Ht.
    + destruct (inRange_staged id (worldStateDb s) t key Ht) as (t' & Ht' & Hin & _).
      rewrite Ht', Hin, Hr. by rewrite withDb_same.
    + rewrite (getTree_staged_None id _ Ht). by rewrite withDb_same.
Qed.

(** The loop over [dataEntries], whether or not the store takes every
    entry. *)
Lemma forIndexed_outcome (start : Z) (entries : list Buffer) :
  forall (i : Z) (s : ServerState),
    let ts := committed (worldStateDb s) in
    let ps := dataPuts (start + i) entries in
    forIndexed i entries (fun i entry => onDb (put 0 (start + i) entry)) s =
      (putsResult ts ps, withDb (stage (accepted ts ps) (worldStateDb s)) s).
Proof.
  induction entries as [|e rest IH]; intros i s; simpl.
  - rewrite stage_nil, withDb_same. reflexivity.
  - unfold bind. rewrite (onDb_put_outcome 0 (start + i) e s). cbv zeta.
    unfold putsResult. simpl.
    destruct (putInRange (committed (worldStateDb s)) (0, start + i, e)) eqn:Hr; [|done].
    rewrite IH. simpl worldStateDb. cbv zeta.
    replace (start + (i + 1)) with (start + i + 1) by lia.
    change (committed (stage _ (worldStateDb s))) with (committed (worldStateDb s)).
    rewrite stage_app, withDb_withDb. reflexivity.
Qed.

(** The loop over [nullifiers]. *)
Lemma forEach_outcome (ns : list Buffer) :
  forall s : ServerState,
    let ts := committed (worldStateDb s) in
    let ps := map (fun n => (1, toBigIntBE n, nonEmptyValue)) ns in
    forEach ns (fun n => onDb (put 1 (toBigIntBE n) nonEmptyValue)) s =
      (putsResult ts ps, withDb (stage (accepted ts ps) (worldStateDb s)) s).
Proof.
  induction ns as [|n rest IH]; intros s; simpl.
  - rewrite stage_nil, withDb_same. reflexivity.
  - unfold bind. rewrite (onDb_put_outcome 1 (toBigIntBE n) nonEmptyValue s). cbv zeta.
    unfold putsResult. simpl.
    destruct (putInRange (committed (worldStateDb s)) (1, toBigIntBE n, nonEmptyValue))
      eqn:Hr; [|done].
    rewrite IH. simpl worldStateDb. cbv zeta.
    change (committed (stage _ (worldStateDb s))) with (committed (worldStateDb s)).
    rewrite stage_app, withDb_withDb. reflexivity.
Qed.

(** [handleNewBlock] on any block: it commits when the store takes every
    put, and stops at the first put that the store refuses. *)
Lemma handleNewBlock_outcome (b : Block) (s : ServerState) :
  let db := worldStateDb s in
  let ps := blockPuts b db in
  handleNewBlock b s =
    match refused (committed db) ps with
    | None => (Ok tt, withDb {| committed := staged (stage ps db); overlay := [] |} s)
    | Some p => (Throw (putError (committed db) p),
                 withDb (stage (accepted (committed db) ps) db) s)
    end.
Proof.
  intros db ps. unfold ps, blockPuts. cbv zeta.
  set (data := dataPuts (dataStartIndex b) (dataEntries b)).
  set (ts := committed db).
  unfold handleNewBlock.
  unfold bind at 1.
  pose proof (forIndexed_outcome (dataStartIndex b) (dataEntries b) 0 s) as Hloop.
  cbv zeta in Hloop. rewrite Z.add_0_r in Hloop. fold db in Hloop. fold ts in Hloop.
  fold data in Hloop. rewrite Hloop. clear Hloop.
  rewrite !refused_app, !accepted_app. rewrite !refused_app.
  unfold putsResult.
  destruct (refused ts data) as [p|] eqn:Hdata; [reflexivity|].
  rewrite (accepted_all _ _ Hdata).
  unfold bind at 1.
  assert (Hpad : (if Z.of_nat (length (dataEntries b)) <? numDataEntries b
                  then onDb (put 0 (dataStartIndex b + numDataEntries b - 1) (alloc 64))
                  else ret tt) (withDb (stage data db) s) =
                 (putsResult ts (padPuts b),
                  withDb (stage (data ++ accepted ts (padPuts b)) db) s)).
  { unfold padPuts.
    destruct (Z.of_nat (length (dataEntries b)) <? numDataEntries b).
    - rewrite (onDb_put_outcome 0 (dataStartIndex b + numDataEntries b - 1) (alloc 64)).
      simpl worldStateDb. cbv zeta.
      change (committed (stage data db)) with ts.
      by rewrite stage_app, withDb_withDb.
    - unfold putsResult. simpl. by rewrite app_nil_r. }
  rewrite Hpad. clear Hpad. unfold putsResult.
  destruct (refused ts (padPuts b)) as [p|] eqn:Hp; [reflexivity|].
  rewrite (accepted_all _ _ Hp).
  unfold bind at 1. rewrite onDb_getRoot_data. simpl worldStateDb.
  unfold bind at 1.
  set (key := toBigIntBE (slice (treeRoot (dataTree (staged (stage (data ++ padPuts b) db))))
                                16 None)).
  rewrite (onDb_put_outcome 2 key nonEmptyValue). simpl worldStateDb. cbv zeta.
  change (committed (stage (data ++ padPuts b) db)) with ts.
  unfold putsResult.
  rewrite stage_app, withDb_withDb.
  unfold Put in *.
  match goal with
  | |- context [refused ts (?p :: [])] =>
      destruct (refused ts (p :: [])) as [p'|] eqn:Hroot; [reflexivity|]
  end.
  rewrite (accepted_all _ _ Hroot).
  unfold bind at 1. rewrite forEach_outcome. simpl worldStateDb. cbv zeta.
  change (committed (stage _ db)) with ts.
  fold (nullifierPuts b). unfold putsResult.
  rewrite stage_app, withDb_withDb.
  destruct (refused ts (nullifierPuts b)) as [p|] eqn:Hnull.
  { rewrite <- !app_assoc. reflexivity. }
  rewrite (accepted_all _ _ Hnull).
  unfold onDb, commit. simpl. rewrite <- !app_assoc. reflexivity.
Qed.

Lemma refused_split ts ps p :
  refused ts ps = Some p ->
  putInRange ts p = false /\
  Forall (fun q : Put => putInRange ts q = true) (accepted ts ps) /\
  exists rest, ps = accepted ts ps ++ p :: rest.
Proof.
  induction ps as [|q ps IH]; simpl; [discriminate|].
  destruct (putInRange ts q) eqn:Hq.
  - intros Hr. destruct (IH Hr) as (Hp & Hall & rest & Hps).
    split; [exact Hp|]. split; [by constructor|].
    exists rest. simpl. by rewrite <- Hps.
  - intros [= <-]. split; [exact Hq|]. split; [constructor|]. by exists ps.
Qed.

Lemma putError_fatal ts p : exists message, putError ts p = Fatal message.
Proof. unfold putError. destruct (getTree p.1.1 ts); eauto. Qed.

(** Admission reads the committed trees only. *)
Lemma receiveTx_committed (proofData k1 k2 : Buffer) (s s' : ServerState) :
  committed (worldStateDb s') = committed (worldStateDb s) ->
  fst (receiveTx proofData k1 k2 s') = fst (receiveTx proofData k1 k2 s).
Proof.
  intros Hc. rewrite !receiveTx_outcome.
  assert (Hget : forall id key,
             fst (get id key (worldStateDb s')) = fst (get id key (worldStateDb s))).
  { intros id key. unfold get. rewrite Hc.
    destruct (getTree id (committed (worldStateDb s))) as [t|]; [|done].
    by destruct (inRange t key). }
  rewrite !Hget.
  set (q := newJoinSplitProof proofData [k1; k2]).
  destruct (fst (get 1 (nullifier1 q) (worldStateDb s))) as [v1|e1]; [|done].
  destruct (negb (equals v1 (alloc 64))); [done|].
  destruct (fst (get 1 (nullifier2 q) (worldStateDb s))) as [v2|e2]; [|done].
  destruct (negb (equals v2 (alloc 64))); [done|].
  destruct (fst (get 2 _ (worldStateDb s))) as [v3|e3]; [|done].
  destruct (equals v3 (alloc 64)); [done|].
  by destruct (negb (verifyProof proofData)).
Qed.

(** X24. [handleNewBlock] completes exactly when every key that the block
    writes is a leaf index of its tree.  Otherwise it throws the failure
    of the store at the first put that is refused: nothing is committed,
    so reads and the admission of transactions answer as before, but the
    puts made before the refused one stay staged, as the method does not
    roll back. *)
Theorem handleNewBlock_refusal (b : Block) (s : ServerState) :
  let db := worldStateDb s in
  let ps := blockPuts b db in
  (fst (handleNewBlock b s) = Ok tt <->
   Forall (fun p : Put => putInRange (committed db) p = true) ps) /\
  (forall (e : Exn) (s' : ServerState),
      handleNewBlock b s = (Throw e, s') ->
      (exists message, e = Fatal message) /\
      (exists (done : list Put) (p : Put) (rest : list Put),
          ps = done ++ p :: rest /\
          Forall (fun q : Put => putInRange (committed db) q = true) done /\
          putInRange (committed db) p = false /\
          s' = withDb (stage done db) s) /\
      committed (worldStateDb s') = committed db /\
      (forall id key, fst (get id key (worldStateDb s')) = fst (get id key db)) /\
      (forall proofData k1 k2 : Buffer,
          fst (receiveTx proofData k1 k2 s') = fst (receiveTx proofData k1 k2 s))).
Proof.
  intros db ps. pose proof (handleNewBlock_outcome b s) as Hout.
  cbv zeta in Hout. fold db in Hout. fold ps in Hout.
  split.
  - rewrite <- refused_None. rewrite Hout.
    destruct (refused (committed db) ps) as [p|]; simpl; [|done].
    split; discriminate.
  - intros e s' Hrun. rewrite Hout in Hrun.
    destruct (refused (committed db) ps) as [p|] eqn:Hp; [|discriminate].
    inversion Hrun; subst e s'; clear Hrun.
    destruct (refused_split _ _ _ Hp) as (Hrange & Hall & rest & Hps).
    assert (Hc : committed (worldStateDb (withDb (stage (accepted (committed db) ps) db) s))
                 = committed db) by reflexivity.
    split; [apply putError_fatal|].
    split; [by exists (accepted (committed db) ps), p, rest|].
    split; [exact Hc|].
    split.
    + intros id key. unfold get. rewrite Hc.
      destruct (getTree id (committed db)) as [t|]; [|done].
      by destruct (inRange t key).
    + intros proofData k1 k2. by apply receiveTx_committed.
Qed.

End BlockFailure.

Section FeeFree.
Import JsNumber FeeCalculator.
Context `{PriceTracker} (this : Config).

Lemma mapR_const {A B} (f : A -> Result B) (xs : list A) (y : B) :
  (forall x, f x = Ok y) -> mapR f xs = Ok (map (fun _ => y) xs).
Proof.
  intros Hf. induction xs as [|x xs IH]; simpl; [done|]. by rewrite Hf, IH.
Qed.

(** X22. An asset on the list of fee-free assets costs nothing, whether
    or not the calculator knows the asset and whatever the oracle says:
    its base fee, its fee constants and its minimum fees are 0; a fee
    quote for it, when [getFeeQuotes] returns one, holds seven zero
    constants and base fee quotes of 0; the whole fee of a transaction
    paid in it counts as surplus.  When the native asset is fee-free, the
    surplus ratio is 1 for every list of transactions. *)
Theorem feeFree_asset (assetId : AssetId) :
  isFeeFree this assetId = true ->
  getBaseFee this assetId = Ok 0 /\
  (forall t : TxType.t,
      getFeeConstant this assetId t = Ok 0 /\ getMinTxFee this assetId t = Ok 0) /\
  (forall (surplusRatios : list Number) (publishInterval : Number) (q : AssetFeeQuote),
      getFeeQuotes this surplusRatios publishInterval assetId = Ok q ->
      feeConstants q = [0; 0; 0; 0; 0; 0; 0] /\
      Forall (fun quote => fee quote = 0) (baseFeeQuotes q)) /\
  (forall tx : TxDao,
      fst (getFeeForTxDao tx) = assetId ->
      txSurplus this tx = toEthPrice this assetId (snd (getFeeForTxDao tx))) /\
  (assetId = ETH -> forall txs : list TxDao, computeSurplusRatio this txs = Ok (ofZ 1)).
Proof.
  intros Hfree.
  assert (Hbase : getBaseFee this assetId = Ok 0) by (unfold getBaseFee; by rewrite Hfree).
  assert (Hconst : forall t, getFeeConstant this assetId t = Ok 0).
  { intros t. unfold getFeeConstant. by rewrite Hfree. }
  assert (Hmin : forall t, getMinTxFee this assetId t = Ok 0).
  { intros t. unfold getMinTxFee. destruct (TxType.isAccount t); [done|].
    by rewrite Hconst, Hbase. }
  split; [exact Hbase|]. split; [by intros t|]. split; [|split].
  - intros surplusRatios publishInterval q Hq.
    apply getFeeQuotes_inv in Hq as (baseFee & Hb & Hc & Hquotes).
    rewrite Hbase in Hb. inversion Hb; subst baseFee; clear Hb.
    split.
    + rewrite (mapR_const _ _ 0 Hconst) in Hc. by inversion Hc.
    + apply Forall_lookup. intros i quote Hi.
      assert (Hr : exists ratio, surplusRatios !! i = Some ratio).
      { apply lookup_lt_is_Some. rewrite <- (mapR_length _ _ _ Hquotes).
        apply lookup_lt_is_Some. eauto. }
      destruct Hr as [ratio Hr].
      destruct (mapR_lookup _ _ _ _ _ Hquotes Hr) as (quote' & Hq' & Hrun).
      rewrite Hi in Hq'. inversion Hq'; subst quote'.
      unfold baseFeeQuote in Hrun.
      destruct (toBigInt _) as [extra|e]; [|discriminate].
      cbn [rbind] in Hrun. inversion Hrun; subst quote. simpl. lia.
  - intros tx Hasset. unfold txSurplus.
    destruct (getFeeForTxDao tx) as [a f] eqn:Hfee. simpl in Hasset. subst a.
    rewrite Hmin. cbn [rbind]. simpl. by rewrite Z.sub_0_r.
  - intros -> txs. unfold computeSurplusRatio. by rewrite Hbase.
Qed.

End FeeFree.

(** ** The further properties at concrete inputs *)

Section StoreExamples.
Import WorldState Server Writes Samples JsNumber.

(** A signature without its recovery byte still fills a record. *)
Lemma solidityFormatSignatures_any_length_witness :
  Contracts.padSignature (replicate 64 xaa) = replicate 64 xaa ++ alloc 31 ++ [xaa].
Proof.
  destruct (solidityFormatSignatures_any_length []) as (_ & _ & Hshort).
  exact (Hshort (replicate 64 xaa) eq_refl).
Defined.

(** Three transactions with a rollup size of two: one batch of two leaves
    and one transaction stays pending. *)
Lemma processTxQueue_batch_sizes_witness :
  exists (st' : TxLoop) (s' : ServerState) (batches : list (list JoinSplitProof)),
    processTxQueue 30000 30000 (clock 3) queued = Ok (st', s') /\
    stateQueue s' = stateQueue queued ++ map RollupJob batches /\
    Forall (fun b => 1 <= Z.of_nat (length b) <= 2) batches /\
    Z.of_nat (length (txs st')) < 2.
Proof.
  destruct (processTxQueue 30000 30000 (clock 3) queued) as [[st' s']|e] eqn:Hrun;
    [|vm_compute in Hrun; discriminate].
  destruct (processTxQueue_batch_sizes 30000 30000 (clock 3) queued st' s')
    as (batches & Hq & Hall & Hlen); [simpl; lia|exact Hrun|].
  exists st', s', batches. done.
Defined.

(** A flush after the three transactions. *)
Lemma flushTxs_dispatches_pending_witness :
  exists (st' : TxLoop) (s' : ServerState),
    processTxQueue 30000 30000 (clock 4) (snd (flushTxs queued)) = Ok (st', s') /\
    txs st' = [] /\ txQueue s' = [].
Proof.
  destruct (processTxQueue 30000 30000 (clock 4) (snd (flushTxs queued)))
    as [[st' s']|e] eqn:Hrun; [|vm_compute in Hrun; discriminate].
  destruct (flushTxs_dispatches_pending 30000 30000 (clock 4) queued
              (snd (flushTxs queued)) st' s')
    as (Hpending & Hqueue & _); [reflexivity|reflexivity|exact Hrun|].
  exists st', s'. done.
Defined.

Lemma block_in_range :
  Forall (fun p : Put => putInRange (committed emptyDb) p = true)
         (@blockPuts toyHasher block emptyDb).
Proof. vm_compute. repeat constructor. Defined.

(** The block of the single-deposit scenario marks nullifier 3 and no
    other. *)
Lemma handleNewBlock_marks_witness :
  exists s' : ServerState,
    @handleNewBlock toyHasher block (server emptyDb 2) = (Ok tt, s') /\
    fst (get 1 3 (worldStateDb s')) = Ok nonEmptyValue /\
    fst (get 1 4 (worldStateDb s')) = Ok (alloc 64).
Proof.
  destruct (@handleNewBlock_marks toyHasher block (server emptyDb 2) eq_refl block_in_range)
    as (s' & dataRoot & Hrun & _ & Hnull & _).
  exists s'. split; [exact Hrun|]. rewrite !Hnull. split; reflexivity.
Defined.

(** A proof that spends nullifier 3 again is turned away. *)
Lemma spent_nullifier_rejected_witness :
  exists s' : ServerState,
    @handleNewBlock toyHasher block (server emptyDb 2) = (Ok tt, s') /\
    @receiveTx toyJoinSplit [x03; x04; x00; x01] [x0a] [x0b] s' =
      (Throw (Error "Nullifier 1 already exists."), s').
Proof.
  destruct (@spent_nullifier_rejected toyHasher toyJoinSplit block (server emptyDb 2)
              [x03; x04; x00; x01] [x0a] [x0b] eq_refl block_in_range)
    as (s' & Hrun & Hfirst & _).
  exists s'. split; [exact Hrun|]. apply Hfirst. simpl. left.
Defined.

(** A proof against the data root of the block, with fresh nullifiers. *)
Lemma committed_root_accepted_witness :
  exists s' : ServerState,
    @handleNewBlock toyHasher block (server emptyDb 2) = (Ok tt, s') /\
    fst (@receiveTx toyJoinSplit [x01; x02; x00; x01] [x0a] [x0b] s') = Ok tt.
Proof.
  destruct (@committed_root_accepted toyHasher toyJoinSplit block (server emptyDb 2)
              [x01; x02; x00; x01] [x0a] [x0b] eq_refl block_in_range)
    as (s' & dataRoot & Hrun & Hroot & Hnew & _).
  exists s'. split; [exact Hrun|].
  vm_compute in Hrun. injection Hrun as <-.
  vm_compute in Hroot. injection Hroot as <-.
  rewrite Hnew; reflexivity.
Defined.

End StoreExamples.

Section RollupExamples.
Import WorldState Server Writes Samples JsNumber.

(** The witness of a batch of one transaction. *)
Lemma createRollup_witness_shape_witness :
  exists (r : Rollup) (s' : ServerState),
    @createRollup toyHasher [tx 1 2 0] (server emptyDb 2) = (Ok r, s') /\
    length (newNullRoots r) = 2%nat /\ length (oldRootPaths r) = 1%nat /\
    proofs r = [[x01; x02; x00; x01]].
Proof.
  destruct (@createRollup toyHasher [tx 1 2 0] (server emptyDb 2)) as [[r|e] s'] eqn:Hrun;
    [|vm_compute in Hrun; discriminate].
  destruct (@createRollup_witness_shape toyHasher [tx 1 2 0] (server emptyDb 2) s' r Hrun)
    as (_ & _ & Hproofs & Hroots & _ & _ & Hpaths & _).
  exists r, s'. split; [reflexivity|]. split; [exact Hroots|]. split; [exact Hpaths|].
  exact Hproofs.
Defined.

(** With a rollup size of three the same batch throws, and its four puts
    stay staged. *)
Lemma createRollup_rollupSize_witness :
  @createRollup toyHasher [tx 1 2 0] (server emptyDb 3) =
    (Throw (TypeError "Cannot read properties of undefined"),
     withDb (stage (batchPuts 0 [tx 1 2 0]) emptyDb) (server emptyDb 3)).
Proof.
  destruct (@createRollup_rollupSize toyHasher [tx 1 2 0] (server emptyDb 3)) as [_ Hthrows].
  apply Hthrows; [|reflexivity|reflexivity].
  intros k Hk. exfalso. simpl in Hk.
  destruct k as [|[|k]]; [discriminate|discriminate|].
  rewrite !Nat2Z.inj_succ, !Z.pow_succ_r in Hk by lia. lia.
Defined.

Lemma batchBlock_in_range :
  Forall (fun p : Put => putInRange (committed emptyDb) p = true)
         (@blockPuts toyHasher batchBlock emptyDb).
Proof. vm_compute. repeat constructor. Defined.

(** The block of the batch commits the data root of its witness. *)
Lemma block_commits_rollup_roots_witness :
  exists (r : Rollup) (s2 : ServerState),
    @createRollup toyHasher [tx 1 2 0] (server emptyDb 2) = (Ok r, server emptyDb 2) /\
    @handleNewBlock toyHasher batchBlock (server emptyDb 2) = (Ok tt, s2) /\
    fst (@getRoot toyHasher 0 (worldStateDb s2)) = Ok (newDataRoot r).
Proof.
  destruct (@createRollup toyHasher [tx 1 2 0] (server emptyDb 2)) as [[r|e] s1] eqn:Hrun;
    [|vm_compute in Hrun; discriminate].
  pose proof (createRollup_inv _ _ _ _ Hrun) as (Hs1 & _ & _ & Hidx & _).
  change (s1 = server emptyDb 2) in Hs1. subst s1.
  destruct (@block_commits_rollup_roots toyHasher [tx 1 2 0] batchBlock
              (server emptyDb 2) (server emptyDb 2) r)
    as (s2 & Hblock & Hdata & _);
    [reflexivity|exact Hrun|by rewrite Hidx|reflexivity|reflexivity
    |intros _; reflexivity|exact batchBlock_in_range|].
  exists r, s2. split; [reflexivity|]. split; [exact Hblock|exact Hdata].
Defined.


End RollupExamples.

Section QuoteExamples.
Import JsNumber FeeCalculator Samples.







End QuoteExamples.

Section TransportExamples.
Import App Samples.

(** Digits followed by something else. *)
Lemma bufferFromHex_toHex_witness :
  bufferFromHex ("0x" ++ Server.toHex [xde; xad] ++ String "z" "z") = [xde; xad].
Proof.
  destruct (bufferFromHex_toHex [xde; xad]) as (_ & _ & _ & Hjunk & _).
  apply Hjunk. reflexivity.
Defined.

End TransportExamples.

Section RouteExamples.
Import App Samples JsNumber.

(** [/flush] with the right token puts the sentinel on the transaction
    queue of the server; with a wrong one it answers 401 and the queue is
    as it was. *)
Lemma adminRoute_guard_witness :
  let good := request "/flush" (Some "2.1"%string) (Some "secret"%string) in
  let bad := request "/flush" None (Some "guess"%string) in
  let k := koa (Samples.server emptyDb 2) in
  Server.txQueue (App.server (snd (@flushRoute _ _ api "secret" good k))) = [None] /\
  status (ctx (snd (@flushRoute _ _ api "secret" good k))) = 200 /\
  Server.txQueue (App.server (snd (@flushRoute _ _ api "secret" bad k))) = [] /\
  status (ctx (snd (@flushRoute _ _ api "secret" bad k))) = 401.
Proof.
  intros good bad k.
  destruct (@adminRoute_guard _ _ api "secret" (@flushTxs _ _ api) good k)
    as (_ & _ & _ & Hrun & _).
  destruct (Hrun (or_intror eq_refl) eq_refl
                 (Server.withTxQueue [None] (Samples.server emptyDb 2))) as [Hok _].
  destruct (@adminRoute_guard _ _ api "secret" (@flushTxs _ _ api) bad k)
    as (_ & _ & Hdenied & _).
  unfold flushRoute. rewrite (Hok eq_refl).
  rewrite Hdenied; [|by left|discriminate].
  repeat split.
Defined.

(** The second-class route with a wrong token, and the first-class route
    with none. *)
Lemma txsRoute_table_witness :
  let req := request "/txs" None None in
  let k := koa (Samples.server emptyDb 2) in
  status (ctx (snd (@txsSecondClassRoute _ _ api externals "secret" req k))) = 401 /\
  body (ctx (snd (@txsRoute _ _ api externals req k))) = TxIdsBody ["01020001"%string].
Proof.
  intros req k.
  destruct (@txsRoute_table _ _ api externals true "secret" req k)
    as (_ & _ & _ & Hdenied & _).
  destruct (@txsRoute_table _ _ api externals false "secret" req k)
    as (_ & _ & _ & _ & Hrun).
  destruct Hrun as [_ Hcall]; [by left|reflexivity|by left|].
  destruct (Hcall [ {| proof := [x01; x02; x00; x01]; offchainTxData := [];
                       depositSignature := None |} ] (Samples.server emptyDb 2) eq_refl)
    as [Hok _].
  split.
  - change (@txsSecondClassRoute _ _ api externals "secret" req k)
      with (@txsEndpoint _ _ api externals true "secret" req k).
    rewrite Hdenied; [reflexivity|by left|reflexivity|reflexivity|discriminate].
  - change (@txsRoute _ _ api externals req k)
      with (@txsEndpoint _ _ api externals false "secret" req k).
    rewrite (Hok [[x01; x02; x00; x01]] eq_refl). reflexivity.
Defined.


End RouteExamples.

Section RefusalExamples.
Import WorldState Server Writes Samples JsNumber.

(** The same proof, sent twice before any block, is queued twice. *)
Lemma receiveTx_ignores_pending_witness :
  exists s1 : ServerState,
    @receiveTx toyJoinSplit [x01; x02; x00; x01] [x0a] [x0b] (server knownRootDb 2) =
      (Ok tt, s1) /\
    @receiveTx toyJoinSplit [x01; x02; x00; x01] [x0a] [x0b] s1 =
      (Ok tt, withTxQueue [Some (tx 1 2 0); Some (tx 1 2 0)] (server knownRootDb 2)).
Proof.
  eexists. split; [reflexivity|].
  destruct (@receiveTx_ignores_pending toyJoinSplit [x01; x02; x00; x01] [x0a] [x0b]
              (server knownRootDb 2) _ eq_refl) as (_ & _ & Hagain).
  exact Hagain.
Defined.

(** A rollup of two transactions on a data tree of two entries. *)
Lemma createRollup_unaligned_witness :
  exists (r : Rollup) (s' : ServerState),
    @createRollup toyHasher [tx 1 2 0] (server twoNotesDb 2) = (Ok r, s') /\
    rollupRoot r = None.
Proof.
  destruct (@createRollup_unaligned toyHasher [tx 1 2 0] (server twoNotesDb 2) 1 eq_refl)
    as [_ Hruns]; [vm_compute; discriminate|].
  apply Hruns; [reflexivity|reflexivity|simpl; lia].
Defined.

(** The block with nullifier 9 is refused and leaves the trees as they
    were. *)
Lemma handleNewBlock_refusal_witness :
  exists (e : Exn) (s' : ServerState),
    @handleNewBlock toyHasher overflowBlock (server emptyDb 2) = (Throw e, s') /\
    (exists message, e = Fatal message) /\
    committed (worldStateDb s') = committed emptyDb.
Proof.
  destruct (@handleNewBlock toyHasher overflowBlock (server emptyDb 2)) as [[u|e] s'] eqn:Hrun;
    [vm_compute in Hrun; discriminate|].
  destruct (@handleNewBlock_refusal toyHasher toyJoinSplit overflowBlock (server emptyDb 2))
    as [_ Hthrown].
  destruct (Hthrown e s' Hrun) as (Hfatal & _ & Hc & _).
  exists e, s'. split; [reflexivity|]. split; [exact Hfatal|exact Hc].
Defined.

(** With the native asset fee-free, a deposit has no minimum fee and no
    batch ever fills the rollup by its fees. *)
Lemma feeFree_asset_witness :
  @FeeCalculator.getMinTxFee oracle2 freeCalculator FeeCalculator.ETH TxType.DEPOSIT = Ok 0 /\
  @FeeCalculator.computeSurplusRatio oracle2 freeCalculator [transfer 5; accountTx] =
    Ok (ofZ 1).
Proof.
  destruct (@feeFree_asset oracle2 freeCalculator FeeCalculator.ETH eq_refl)
    as (_ & Hmin & _ & _ & Hratio).
  split; [apply Hmin|by apply Hratio].
Defined.

End RefusalExamples.
